(** * FAST-OAD payload-range module: envelope, grid, sweep and reconstruction

    Shallow embedding of [fastoad/gui/payload_range/payload_range_file.py].

    The module computes the Breguet-Leduc payload-range envelope of an
    aircraft ([breguet_leduc_points]), lays a grid of (range, payload)
    points inside it ([grid_generation]), runs a mission on every grid point
    and saves the specific consumptions ([payload_range_loop_computation]),
    and reloads a saved sweep as a contour ([payload_range_full]).

    Modelling conventions.
    - Python and numpy floats are an abstract type [num] with the operations
      the module uses ([FloatOps]).  The structural results (lengths, counts,
      shapes, which exception is raised) are proved for every interpretation
      of these operations; results about values are proved for the exact
      rational interpretation [Qfloat], without rounding.  A division by zero
      and an overflow, which give inf or nan in numpy, have no counterpart
      there: where the outcome depends on one, the results take the divisors
      to be non-zero, and the interpretation [Xfloat], with infinities and
      nan, follows the overflow.
    - [range_step] is a Python [number], an int or a float; the number of
      bands is an int, the tolerances are floats.
    - numpy's [linspace], [arange], [where], [loadtxt]/[savetxt] and Python's
      [str]/[int]/[float]/[split] are modelled from their documented
      behaviour.  A table written by [savetxt] is kept as its rows.
    - Exceptions are values of [exn]; a function that can raise returns a
      [result].  Where a function writes files before it raises, it returns
      the file system together with its outcome.
    - The aircraft file is the record [aircraft] of the values read from it.
      The propulsion model, the atmosphere, scipy's [fsolve], and the mission
      evaluation are collaborators outside this module: they are parameters
      ([collaborators], [simulator]).
    - The file system is a finite map from paths to file contents.  It
      stands for the data folder, taken to exist and to be writable:
      [np.savetxt] and the write of the grid parameters do not fail.  The work
      directory, with the scratch files of the mission and their removal,
      belongs to the mission collaborator.
    - The long functions of the module are cut at their comments into named
      steps (for instance [grid_payload_bands], [rectangular_grid],
      [sweep_step], [read_grid_file], [load_surface]); each says which lines
      it embeds.  Rendering options and timing prints are left out. *)

From Stdlib Require Import ZArith QArith Qround Lia Lqa String Ascii.
From Stdlib Require Import Decimal DecimalString DecimalZ DecimalPos.
From stdpp Require Import base option list gmap strings.

Local Open Scope string_scope.
Local Open Scope list_scope.
Local Open Scope Z_scope.
Local Open Scope nat_scope.

(** ** Exceptions and results *)

Inductive exn : Type :=
  | FileNotFoundError (path : string)   (* an OSError *)
  | IndexError
  | ValueError
  | CollaboratorError (what : string).  (* raised by an external collaborator *)

Definition is_OSError (e : exn) : bool :=
  match e with
  | FileNotFoundError _ => true
  | _ => false
  end.

Inductive result (A : Type) : Type :=
  | Ok (a : A)
  | Raise (e : exn).
Arguments Ok {A} a.
Arguments Raise {A} e.

#[global] Instance result_ret : MRet result := λ A a, Ok a.
#[global] Instance result_bind : MBind result := λ A B f m,
  match m with
  | Ok a => f a
  | Raise e => Raise e
  end.

(** [try: body except OSError: handler]. *)
Definition try_except_OSError {A} (body : result A) (handler : result A) : result A :=
  match body with
  | Ok a => Ok a
  | Raise e => if is_OSError e then handler else Raise e
  end.

(** [for i in range(start, start + count): s = body(i, s)]. *)
Fixpoint for_range {St : Type} (start count : nat)
    (body : nat → St → result St) (s : St) : result St :=
  match count with
  | O => Ok s
  | S c => s' ← body start s; for_range (S start) c body s'
  end.

(** ** Python sequences *)

(** [l[i]] with Python's negative indices; [IndexError] out of range. *)
Definition getitem {A} (l : list A) (i : Z) : result A :=
  let j := (if i <? 0 then i + Z.of_nat (length l) else i)%Z in
  if (j <? 0)%Z then Raise IndexError
  else match l !! Z.to_nat j with
       | Some x => Ok x
       | None => Raise IndexError
       end.

(** [l[a:b]] for [0 <= a], [0 <= b]: slices clip, they never raise. *)
Definition slice {A} (l : list A) (a b : nat) : list A :=
  take (b - a) (drop a l).

(** [l[0:k] = vals] on a Python list: the first [k] cells (as many as there
    are) are replaced by all of [vals]; the list grows when [vals] is longer. *)
Definition set_slice0 {A} (l : list A) (k : nat) (vals : list A) : list A :=
  vals ++ drop k l.

(** [sum(l)] for a list of lengths. *)
Definition sum_list (l : list nat) : nat := foldr Nat.add 0 l.

(** ** Python strings *)

(** The end-of-line character. *)
Definition nl : string := String "010"%char EmptyString.

Fixpoint string_forall (p : ascii → bool) (s : string) : bool :=
  match s with
  | EmptyString => true
  | String c s' => p c && string_forall p s'
  end.

Definition is_space (c : ascii) : bool := Ascii.eqb c " ".

(** White space for [str.strip]: space, tab, line feed, vertical tab, form
    feed, carriage return. *)
Definition is_whitespace (c : ascii) : bool :=
  Ascii.eqb c " " || Ascii.eqb c "009" || Ascii.eqb c "010"
  || Ascii.eqb c "011" || Ascii.eqb c "012" || Ascii.eqb c "013".

(** [s.split(" ")]: the fields between single spaces; never empty. *)
Fixpoint split_space (s : string) : list string :=
  match s with
  | EmptyString => [EmptyString]
  | String c s' =>
      if is_space c then EmptyString :: split_space s'
      else match split_space s' with
           | w :: ws => String c w :: ws
           | [] => [String c EmptyString]
           end
  end.

Fixpoint lstrip (s : string) : string :=
  match s with
  | EmptyString => EmptyString
  | String c s' => if is_whitespace c then lstrip s' else s
  end.

Fixpoint rstrip (s : string) : string :=
  match s with
  | EmptyString => EmptyString
  | String c s' =>
      match rstrip s' with
      | EmptyString => if is_whitespace c then EmptyString else String c EmptyString
      | r => String c r
      end
  end.

(** [s.strip()]. *)
Definition strip (s : string) : string := lstrip (rstrip s).

(** [str(z)] for an int. *)
Definition str_int (z : Z) : string := NilZero.string_of_int (Z.to_int z).

(** [int(s)] for a string: an optional minus sign and decimal digits,
    surrounded by white space ([int] also accepts a plus sign and
    underscores, which [str] never writes). *)
Definition int_of_string (s : string) : option Z :=
  option_map Z.of_int (NilZero.int_of_string (strip s)).

(** The characters [str] writes for an int. *)
Definition is_int_char (c : ascii) : bool :=
  (Ascii.eqb c "-" || (48 <=? nat_of_ascii c)%nat && (nat_of_ascii c <=? 57)%nat).

(** [str(b)] for a bool. *)
Definition str_bool (b : bool) : string := if b then "True" else "False".

(** ** Floats *)

Class FloatOps : Type := {
  num : Type;
  fadd : num → num → num;
  fsub : num → num → num;
  fmul : num → num → num;
  fdiv : num → num → num;
  fneg : num → num;
  flt : num → num → bool;             (* a < b *)
  fle : num → num → bool;             (* a <= b *)
  of_int : Z → num;                   (* an int used as a float *)
  lit : Z → nat → num;                (* the literal m e-k, e.g. 1.852 = lit 1852 3 *)
  (** length of [np.arange(start, stop, step)]: ceil((stop - start) / step),
      clipped at 0; [None] when numpy cannot compute it (zero step, nan). *)
  arange_length : num → num → num → option nat;
}.

Declare Scope float_scope.
Delimit Scope float_scope with F.
Bind Scope float_scope with num.
Notation "a + b" := (fadd a b) : float_scope.
Notation "a - b" := (fsub a b) : float_scope.
Notation "a * b" := (fmul a b) : float_scope.
Notation "a / b" := (fdiv a b) : float_scope.
Notation "- a" := (fneg a) : float_scope.
Notation "a <? b" := (flt a b) : float_scope.
Notation "a <=? b" := (fle a b) : float_scope.
Notation "0" := (of_int 0%Z) : float_scope.
Notation "1" := (of_int 1%Z) : float_scope.

(** [str(x)] and [float(s)] on floats.  Python prints the shortest decimal
    that reads back as the same float; [float] ignores surrounding white
    space, here the end of line. *)
Class FloatRepr (F : FloatOps) : Type := {
  str_float : num → string;
  float_of_string : string → option num;
  float_of_str : ∀ x : num, float_of_string (str_float x +:+ nl) = Some x;
  str_float_no_space : ∀ x : num,
    string_forall (λ c, negb (is_space c)) (str_float x) = true;
  (** a float is printed with a point, an exponent, or as inf or nan: never
      as an int literal *)
  str_float_not_int : ∀ x : num, int_of_string (str_float x +:+ nl) = None;
  (** one row of a table as [np.savetxt] formats it *)
  savetxt_line : list num → string;
}.

(** ** numpy *)

Section Numpy.
Context {F : FloatOps}.
Local Open Scope float_scope.

(** [np.linspace(start, stop, n)]: [n] evenly spaced samples, the last one
    being [stop]; [ValueError] for a negative [n]. *)
Definition np_linspace (start stop : num) (n : Z) : result (list num) :=
  if (n <? 0)%Z then Raise ValueError
  else match Z.to_nat n with
       | O => Ok []
       | S O => Ok [start]
       | S k =>
           let step := (stop - start) / of_int (n - 1) in
           Ok (map (λ i : nat, of_int (Z.of_nat i) * step + start) (seq 0 k) ++ [stop])
       end.

(** [np.arange(start, stop, step)]: [start + i * step] while short of [stop]. *)
Definition np_arange (start stop step : num) : result (list num) :=
  match arange_length start stop step with
  | None => Raise ValueError
  | Some len => Ok (map (λ i : nat, start + of_int (Z.of_nat i) * step) (seq 0 len))
  end.

(** [np.where(cond)[0]]: the indices where [cond] holds, in order. *)
Fixpoint np_where_from {A} (cond : A → bool) (l : list A) (i : nat) : list nat :=
  match l with
  | [] => []
  | a :: l' => if cond a then i :: np_where_from cond l' (S i)
               else np_where_from cond l' (S i)
  end.
Definition np_where {A} (cond : A → bool) (l : list A) : list nat :=
  np_where_from cond l 0.

(** [np.ones(k) * v]. *)
Definition np_ones_times (k : nat) (v : num) : list num :=
  map (λ one, one * v) (replicate k 1).

(** Python's [min] and [max] of a non-empty sequence ([ValueError] on an
    empty one): the first element, replaced on a strict improvement. *)
Definition py_min (l : list num) : result num :=
  match l with
  | [] => Raise ValueError
  | a :: l' => Ok (foldl (λ cur x, if x <? cur then x else cur) a l')
  end.
Definition py_max (l : list num) : result num :=
  match l with
  | [] => Raise ValueError
  | a :: l' => Ok (foldl (λ cur x, if cur <? x then x else cur) a l')
  end.
End Numpy.

(** ** The envelope: [breguet_leduc_formula] and [breguet_leduc_points] *)

Section Envelope.
Context {F : FloatOps}.
Local Open Scope float_scope.

(** The scalars [breguet_leduc_points] reads from the aircraft file
    (altitude already converted to metres by [convert_units]). *)
Record aircraft : Type := Aircraft {
  glide_ratio : num;      (* data:aerodynamics:aircraft:cruise:L_D_max *)
  altitude : num;         (* data:mission:sizing:main_route:cruise:altitude *)
  cruise_mach : num;      (* data:TLAR:cruise_mach *)
  sizing_range : num;     (* data:TLAR:range *)
  max_payload : num;      (* data:weight:aircraft:max_payload *)
  sizing_payload : num;   (* data:weight:aircraft:payload *)
  mtow : num;             (* data:weight:aircraft:MTOW *)
  owe : num;              (* data:weight:aircraft:OWE *)
  mfw : num;              (* data:weight:aircraft:MFW *)
  fuel_burned : num;      (* data:mission:<sizing_name>:main_route:fuel *)
}.

Record flight_point : Type := FlightPoint {
  fp_altitude : num;
  fp_mach : num;
  fp_thrust : num;
  fp_thrust_rate : num;
}.

(** What the module asks of numpy, scipy, stdatm and the propulsion
    wrapper. *)
Record collaborators : Type := Collaborators {
  np_exp : num → num;
  np_log : num → num;
  fsolve : (num → num) → num → num;    (* scipy.optimize.fsolve(func, x0)[0] *)
  true_airspeed : num → num → num;     (* Atmosphere(altitude).true_airspeed at a Mach *)
  propulsion_sfc : flight_point → num; (* sfc column of compute_flight_points *)
}.

Context (E : collaborators).

(** The residual whose root is the range. *)
Definition non_linear_function (mass_in mass_out constant_coeff : num) (ra : num) : num :=
  let ratio := mass_in / mass_out in
  let k_ra := 1 - lit 895 3 * np_exp E (- ra / of_int 814) in
  ra - k_ra * constant_coeff * np_log E ratio.

Definition breguet_leduc_formula (mass_in mass_out constant_coeff x0 : num) : num :=
  fsolve E (non_linear_function mass_in mass_out constant_coeff) x0.

Definition breguet_leduc_coeff (ac : aircraft) : num :=
  let g := lit 981 2 in
  let speed := true_airspeed E (altitude ac) (cruise_mach ac) in
  let thrust_begin := lit 98 2 * mtow ac * g / glide_ratio ac in
  let fp_begin := FlightPoint (altitude ac) (cruise_mach ac) thrust_begin (lit 7 1) in
  let weight_end := mtow ac - fuel_burned ac in
  let thrust_end := weight_end * g / glide_ratio ac in
  let fp_end := FlightPoint (altitude ac) (cruise_mach ac) thrust_end (lit 7 1) in
  let sfc := (propulsion_sfc E fp_begin + propulsion_sfc E fp_end) / of_int 2 in
  glide_ratio ac * speed * lit 36 1 / lit 1852 3 / (g * sfc) * of_int 10
    / of_int (3600 * 10).

(** The interpolated range of point B, before the sign test. *)
Definition ra_b_interpolated (ac : aircraft) (ra_c payload_c : num) : num :=
  (sizing_range ac - ra_c) * (max_payload ac - payload_c)
    / (sizing_payload ac - payload_c) + ra_c.

Definition breguet_leduc_points (ac : aircraft) : list num * list num :=
  let coeff := breguet_leduc_coeff ac in
  (* point C: MTOW, MFW *)
  let mass_in := mtow ac in
  let mass_out := mtow ac - mfw ac in
  let payload_c := mtow ac - mfw ac - owe ac in
  let ra_c := breguet_leduc_formula mass_in mass_out coeff (sizing_range ac * of_int 10) in
  (* design point and point B: max_payload, MTOW *)
  let payload_b := max_payload ac in
  let ra_b := ra_b_interpolated ac ra_c payload_c in
  let ra_b :=
    if ra_b <? 0
    then breguet_leduc_formula (mtow ac) (owe ac + payload_b) coeff
           (sizing_range ac * of_int 10)
    else ra_b in
  (* point D: 0 payload, MFW *)
  let ra_d := breguet_leduc_formula (owe ac + mfw ac) (owe ac) coeff
                (sizing_range ac * of_int 10) in
  let BL_ranges := [0; ra_b; ra_c; ra_d; sizing_range ac] in
  let BL_payloads :=
    map (λ m, m / of_int (10 ^ 3))
        [max_payload ac; payload_b; payload_c; 0; sizing_payload ac] in
  (BL_ranges, BL_payloads).
End Envelope.

(** ** The grid: [grid_generation] *)

Section Grid.
Context {F : FloatOps}.
Local Open Scope float_scope.

(** A Python number as [range_step] receives it: an int (the default, 500)
    or a float.  [grid_generation] and [payload_range_loop_computation] take
    either; [payload_range_full] passes the int it has read. *)
Inductive number : Type :=
  | PyInt (z : Z)
  | PyFloat (x : num).

(** The value numpy computes with. *)
Definition number_value (v : number) : num :=
  match v with
  | PyInt z => of_int z
  | PyFloat x => x
  end.

(** [-v]. *)
Definition number_neg (v : number) : number :=
  match v with
  | PyInt z => PyInt (- z)
  | PyFloat x => PyFloat (- x)
  end.

(** The grid parameters of [grid_generation].  The number of bands is an int
    ([np.linspace] and [np.zeros] refuse anything else), the step any number,
    the four tolerances floats and the policy a bool, as their defaults are
    (8, 500, 0.95, 0.4, 0.95, 0.1, False). *)
Record GridSpec : Type := MkGridSpec {
  n_intervals_payloads : Z;
  range_step : number;
  upper_limit_box_tolerance : num;
  lower_limit_box_tolerance : num;
  right_limit_box_tolerance : num;
  left_limit_box_tolerance : num;
  alternative_grid : bool;
}.

(** [grid]: the array [[range, payload, total_fuel or consumption]]. *)
Record grid : Type := Grid {
  g_ranges : list num;       (* grid[0] *)
  g_payloads : list num;     (* grid[1] *)
  g_consumption : list num;  (* grid[2] *)
}.

(** The traces of a plotly figure. *)
Inductive trace : Type :=
  | Scatter (x y : list num) (mode : string)
  | Contour (x y : list num) (z : list (list (option num))).
Definition figure : Type := list trace.

(** The rectangular grid, from the per-band maximum ranges.  The list
    [grid_x] starts as [n] references to one base row; every later row is a
    fresh list ([np.append(...).tolist()]) stored at its index, so the
    sharing is never observed.  Returns
    [(grid_ranges, grid_payloads, n_values_ranges)]. *)
Definition rectangular_grid (n : nat) (val_payloads max_range : list num)
    (min_range : num) (range_step : number)
    : result (list num * list num * list nat) :=
  (* 1) Base rectangle *)
  let n_values_ranges := replicate n 0%nat in
  m ← getitem max_range (-1);
  base ← np_arange m min_range (number_value (number_neg range_step));
  let grid_x := replicate n (reverse base) in
  (* 2) Zone near MTOW and MFW *)
  grid_x ← for_range 1 (n - 1) (λ i grid_x,
    prev ← getitem grid_x (Z.of_nat i - 1);
    m ← getitem max_range (-1 - Z.of_nat i);
    let add := prev ++ [m] in
    Ok (<[i := add]> grid_x)) grid_x;
  let grid_x := reverse grid_x in
  '(grid_ranges, grid_payloads, n_values_ranges) ←
    for_range 0 n (λ i '(grid_ranges, grid_payloads, n_values_ranges),
      row ← getitem grid_x (Z.of_nat i);
      v ← getitem val_payloads (Z.of_nat i);
      Ok (grid_ranges ++ row,
          grid_payloads ++ np_ones_times (length row) v,
          <[i := length row]> n_values_ranges))
      ([], [], n_values_ranges);
  Ok (grid_ranges, grid_payloads, n_values_ranges).

(** The [while len(range_add) != 0 and i < n_intervals_payloads] loop of
    the alternative grid.  [remaining] is [n_intervals_payloads - i]. *)
Fixpoint alternative_loop (remaining i : nat) (range_add : list num)
    (val_payloads max_range : list num) (min_range ra_b : num)
    (range_step : number) (delta_x : num)
    (acc : list num * list num * list nat)
    : result (list num * list num * list nat) :=
  match remaining with
  | O => Ok acc
  | S remaining' =>
      if (length range_add =? 0)%nat then Ok acc
      else
        range_add ← np_arange min_range ra_b (number_value range_step);
        if (length range_add =? 0)%nat then Ok acc (* break *)
        else
          last ← getitem range_add (-1);
          m ← getitem max_range (Z.of_nat i);
          tail ← np_arange last (m + 1) delta_x;
          let range_add := range_add ++ tail in
          v ← getitem val_payloads (Z.of_nat i);
          let '(grid_ranges, grid_payloads, n_values_ranges) := acc in
          alternative_loop remaining' (S i) range_add val_payloads max_range
            min_range ra_b range_step delta_x
            (grid_ranges ++ range_add,
             grid_payloads ++ np_ones_times (length range_add) v,
             n_values_ranges ++ [length range_add])
  end.

Definition alternative_grid_points (n : nat) (val_payloads max_range : list num)
    (min_range ra_b ra_c payload_b payload_c : num) (range_step : number)
    : result (list num * list num * list nat) :=
  let pente := (payload_c - payload_b) / (ra_c - ra_b) in
  v1 ← getitem val_payloads 1;
  v0 ← getitem val_payloads 0;
  let delta_y := v1 - v0 in
  let delta_x := - delta_y / pente in
  alternative_loop n 0 [0] val_payloads max_range min_range ra_b range_step
    delta_x ([], [], []).

(** Steps 1 and 2, lines 313-329: the payloads of the bands and the
    maximum range of each band, with its safety margin. *)
Definition grid_payload_bands (spec : GridSpec)
    (max_payload payload_c ra_b ra_c ra_d : num) : result (list num * list num) :=
  val_payloads ← np_linspace (lower_limit_box_tolerance spec * max_payload)
                    (upper_limit_box_tolerance spec * max_payload)
                    (n_intervals_payloads spec);
  (* Find for which range the breakpoint c is *)
  ra_c_id ← getitem (np_where (λ v, payload_c <=? v) val_payloads) 0;
  let max_range :=
    map (λ v, (ra_c - ra_d) / payload_c * v + ra_d) (slice val_payloads 0 ra_c_id)
    ++ map (λ v, (ra_b - ra_c) / (max_payload - payload_c) * (v - payload_c) + ra_c)
         (drop ra_c_id val_payloads) in
  let max_range := map (λ m, right_limit_box_tolerance spec * m) max_range in
  Ok (val_payloads, max_range).

(** Lines 331-333: the left limit of the grid box, at least one step. *)
Definition grid_min_range (spec : GridSpec) (ra_b : num) : num :=
  let min_range := left_limit_box_tolerance spec * ra_b in
  if min_range <? number_value (range_step spec) then number_value (range_step spec)
  else min_range.

Definition number_of_points_line (k : nat) : string :=
  "number of calculation points :  " +:+ NilZero.string_of_uint (Nat.to_uint k).

(** [grid_generation] from the Breguet-Leduc points on.  Returns the
    figure, the grid, [n_values_ranges] and the line printed.  The
    rendering options (name, axes, colour) are left out. *)
Definition grid_of_envelope (BL_ranges BL_payloads : list num) (fig : figure)
    (spec : GridSpec) (show_grid : bool)
    : result (figure * grid * list nat * list string) :=
  max_payload ← getitem BL_payloads 0;
  payload_c ← getitem BL_payloads 2;
  let payload_b := max_payload in
  ra_b ← getitem BL_ranges 1;
  ra_c ← getitem BL_ranges 2;
  ra_d ← getitem BL_ranges 3;
  '(val_payloads, max_range) ←
    grid_payload_bands spec max_payload payload_c ra_b ra_c ra_d;
  let min_range := grid_min_range spec ra_b in
  let n := Z.to_nat (n_intervals_payloads spec) in
  (* step 2: grid generation through grid_ranges and grid_payloads *)
  '(grid_ranges, grid_payloads, n_values_ranges) ←
    (if alternative_grid spec
     then alternative_grid_points n val_payloads max_range min_range ra_b ra_c
            payload_b payload_c (range_step spec)
     else rectangular_grid n val_payloads max_range min_range (range_step spec));
  let grid := Grid grid_ranges grid_payloads (replicate (length grid_ranges) 0) in
  let out := [number_of_points_line (length (g_ranges grid))] in
  let fig := fig ++ [Scatter (removelast BL_ranges) (removelast BL_payloads) "lines"] in
  let fig := if show_grid
             then fig ++ [Scatter (g_ranges grid) (g_payloads grid) "markers"]
             else fig in
  Ok (fig, grid, n_values_ranges, out).

Definition grid_generation (E : collaborators) (ac : aircraft) (fig : figure)
    (spec : GridSpec) (show_grid : bool)
    : result (figure * grid * list nat * list string) :=
  let '(BL_ranges, BL_payloads) := breguet_leduc_points E ac in
  grid_of_envelope BL_ranges BL_payloads fig spec show_grid.

(** [payload_range_simple], lines 216-246: the envelope without the design
    point, added to the figure passed in (an empty one when [fig] is
    [None]). *)
Definition payload_range_simple (E : collaborators) (ac : aircraft) (fig : figure)
    : figure :=
  let '(BL_ranges, BL_payloads) := breguet_leduc_points E ac in
  fig ++ [Scatter (removelast BL_ranges) (removelast BL_payloads) "lines+markers"].

(** [payload_range_grid_plot], lines 471-489: the figure of
    [grid_generation]; the second component is what was printed. *)
Definition payload_range_grid_plot (E : collaborators) (ac : aircraft) (fig : figure)
    (spec : GridSpec) (show_grid : bool) : result (figure * list string) :=
  '(fig, grid, n_values_ranges, out) ← grid_generation E ac fig spec show_grid;
  Ok (fig, out).
End Grid.

(** ** Files *)

Section Files.
Context {F : FloatOps} {R : FloatRepr F}.

(** A file holds a numeric table (what [np.savetxt] writes and
    [np.loadtxt] reads) or any other text, as its lines with their line
    ends. *)
Inductive file : Type :=
  | TextFile (lines : list string)
  | TableFile (rows : list (list num)).

(** [os.path.join(folder, name)]. *)
Definition pth_join (folder name : string) : string := folder +:+ "/" +:+ name.

(** [open(path, "r").readlines()]. *)
Definition open_readlines (fs : gmap string file) (path : string)
    : result (list string) :=
  match fs !! path with
  | None => Raise (FileNotFoundError path)
  | Some (TextFile lines) => Ok lines
  | Some (TableFile rows) => Ok (map savetxt_line rows)
  end.

(** A numpy array of one or two dimensions. *)
Inductive ndarray : Type :=
  | Array1 (v : list num)
  | Array2 (rows : list (list num)).

(** [np.savetxt(path, rows)], in a folder that exists and can be written. *)
Definition np_savetxt (fs : gmap string file) (path : string)
    (rows : list (list num)) : gmap string file :=
  <[path := TableFile rows]> fs.

(** [np.loadtxt(path)]: the table, squeezed to one dimension when it has
    at most one row; [ValueError] on a file that is not a table. *)
Definition np_loadtxt (fs : gmap string file) (path : string) : result ndarray :=
  match fs !! path with
  | None => Raise (FileNotFoundError path)
  | Some (TextFile _) => Raise ValueError
  | Some (TableFile rows) =>
      Ok (match rows with
          | [] => Array1 []
          | [row] => Array1 row
          | _ => Array2 rows
          end)
  end.

Definition column (k : nat) (rows : list (list num)) : list num :=
  omap (λ row : list num, row !! k) rows.

(** [a.T] for a table of three columns; a one-dimensional array is its own
    transpose. *)
Definition ndarray_T (a : ndarray) : ndarray :=
  match a with
  | Array1 v => Array1 v
  | Array2 rows => Array2 [column 0 rows; column 1 rows; column 2 rows]
  end.

(** [a[i, lo:hi]] and [a[i]] as a row: [IndexError] on a one-dimensional
    array indexed by two. *)
Definition ndarray_row (a : ndarray) (i : Z) : result (list num) :=
  match a with
  | Array1 _ => Raise IndexError
  | Array2 rows => getitem rows i
  end.
End Files.

(** ** The sweep: [payload_range_loop_computation] *)

Section Sweep.
Context {F : FloatOps} {R : FloatRepr F}.
Local Open Scope float_scope.

(** The four fuel masses read from [mission_outputs.xml]. *)
Record mission_fuel : Type := MissionFuel {
  main_route_fuel : num;
  take_off_fuel : num;
  taxi_in_fuel : num;
  taxi_out_fuel : num;
}.

(** The fuel the sweep stores for one answer of the mission, line 669. *)
Definition total_fuel (fuel : mission_fuel) : num :=
  main_route_fuel fuel + take_off_fuel fuel + taxi_in_fuel fuel + taxi_out_fuel fuel.

(** The mission collaborator, with the scratch files it keeps in the work
    directory. *)
Record simulator : Type := Simulator {
  (** [oad.generate_inputs] and the copy of the auxiliary mission
      parameters (thrust rates, diversion, holding, take-off, taxi) *)
  prepare_mission : result unit;
  (** [op_mission:payload] and [op_mission:main_route:range] saved,
      [oad.evaluate_problem] run, the four fuels read back *)
  evaluate_mission : num → num → result mission_fuel;
  (** [os.remove] of mission_inputs.xml, mission_outputs.xml and
      mission_study.csv *)
  remove_scratch : result unit;
}.

(** The body of the loop over the grid points, lines 647-669 (the timing
    prints are left out). *)
Definition sweep_step (sim : simulator) (i : nat) (g : grid) : result grid :=
  payload ← getitem (g_payloads g) (Z.of_nat i);
  range ← getitem (g_ranges g) (Z.of_nat i);
  fuel ← evaluate_mission sim payload (range * of_int (10 ^ 3) * lit 1852 3);
  let total := main_route_fuel fuel + take_off_fuel fuel + taxi_in_fuel fuel
               + taxi_out_fuel fuel in
  Ok (Grid (g_ranges g) (g_payloads g) (<[i := total]> (g_consumption g))).

(** [grid[2] = grid[2] / (grid[1] * grid[0] * 1.852 * 10 ** 3)]. *)
Definition specific_consumption (g : grid) : grid :=
  let denominator :=
    map (λ x, x * lit 1852 3 * of_int (10 ^ 3))
        (zip_with fmul (g_payloads g) (g_ranges g)) in
  Grid (g_ranges g) (g_payloads g) (zip_with fdiv (g_consumption g) denominator).

(** [grid.T]: one row [[range, payload, consumption]] per grid point. *)
Definition grid_T (g : grid) : list (list num) :=
  zip_with (λ r pc, [r; pc.1; pc.2]) (g_ranges g)
    (zip (g_payloads g) (g_consumption g)).

(** [str(v)] for a number. *)
Definition str_number (v : number) : string :=
  match v with
  | PyInt z => str_int z
  | PyFloat x => str_float x
  end.

Definition grid_file_lines (file_save : string) (spec : GridSpec) : list string :=
  [ "This is the file which contains the grid parameters for the results in file : "
      +:+ file_save +:+ nl;
    "n_intervals_payloads= " +:+ str_int (n_intervals_payloads spec) +:+ nl;
    "range_step= " +:+ str_number (range_step spec) +:+ nl;
    "upper_limit_box_tolerance= " +:+ str_float (upper_limit_box_tolerance spec) +:+ nl;
    "lower_limit_box_tolerance= " +:+ str_float (lower_limit_box_tolerance spec) +:+ nl;
    "right_limit_box_tolerance= " +:+ str_float (right_limit_box_tolerance spec) +:+ nl;
    "left_limit_box_tolerance= " +:+ str_float (left_limit_box_tolerance spec) +:+ nl;
    "alternative_grid= " +:+ str_bool (alternative_grid spec) +:+ nl ].

(** The grid with its specific consumptions, lines 533-683. *)
Definition sweep_grid (E : collaborators) (sim : simulator) (ac : aircraft)
    (spec : GridSpec) : result grid :=
  '(fig, grid, dummy_variable, out) ← grid_generation E ac [] spec true;
  _ ← prepare_mission sim;
  grid ← for_range 0 (length (g_ranges grid)) (sweep_step sim) grid;
  Ok (specific_consumption grid).

(** Returns nothing; its result is the file system it leaves and whether
    it raised.  The table is saved before the scratch files are removed
    (the three [os.remove] in the work directory, [remove_scratch]) and the
    grid parameters are saved last. *)
Definition payload_range_loop_computation (E : collaborators) (sim : simulator)
    (ac : aircraft) (spec : GridSpec) (file_save_folder file_save : string)
    (fs : gmap string file) : gmap string file * result unit :=
  match sweep_grid E sim ac spec with
  | Raise e => (fs, Raise e)
  | Ok grid =>
      let fs := np_savetxt fs (pth_join file_save_folder file_save) (grid_T grid) in
      match remove_scratch sim with
      | Raise e => (fs, Raise e)
      | Ok _ =>
          let string_file := "grid_" +:+ file_save in
          (<[pth_join file_save_folder string_file :=
               TextFile (grid_file_lines file_save spec)]> fs, Ok ())
      end
  end.
End Sweep.

(** ** The reconstruction: [payload_range_full] *)

Section Reconstruction.
Context {F : FloatOps} {R : FloatRepr F}.
Local Open Scope float_scope.

(** [lines[k].split(" ")[-1]]. *)
Definition last_field (lines : list string) (k : Z) : result string :=
  line ← getitem lines k;
  getitem (split_space line) (-1).

Definition py_int (s : string) : result Z :=
  match int_of_string s with
  | Some z => Ok z
  | None => Raise ValueError
  end.

Definition py_float (s : string) : result num :=
  match float_of_string s with
  | Some x => Ok x
  | None => Raise ValueError
  end.

(** Lines 750-761: the grid parameters read back. *)
Definition read_grid_file (fs : gmap string file) (file_save_folder file_save : string)
    : result GridSpec :=
  let string_file_path := "grid_" +:+ file_save in
  lines ← open_readlines fs (pth_join file_save_folder string_file_path);
  let lines := drop 1 lines in
  n_intervals_payloads ← last_field lines 0 ≫= py_int;
  range_step ← last_field lines 1 ≫= py_int;
  upper_limit_box_tolerance ← last_field lines 2 ≫= py_float;
  lower_limit_box_tolerance ← last_field lines 3 ≫= py_float;
  right_limit_box_tolerance ← last_field lines 4 ≫= py_float;
  left_limit_box_tolerance ← last_field lines 5 ≫= py_float;
  tok ← last_field lines 6;
  let alternative_grid := String.eqb tok ("True" +:+ nl) in
  Ok (MkGridSpec n_intervals_payloads (PyInt range_step) upper_limit_box_tolerance
        lower_limit_box_tolerance right_limit_box_tolerance
        left_limit_box_tolerance alternative_grid).

(** Row [i] of [z] once filled: the values of band [i], then unset cells up
    to the width of band 0, if band [i] is shorter. *)
Definition filled_row (c0 ci : nat) (row : list (option num)) : Prop :=
  ∃ vals : list num,
    length vals = ci ∧ row = map Some vals ++ replicate (c0 - ci) None.

(** The body of the loop filling [z], lines 800-803. *)
Definition fill_row (results : ndarray) (n_values_ranges : list nat) (i : nat)
    (z : list (list (option num))) : result (list (list (option num))) :=
  ci ← getitem n_values_ranges (Z.of_nat i);
  let start := sum_list (slice n_values_ranges 0 i) in
  row2 ← ndarray_row results 2;
  let vals := slice row2 start (start + ci) in
  zi ← getitem z (Z.of_nat i);
  Ok (<[i := set_slice0 zi ci (map Some vals)]> z).

(** The body of the [try], lines 791-820: the contour [(x, y, z)]. *)
Definition load_surface (fs : gmap string file) (file_save_folder file_save : string)
    (n_intervals_payloads : Z) (n_values_ranges : list nat) : result trace :=
  results ← np_loadtxt fs (pth_join file_save_folder file_save);
  let results := ndarray_T results in
  c0 ← getitem n_values_ranges 0;
  row0 ← ndarray_row results 0;
  let x := slice row0 0 c0 in
  row1 ← ndarray_row results 1;
  lo ← py_min row1;
  hi ← py_max row1;
  y ← np_linspace lo hi n_intervals_payloads;
  let n := Z.to_nat n_intervals_payloads in
  let z := replicate n (replicate c0 None) in
  z ← for_range 0 n (fill_row results n_values_ranges) z;
  Ok (Contour x y z).

Definition no_results_message : string :=
  "No results were found in the data folder, you first need to run the function payload_range_loop_computation(...) ".

(** Returns the figure; the second component is what was printed. *)
Definition payload_range_full (E : collaborators) (ac : aircraft) (fig : figure)
    (file_save_folder file_save : string) (show_grid : bool)
    (fs : gmap string file) : result (figure * list string) :=
  spec ← read_grid_file fs file_save_folder file_save;
  (* Generate grid figure + look up for n_values_ranges *)
  '(fig, grid, n_values_ranges, out) ← grid_generation E ac fig spec show_grid;
  let n_intervals_payloads :=
    if alternative_grid spec then Z.of_nat (length n_values_ranges)
    else n_intervals_payloads spec in
  (* load the results from payload_range_loop_computation(...) *)
  try_except_OSError
    (contour ← load_surface fs file_save_folder file_save n_intervals_payloads
                 n_values_ranges;
     Ok (fig ++ [contour], out))
    (Ok (fig, out ++ [no_results_message])).
End Reconstruction.

(** ** The exact interpretation of floats *)

(** Floats as exact rationals: no rounding, no overflow, and the length of
    [np.arange] is the exact one.  A zero step makes [np.arange] raise, as a
    zero float step does.  [Qdiv] gives 0 for a division by zero, where numpy
    gives inf or nan: a result that a zero divisor would change states that
    the divisor is not zero. *)
#[global] Instance Qfloat : FloatOps := {|
  num := Q;
  fadd := Qplus;
  fsub := Qminus;
  fmul := Qmult;
  fdiv := Qdiv;
  fneg := Qopp;
  flt := λ a b, negb (Qle_bool b a);
  fle := Qle_bool;
  of_int := inject_Z;
  lit := λ m k, (inject_Z m / inject_Z (10 ^ Z.of_nat k))%Q;
  arange_length := λ start stop step,
    if Qeq_bool step 0 then None
    else Some (Z.to_nat (Qceiling ((stop - start) / step)%Q));
|}.


(** A rational is printed as its numerator and denominator. *)
Definition Q_to_string (q : Q) : string :=
  str_int (Qnum q) +:+ "/" +:+ str_int (Zpos (Qden q)).

Fixpoint split_slash (s : string) : option (string * string) :=
  match s with
  | EmptyString => None
  | String c s' =>
      if Ascii.eqb c "/" then Some (EmptyString, s')
      else match split_slash s' with
           | Some (a, b) => Some (String c a, b)
           | None => None
           end
  end.

Definition Q_of_string (s : string) : option Q :=
  match split_slash (strip s) with
  | Some (a, b) =>
      match NilZero.int_of_string a, NilZero.int_of_string b with
      | Some n, Some d =>
          match Z.of_int d with
          | Zpos p => Some (Z.of_int n # p)
          | _ => None
          end
      | _, _ => None
      end
  | None => None
  end.

Fixpoint join_space (l : list string) : string :=
  match l with
  | [] => EmptyString
  | [a] => a
  | a :: l' => a +:+ " " +:+ join_space l'
  end.

Definition Q_savetxt_line (row : list Q) : string :=
  join_space (map Q_to_string row) +:+ nl.

(** ** Floats with infinities and nan

    The exact rationals completed by the special values of IEEE 754, to
    follow an overflow: an operation on finite values is exact, the
    operations on infinities and nan are numpy's.  Zeros carry no sign: a
    non-zero value divided by zero is the infinity of its sign. *)

Inductive xfloat : Type :=
  | Finite (q : Q)
  | Infinity (negative : bool)
  | NaN.

Definition Qnegative (q : Q) : bool := negb (Qle_bool 0 q).

Definition xneg (a : xfloat) : xfloat :=
  match a with
  | Finite q => Finite (- q)
  | Infinity s => Infinity (negb s)
  | NaN => NaN
  end.

Definition xadd (a b : xfloat) : xfloat :=
  match a, b with
  | NaN, _ | _, NaN => NaN
  | Finite p, Finite q => Finite (p + q)
  | Infinity s, Finite _ | Finite _, Infinity s => Infinity s
  | Infinity s, Infinity t => if Bool.eqb s t then Infinity s else NaN
  end.

Definition xsub (a b : xfloat) : xfloat := xadd a (xneg b).

Definition xmul (a b : xfloat) : xfloat :=
  match a, b with
  | NaN, _ | _, NaN => NaN
  | Finite p, Finite q => Finite (p * q)
  | Infinity s, Finite q | Finite q, Infinity s =>
      if Qeq_bool q 0 then NaN else Infinity (xorb s (Qnegative q))
  | Infinity s, Infinity t => Infinity (xorb s t)
  end.

Definition xdiv (a b : xfloat) : xfloat :=
  match a, b with
  | NaN, _ | _, NaN => NaN
  | Finite p, Finite q =>
      if Qeq_bool q 0
      then (if Qeq_bool p 0 then NaN else Infinity (Qnegative p))
      else Finite (p / q)
  | Finite _, Infinity _ => Finite 0
  | Infinity s, Finite q => Infinity (xorb s (Qnegative q))
  | Infinity _, Infinity _ => NaN
  end.

Definition xlt (a b : xfloat) : bool :=
  match a, b with
  | NaN, _ | _, NaN => false
  | Finite p, Finite q => negb (Qle_bool q p)
  | Finite _, Infinity s => negb s
  | Infinity s, Finite _ => s
  | Infinity s, Infinity t => s && negb t
  end.

Definition xle (a b : xfloat) : bool :=
  match a, b with
  | NaN, _ | _, NaN => false
  | Finite p, Finite q => Qle_bool p q
  | Finite _, Infinity s => negb s
  | Infinity s, Finite _ => s
  | Infinity s, Infinity t => s || negb t
  end.

(** [np.arange] raises on a bound or a step that is not finite. *)
Definition Xfloat : FloatOps := {|
  num := xfloat;
  fadd := xadd;
  fsub := xsub;
  fmul := xmul;
  fdiv := xdiv;
  fneg := xneg;
  flt := xlt;
  fle := xle;
  of_int := λ z, Finite (inject_Z z);
  lit := λ m k, Finite (inject_Z m / inject_Z (10 ^ Z.of_nat k));
  arange_length := λ start stop step,
    match start, stop, step with
    | Finite a, Finite b, Finite s =>
        if Qeq_bool s 0 then None
        else Some (Z.to_nat (Qceiling ((b - a) / s)%Q))
    | _, _, _ => None
    end;
|}.

(** ** A worked envelope

    Envelope: ranges A, B, C, D, design = 0, 3000, 4000, 5000, 2500 NM and
    payloads 20, 20, 10, 0, 18 t.  Three bands, a step of 500 NM and the
    default tolerances.  The bands are at 8, 13.5 and 19 t, their maximum
    ranges 3990, 3467.5 and 2945 NM, and [min_range] is 500 NM. *)

Definition example_ranges : list Q := [0; 3000; 4000; 5000; 2500]%Q.
Definition example_payloads : list Q := [20; 20; 10; 0; 18]%Q.
Definition example_spec : @GridSpec Qfloat :=
  MkGridSpec 3 (PyInt 500) (95 # 100) (40 # 100) (95 # 100) (10 # 100) false.

(** The same envelope with the payload of point C at, and above, the upper
    limit of the bands (0.95 * 20 t = 19 t). *)
Definition example_payloads_at_limit : list Q := [20; 20; 19; 0; 18]%Q.
Definition example_payloads_above_limit : list Q := [20; 20; 39 # 2; 0; 18]%Q.

Definition example_result : result (figure * grid * list nat * list string) :=
  Eval vm_compute in grid_of_envelope example_ranges example_payloads [] example_spec false.

Definition example_figure : @figure Qfloat :=
  match example_result with Ok (fig, _, _, _) => fig | Raise _ => [] end.
Definition example_grid : @grid Qfloat :=
  match example_result with Ok (_, g, _, _) => g | Raise _ => Grid [] [] [] end.
Definition example_counts : list nat :=
  match example_result with Ok (_, _, cnt, _) => cnt | Raise _ => [] end.
Definition example_out : list string :=
  match example_result with Ok (_, _, _, out) => out | Raise _ => [] end.

(** ** A worked sweep

    Stand-ins for the collaborators, with exact arithmetic: a constant
    exponential, a linear logarithm, a solver doing one step of slope one,
    a constant airspeed and consumption, and a mission burning fuel in
    proportion to the distance. *)

Definition example_collaborators : @collaborators Qfloat :=
  {| np_exp := λ _, 1%Q;
     np_log := λ q, (q - 1)%Q;
     fsolve := λ f x0, (x0 - f x0)%Q;
     true_airspeed := λ _ _, 230%Q;
     propulsion_sfc := λ _, (16 # 1000000)%Q |}.



Definition example_aircraft : @aircraft Qfloat :=
  {| glide_ratio := 17%Q; altitude := 11000%Q; cruise_mach := (78 # 100)%Q;
     sizing_range := 1500%Q; max_payload := 12000%Q; sizing_payload := 9000%Q;
     mtow := 70000%Q; owe := 38000%Q; mfw := 25000%Q; fuel_burned := 15000%Q |}.

Definition example_simulator : @simulator Qfloat :=
  {| prepare_mission := Ok ();
     evaluate_mission := λ payload range,
       Ok (MissionFuel (range / 400) 100 20 30)%Q;
     remove_scratch := Ok () |}.

Definition example_sweep_spec : @GridSpec Qfloat :=
  MkGridSpec 2 (PyInt 500) (95 # 100) (40 # 100) (95 # 100) (10 # 100) false.

Definition example_sweep_result : result (figure * grid * list nat * list string) :=
  Eval vm_compute in
    grid_generation example_collaborators example_aircraft [] example_sweep_spec true.

Definition example_sweep_figure : @figure Qfloat :=
  match example_sweep_result with Ok (fig, _, _, _) => fig | Raise _ => [] end.
Definition example_sweep_grid : @grid Qfloat :=
  match example_sweep_result with Ok (_, g, _, _) => g | Raise _ => Grid [] [] [] end.
Definition example_sweep_out : list string :=
  match example_sweep_result with Ok (_, _, _, out) => out | Raise _ => [] end.

(** The same parameters with the step given as a float, [range_step=500.0]. *)
Definition example_float_step_spec : @GridSpec Qfloat :=
  MkGridSpec 2 (PyFloat 500%Q) (95 # 100) (40 # 100) (95 # 100) (10 # 100) false.

(** A grid of a single point: two bands, and a step above the maximum range
    of the last band. *)
Definition example_one_point_spec : @GridSpec Qfloat :=
  MkGridSpec 2 (PyInt 3000) (95 # 100) (40 # 100) (95 # 100) (10 # 100) false.

Definition example_one_point_result : result (figure * grid * list nat * list string) :=
  Eval vm_compute in
    grid_generation example_collaborators example_aircraft [] example_one_point_spec true.

Definition example_one_point_figure : @figure Qfloat :=
  match example_one_point_result with Ok (fig, _, _, _) => fig | Raise _ => [] end.
Definition example_one_point_grid : @grid Qfloat :=
  match example_one_point_result with Ok (_, g, _, _) => g | Raise _ => Grid [] [] [] end.
Definition example_one_point_counts : list nat :=
  match example_one_point_result with Ok (_, _, cnt, _) => cnt | Raise _ => [] end.
Definition example_one_point_out : list string :=
  match example_one_point_result with Ok (_, _, _, out) => out | Raise _ => [] end.

(** An aircraft whose design payload is below the payload of point C: the
    interpolated range is negative and point B is solved for. *)
Definition example_aircraft_low_design_payload : @aircraft Qfloat :=
  {| glide_ratio := 17%Q; altitude := 11000%Q; cruise_mach := (78 # 100)%Q;
     sizing_range := 1500%Q; max_payload := 12000%Q; sizing_payload := 6000%Q;
     mtow := 70000%Q; owe := 38000%Q; mfw := 25000%Q; fuel_burned := 15000%Q |}.

(** ** Further grid parameters

    The worked envelope under the alternative policy: the samples below the
    range of point B are 500, 1000, ..., 2500 NM and the three bands hold 8, 7
    and 6 points.  With a step of 3000 NM, the range of point B, no sample is
    left.  Then parameters with no band and with a single band. *)

Definition example_alternative_spec : @GridSpec Qfloat :=
  MkGridSpec 3 (PyInt 500) (95 # 100) (40 # 100) (95 # 100) (10 # 100) true.

Definition example_alternative_result
    : result (figure * grid * list nat * list string) :=
  Eval vm_compute in
    grid_of_envelope example_ranges example_payloads [] example_alternative_spec false.

Definition example_alternative_figure : @figure Qfloat :=
  match example_alternative_result with Ok (fig, _, _, _) => fig | Raise _ => [] end.
Definition example_alternative_grid : @grid Qfloat :=
  match example_alternative_result with Ok (_, g, _, _) => g | Raise _ => Grid [] [] [] end.
Definition example_alternative_counts : list nat :=
  match example_alternative_result with Ok (_, _, cnt, _) => cnt | Raise _ => [] end.
Definition example_alternative_out : list string :=
  match example_alternative_result with Ok (_, _, _, out) => out | Raise _ => [] end.

Definition example_alternative_spec_no_room : @GridSpec Qfloat :=
  MkGridSpec 3 (PyInt 3000) (95 # 100) (40 # 100) (95 # 100) (10 # 100) true.

Definition example_no_band_spec : @GridSpec Qfloat :=
  MkGridSpec 0 (PyInt 500) (95 # 100) (40 # 100) (95 # 100) (10 # 100) false.

Definition example_one_band_spec : @GridSpec Qfloat :=
  MkGridSpec 1 (PyInt 500) (95 # 100) (40 # 100) (95 # 100) (10 # 100) true.

(** ** Missions that fail *)

(** A mission that does not converge beyond 4000 km. *)
Definition example_simulator_short_range : @simulator Qfloat :=
  {| prepare_mission := Ok ();
     evaluate_mission := λ payload range,
       if Qle_bool range 4000000 then Ok (MissionFuel (range / 400) 100 20 30)%Q
       else Raise (CollaboratorError "mission did not converge");
     remove_scratch := Ok () |}.

(** A work directory in which one scratch file is missing. *)
Definition example_simulator_no_scratch : @simulator Qfloat :=
  {| prepare_mission := Ok ();
     evaluate_mission := λ payload range,
       Ok (MissionFuel (range / 400) 100 20 30)%Q;
     remove_scratch := Raise (FileNotFoundError "workdir/mission_study.csv") |}.

(** * Properties *)

(** ** Results, loops and sequences *)

Lemma bind_Ok {A B} (m : result A) (f : A → result B) (b : B) :
  m ≫= f = Ok b ↔ ∃ a, m = Ok a ∧ f a = Ok b.
Proof.
  destruct m as [a|e]; simpl; split.
  - intros H. exists a. auto.
  - intros (a' & [= <-] & H). exact H.
  - intros H. discriminate H.
  - intros (a' & H & _). discriminate H.
Qed.

(** Splits a hypothesis [x ← m; k = Ok b] into [m = Ok x] and [k = Ok b]. *)
Ltac bind_inv H :=
  let x := fresh "x" in
  let Hx := fresh "H" x in
  apply bind_Ok in H; destruct H as (x & Hx & H).

Lemma getitem_nat {A} (l : list A) (i : nat) (x : A) :
  getitem l (Z.of_nat i) = Ok x ↔ l !! i = Some x.
Proof.
  unfold getitem.
  destruct (Z.ltb_spec (Z.of_nat i) 0) as [Hlt|_]; [lia|].
  destruct (Z.ltb_spec (Z.of_nat i) 0) as [Hlt|_]; [lia|].
  rewrite Nat2Z.id. destruct (l !! i); split; congruence.
Qed.

Lemma getitem_neg {A} (l : list A) (k : nat) (x : A) :
  getitem l (- 1 - Z.of_nat k) = Ok x ↔
  k < length l ∧ l !! (length l - 1 - k) = Some x.
Proof.
  unfold getitem.
  destruct (Z.ltb_spec (- 1 - Z.of_nat k) 0) as [_|Hge]; [|lia].
  destruct (Z.ltb_spec (- 1 - Z.of_nat k + Z.of_nat (length l)) 0) as [Hlt|Hge].
  - split; [discriminate|]. intros [Hk _]. lia.
  - replace (Z.to_nat (- 1 - Z.of_nat k + Z.of_nat (length l)))
      with (length l - 1 - k) by lia.
    destruct (l !! (length l - 1 - k)) eqn:Hl; split.
    + intros [= <-]. split; [lia | reflexivity].
    + intros [_ [= <-]]. reflexivity.
    + discriminate.
    + intros [_ H]. discriminate H.
Qed.

Lemma getitem_last {A} (l : list A) (x : A) :
  getitem l (-1) = Ok x ↔ last l = Some x.
Proof.
  change (-1)%Z with (- 1 - Z.of_nat 0)%Z. rewrite getitem_neg, last_lookup.
  replace (length l - 1 - 0) with (pred (length l)) by lia.
  split; [intros [_ H]; exact H|].
  intros H. split; [|exact H].
  apply lookup_lt_Some in H. lia.
Qed.

Lemma getitem_in_range {A} (l : list A) (i : nat) :
  i < length l → ∃ x, getitem l (Z.of_nat i) = Ok x.
Proof.
  intros Hi. destruct (lookup_lt_is_Some_2 l i Hi) as [x Hx].
  exists x. apply getitem_nat, Hx.
Qed.

(** A loop invariant carries through [for_range]. *)
Lemma for_range_invariant {St} (I : nat → St → Prop) (body : nat → St → result St) :
  ∀ count start s s',
    I start s →
    (∀ i t t', start ≤ i < start + count → I i t → body i t = Ok t' → I (S i) t') →
    for_range start count body s = Ok s' →
    I (start + count) s'.
Proof.
  induction count as [|c IH]; intros start s s' H0 Hstep Hrun; simpl in Hrun.
  - injection Hrun as <-. rewrite Nat.add_0_r. exact H0.
  - bind_inv Hrun.
    replace (start + S c) with (S start + c) by lia.
    apply (IH (S start) x s'); [| |exact Hrun].
    + apply (Hstep start s x); [lia|exact H0|exact Hx].
    + intros i t t' Hi. apply Hstep. lia.
Qed.

(** A loop whose body cannot raise under the invariant runs to its end. *)
Lemma for_range_total {St} (I : nat → St → Prop) (body : nat → St → result St) :
  ∀ count start s,
    I start s →
    (∀ i t, start ≤ i < start + count → I i t → ∃ t', body i t = Ok t' ∧ I (S i) t') →
    ∃ s', for_range start count body s = Ok s' ∧ I (start + count) s'.
Proof.
  induction count as [|c IH]; intros start s H0 Hstep; simpl.
  - exists s. rewrite Nat.add_0_r. auto.
  - destruct (Hstep start s) as (t' & Hb & Ht'); [lia|exact H0|].
    rewrite Hb. simpl.
    destruct (IH (S start) t' Ht') as (s' & Hrun & Hs').
    + intros i t Hi. apply Hstep. lia.
    + exists s'. split; [exact Hrun|].
      replace (start + S c) with (S start + c) by lia. exact Hs'.
Qed.

Lemma sum_list_app (l1 l2 : list nat) :
  sum_list (l1 ++ l2) = sum_list l1 + sum_list l2.
Proof.
  induction l1 as [|a l1 IH]; simpl; [reflexivity|].
  unfold sum_list in *. simpl. rewrite IH. lia.
Qed.

Lemma length_concat_sum {A} (ls : list (list A)) :
  length (concat ls) = sum_list (map length ls).
Proof.
  induction ls as [|l ls IH]; simpl; [reflexivity|].
  rewrite length_app, IH. reflexivity.
Qed.

(** ** The rectangular grid *)

Section RectangularGrid.
Context {F : FloatOps}.
Local Open Scope float_scope.

(** What the two loops of the rectangular grid build: row [i] is the base
    row followed by [n - 1 - i] further ranges, and the three results are
    read off the rows. *)
Lemma rectangular_grid_rows (n : nat) (val_payloads max_range : list num)
    (min_range : num) (step : number) (gr gp : list num) (cnt : list nat) :
  rectangular_grid n val_payloads max_range min_range step = Ok (gr, gp, cnt) →
  ∃ (m : num) (base : list num) (rows : list (list num)),
    last max_range = Some m ∧
    np_arange m min_range (number_value (number_neg step)) = Ok base ∧
    length rows = n ∧
    (∀ i row, rows !! i = Some row →
       ∃ extra, row = reverse base ++ extra ∧ length extra = (n - 1 - i)%nat) ∧
    gr = concat rows ∧
    gp = concat (zip_with (λ row v, np_ones_times (length row) v) rows
                   (take n val_payloads)) ∧
    cnt = map length rows.
Proof.
  unfold rectangular_grid. intros H.
  bind_inv H. rename x into m, Hx into Hm.
  bind_inv H. rename x into base, Hx into Hbase.
  bind_inv H. rename x into gx, Hx into Hloop1.
  bind_inv H. destruct x as [[gr' gp'] cnt']. injection H as -> -> ->.
  rename Hx into Hloop2.
  (* first loop *)
  pose (I1 := λ (i : nat) (g : list (list num)),
    length g = n ∧
    ∀ j row, g !! j = Some row →
      ∃ extra, row = reverse base ++ extra ∧
               length extra = if (j <? i)%nat then j else 0%nat).
  assert (Hgx : I1 (1 + (n - 1))%nat gx).
  { apply (for_range_invariant I1 _ _ _ _ _) with (3 := Hloop1).
    - split; [apply length_replicate|].
      intros j row Hj. apply lookup_replicate in Hj as [-> Hj].
      exists []. rewrite app_nil_r. split; [reflexivity|].
      destruct j as [|j]; reflexivity.
    - intros i t t' Hi [Hlen Hrows] Hbody.
      bind_inv Hbody. rename x into prev, Hx into Hprev.
      bind_inv Hbody. rename x into mi, Hx into Hmi.
      injection Hbody as <-.
      replace (Z.of_nat i - 1)%Z with (Z.of_nat (i - 1)) in Hprev by lia.
      apply getitem_nat in Hprev.
      split; [rewrite length_insert; exact Hlen|].
      intros j row Hj.
      destruct (decide (i = j)) as [<-|Hne].
      + rewrite list_lookup_insert_eq in Hj by lia.
        injection Hj as <-.
        destruct (Hrows _ _ Hprev) as (extra & -> & Hextra).
        exists (extra ++ [mi]). rewrite app_assoc. split; [reflexivity|].
        rewrite length_app, Hextra. simpl.
        destruct (Nat.ltb_spec (i - 1) i); destruct (Nat.ltb_spec i (S i)); lia.
      + rewrite list_lookup_insert_ne in Hj by exact Hne.
        destruct (Hrows _ _ Hj) as (extra & -> & Hextra).
        exists extra. split; [reflexivity|]. rewrite Hextra.
        destruct (Nat.ltb_spec j i); destruct (Nat.ltb_spec j (S i)); lia. }
  destruct Hgx as [Hlen Hrows].
  (* second loop *)
  set (rows := reverse gx) in *.
  assert (Hrlen : length rows = n) by (unfold rows; rewrite length_reverse; exact Hlen).
  pose (I2 := λ (i : nat) (st : list num * list num * list nat),
    st = (concat (take i rows),
          concat (zip_with (λ row v, np_ones_times (length row) v)
                    (take i rows) (take i val_payloads)),
          map length (take i rows) ++ replicate (n - i) 0%nat)).
  assert (Hst : I2 (0 + n)%nat (gr, gp, cnt)).
  { apply (for_range_invariant I2 _ _ _ _ _) with (3 := Hloop2).
    - unfold I2. rewrite !take_0. simpl. rewrite Nat.sub_0_r. reflexivity.
    - intros i t t' Hi Ht Hbody. unfold I2 in Ht. subst t.
      bind_inv Hbody. rename x into row, Hx into Hrow.
      bind_inv Hbody. rename x into v, Hx into Hv.
      injection Hbody as <-.
      apply getitem_nat in Hrow. apply getitem_nat in Hv.
      unfold I2.
      rewrite (take_S_r rows i row Hrow), (take_S_r val_payloads i v Hv).
      rewrite concat_app. simpl. rewrite app_nil_r.
      rewrite zip_with_app.
      2:{ rewrite !length_take. apply lookup_lt_Some in Hrow, Hv. lia. }
      rewrite concat_app. simpl. rewrite app_nil_r.
      rewrite map_app. simpl.
      rewrite insert_app_r_alt.
      2:{ rewrite length_map, length_take. lia. }
      rewrite length_map, length_take.
      apply lookup_lt_Some in Hrow.
      replace (i - i `min` length rows)%nat with 0%nat by lia.
      replace (n - i)%nat with (S (n - S i)) by lia. simpl.
      rewrite <- app_assoc. reflexivity. }
  unfold I2 in Hst. simpl in Hst. injection Hst as -> -> ->.
  rewrite Nat.sub_diag. simpl. rewrite app_nil_r.
  rewrite firstn_all2 by lia.
  apply getitem_last in Hm.
  exists m, base, rows. repeat split; try assumption; try reflexivity.
  intros i row Hi.
  assert (Hin : (i < n)%nat) by (apply lookup_lt_Some in Hi; lia).
  unfold rows in Hi. rewrite reverse_lookup in Hi by lia.
  destruct (Hrows _ _ Hi) as (extra & -> & Hextra).
  exists extra. split; [reflexivity|]. rewrite Hextra, Hlen.
  destruct (Nat.ltb_spec (n - S i) (1 + (n - 1))); lia.
Qed.
End RectangularGrid.

(** ** The bands and the grid *)

Section GridFacts.
Context {F : FloatOps}.
Local Open Scope float_scope.

Lemma np_linspace_length (start stop : num) (n : Z) (l : list num) :
  np_linspace start stop n = Ok l → (0 ≤ n)%Z ∧ length l = Z.to_nat n.
Proof.
  unfold np_linspace. destruct (Z.ltb_spec n 0) as [|Hn]; [discriminate|].
  destruct (Z.to_nat n) as [|[|k]] eqn:Hk; intros [= <-]; split; try lia; try reflexivity.
  simpl. rewrite length_app, length_map, length_seq. simpl. lia.
Qed.

Lemma grid_payload_bands_length (spec : GridSpec)
    (max_payload payload_c ra_b ra_c ra_d : num) (val_payloads max_range : list num) :
  grid_payload_bands spec max_payload payload_c ra_b ra_c ra_d
    = Ok (val_payloads, max_range) →
  np_linspace (lower_limit_box_tolerance spec * max_payload)
    (upper_limit_box_tolerance spec * max_payload) (n_intervals_payloads spec)
    = Ok val_payloads ∧
  length val_payloads = Z.to_nat (n_intervals_payloads spec) ∧
  length max_range = Z.to_nat (n_intervals_payloads spec).
Proof.
  unfold grid_payload_bands. intros H.
  bind_inv H. rename x into val, Hx into Hval.
  bind_inv H. injection H as -> <-.
  destruct (np_linspace_length _ _ _ _ Hval) as [_ Hlen].
  split; [exact Hval|]. split; [exact Hlen|].
  rewrite length_map, length_app, !length_map. unfold slice.
  rewrite length_take, !length_drop. lia.
Qed.

(** What a successful [grid_of_envelope] went through. *)
Lemma grid_of_envelope_Ok (BL_ranges BL_payloads : list num) (fig fig' : figure)
    (spec : GridSpec) (show_grid : bool) (g : grid) (cnt : list nat)
    (out : list string) :
  grid_of_envelope BL_ranges BL_payloads fig spec show_grid = Ok (fig', g, cnt, out) →
  ∃ max_payload payload_c ra_b ra_c ra_d val_payloads max_range gr gp,
    getitem BL_payloads 0 = Ok max_payload ∧
    getitem BL_payloads 2 = Ok payload_c ∧
    getitem BL_ranges 1 = Ok ra_b ∧
    getitem BL_ranges 2 = Ok ra_c ∧
    getitem BL_ranges 3 = Ok ra_d ∧
    grid_payload_bands spec max_payload payload_c ra_b ra_c ra_d
      = Ok (val_payloads, max_range) ∧
    (if alternative_grid spec
     then alternative_grid_points (Z.to_nat (n_intervals_payloads spec))
            val_payloads max_range (grid_min_range spec ra_b) ra_b ra_c
            max_payload payload_c (range_step spec)
     else rectangular_grid (Z.to_nat (n_intervals_payloads spec)) val_payloads
            max_range (grid_min_range spec ra_b) (range_step spec))
      = Ok (gr, gp, cnt) ∧
    g = Grid gr gp (replicate (length gr) 0) ∧
    out = [number_of_points_line (length gr)].
Proof.
  unfold grid_of_envelope. intros H.
  bind_inv H. rename x into max_payload, Hx into H0.
  bind_inv H. rename x into payload_c, Hx into H1.
  bind_inv H. rename x into ra_b, Hx into H2.
  bind_inv H. rename x into ra_c, Hx into H3.
  bind_inv H. rename x into ra_d, Hx into H4.
  bind_inv H. destruct x as [val_payloads max_range]. rename Hx into H5.
  bind_inv H. destruct x as [[gr gp] cnt']. rename Hx into H6.
  injection H as _ <- <- <-.
  exists max_payload, payload_c, ra_b, ra_c, ra_d, val_payloads, max_range, gr, gp.
  repeat split; assumption || reflexivity.
Qed.

Lemma sum_list_descending (L n : nat) :
  ∀ rows : list (list num),
    length rows = n →
    (∀ i row, rows !! i = Some row → length row = (L + (n - 1 - i))%nat) →
    ∀ i a b, (1 ≤ i)%nat → map length rows !! i = Some a →
             map length rows !! (i - 1)%nat = Some b → b = (a + 1)%nat.
Proof.
  intros rows Hlen Hrows i a b Hi Ha Hb.
  rewrite list_lookup_fmap in Ha, Hb.
  destruct (rows !! i) as [ri|] eqn:Hri; [|discriminate].
  destruct (rows !! (i - 1)%nat) as [rj|] eqn:Hrj; [|discriminate].
  injection Ha as <-. injection Hb as <-.
  apply lookup_lt_Some in Hri as Hlt.
  rewrite (Hrows _ _ Hri), (Hrows _ _ Hrj). lia.
Qed.
End GridFacts.

(** ** Band counts of the rectangular grid *)

(** C1, as stated, fails on the worked envelope: the three bands hold 7, 6
    and 5 points, so band 1 has one point fewer than band 0, not one more. *)
Lemma rectangular_counts_not_increasing :
  alternative_grid example_spec = false ∧
  (1 ≤ n_intervals_payloads example_spec)%Z ∧
  grid_of_envelope example_ranges example_payloads [] example_spec false
    = Ok (example_figure, example_grid, [7; 6; 5], example_out) ∧
  ¬ (∀ i a b, 1 ≤ i < 3 → [7; 6; 5] !! i = Some a →
              [7; 6; 5] !! (i - 1) = Some b → a = b + 1).
Proof.
  split; [reflexivity|]. split; [simpl; lia|]. split; [reflexivity|].
  intros H. specialize (H 1 6 7). simpl in H.
  assert (6 = 7 + 1) as Habs by (apply H; [lia|reflexivity|reflexivity]).
  discriminate Habs.
Qed.

(** C1, amended: under the rectangular policy the counts returned by
    [grid_generation] are as many as the bands, they add up to the number of
    grid points, and each band holds one point fewer than the band before it:
    [band_counts[i] = band_counts[i-1] - 1]. *)
Theorem rectangular_band_counts {F : FloatOps} (BL_ranges BL_payloads : list num)
    (fig fig' : figure) (spec : GridSpec) (show_grid : bool) (g : grid)
    (cnt : list nat) (out : list string) :
  alternative_grid spec = false →
  grid_of_envelope BL_ranges BL_payloads fig spec show_grid = Ok (fig', g, cnt, out) →
  length cnt = Z.to_nat (n_intervals_payloads spec) ∧
  sum_list cnt = length (g_ranges g) ∧
  ∀ i, 1 ≤ i < Z.to_nat (n_intervals_payloads spec) →
       ∃ a, cnt !! i = Some a ∧ cnt !! (i - 1) = Some (a + 1).
Proof.
  intros Halt H.
  apply grid_of_envelope_Ok in H
    as (mp & pc & ra_b & ra_c & ra_d & val & mr & gr & gp & _ & _ & _ & _ & _
        & Hbands & Hgrid & -> & _).
  rewrite Halt in Hgrid.
  apply rectangular_grid_rows in Hgrid
    as (m & base & rows & _ & _ & Hlen & Hrows & -> & _ & ->).
  simpl. split; [rewrite length_map; exact Hlen|].
  split; [rewrite length_concat_sum; reflexivity|].
  intros i Hi.
  destruct (lookup_lt_is_Some_2 rows i) as [ri Hri]; [lia|].
  destruct (lookup_lt_is_Some_2 rows (i - 1)) as [rj Hrj]; [lia|].
  exists (length ri). rewrite !list_lookup_fmap, Hri, Hrj. simpl.
  split; [reflexivity|]. f_equal.
  destruct (Hrows _ _ Hri) as (ei & -> & Hei).
  destruct (Hrows _ _ Hrj) as (ej & -> & Hej).
  rewrite !length_app. lia.
Qed.

Lemma rectangular_band_counts_witness :
  alternative_grid example_spec = false ∧
  length example_counts = Z.to_nat (n_intervals_payloads example_spec) ∧
  sum_list example_counts = length (g_ranges example_grid) ∧
  ∀ i, 1 ≤ i < Z.to_nat (n_intervals_payloads example_spec) →
       ∃ a, example_counts !! i = Some a ∧ example_counts !! (i - 1) = Some (a + 1).
Proof.
  split; [reflexivity|].
  apply (@rectangular_band_counts Qfloat example_ranges example_payloads [] example_figure
           example_spec false example_grid example_counts example_out).
  - reflexivity.
  - reflexivity.
Defined.

(** ** The breakpoint search *)

Lemma np_where_from_none {A} (cond : A → bool) (l : list A) (i : nat) :
  Forall (λ a, cond a = false) l → np_where_from cond l i = [].
Proof.
  intros H. revert i. induction H as [|a l Ha _ IH]; intros i; simpl.
  - reflexivity.
  - rewrite Ha. apply IH.
Qed.

(** When no band reaches the payload of point C, the search for the
    breakpoint raises [IndexError]. *)
Lemma grid_payload_bands_no_breakpoint {F : FloatOps} (spec : GridSpec)
    (max_payload payload_c ra_b ra_c ra_d : num) (val_payloads : list num) :
  np_linspace (lower_limit_box_tolerance spec * max_payload)%F
    (upper_limit_box_tolerance spec * max_payload)%F (n_intervals_payloads spec)
    = Ok val_payloads →
  Forall (λ v, (payload_c <=? v)%F = false) val_payloads →
  grid_payload_bands spec max_payload payload_c ra_b ra_c ra_d = Raise IndexError.
Proof.
  intros Hval Hall. unfold grid_payload_bands. rewrite Hval. simpl.
  unfold np_where. rewrite np_where_from_none by exact Hall. reflexivity.
Qed.

(** Unfolds the float operations at the rational interpretation. *)
Ltac unfold_Qfloat :=
  change (@num Qfloat) with Q in *;
  change (@fadd Qfloat) with Qplus in *;
  change (@fsub Qfloat) with Qminus in *;
  change (@fmul Qfloat) with Qmult in *;
  change (@fdiv Qfloat) with Qdiv in *;
  change (@fneg Qfloat) with Qopp in *;
  change (@of_int Qfloat) with inject_Z in *;
  change (@fle Qfloat) with Qle_bool in *;
  change (@flt Qfloat) with (λ a b : Q, negb (Qle_bool b a)) in *;
  cbv beta in *.

Lemma Qle_bool_false (a b : Q) : (b < a)%Q → Qle_bool a b = false.
Proof.
  intros H. destruct (Qle_bool a b) eqn:E; [|reflexivity].
  apply Qle_bool_iff in E. exfalso. apply (Qlt_not_le _ _ H E).
Qed.

Lemma Qle_bool_true_false (a b : Q) : Qle_bool a b = false → (b < a)%Q.
Proof.
  intros H. apply Qnot_le_lt. intros Hle. apply Qle_bool_iff in Hle. congruence.
Qed.

(** With exact arithmetic the samples of [np.linspace] stay below [stop]
    when [start <= stop]. *)
Lemma np_linspace_le_stop (start stop : Q) (n : Z) (l : list Q) :
  (start <= stop)%Q →
  @np_linspace Qfloat start stop n = Ok l →
  Forall (λ v : Q, (v <= stop)%Q) l.
Proof.
  intros Hle. unfold np_linspace.
  destruct (Z.ltb_spec n 0) as [|Hn]; [discriminate|].
  destruct (Z.to_nat n) as [|[|k]] eqn:Hk; intros H; injection H as <-.
  - constructor.
  - constructor; [exact Hle|constructor].
  - assert (Hf : ∀ i : nat, i ≤ S k →
      (inject_Z (Z.of_nat i) * ((stop - start) / inject_Z (n - 1)) + start <= stop)%Q).
    { intros i Hi.
      assert (HN : (0 < inject_Z (n - 1))%Q).
      { change 0%Q with (inject_Z 0). rewrite <- Zlt_Qlt. lia. }
      assert (HI : (inject_Z (Z.of_nat i) <= inject_Z (n - 1))%Q).
      { rewrite <- Zle_Qle. lia. }
      assert (Hd : (0 <= (stop - start) / inject_Z (n - 1))%Q).
      { apply Qle_shift_div_l; [exact HN|]. lra. }
      assert (Hmul : (inject_Z (Z.of_nat i) * ((stop - start) / inject_Z (n - 1))
                      <= inject_Z (n - 1) * ((stop - start) / inject_Z (n - 1)))%Q).
      { apply Qmult_le_compat_r; assumption. }
      rewrite Qmult_div_r in Hmul by lra. lra. }
    unfold_Qfloat. constructor; [apply Hf; lia|].
    apply Forall_app. split; [|constructor; [apply Qle_refl|constructor]].
    apply Forall_forall. intros v Hv.
    apply list_elem_of_In, in_map_iff in Hv as (i & <- & Hi).
    apply in_seq in Hi. apply Hf. lia.
Qed.

Lemma np_linspace_total {F : FloatOps} (start stop : num) (n : Z) :
  (0 ≤ n)%Z → ∃ l, np_linspace start stop n = Ok l.
Proof.
  intros Hn. unfold np_linspace.
  destruct (Z.ltb_spec n 0) as [|_]; [lia|].
  destruct (Z.to_nat n) as [|[|k]]; eexists; reflexivity.
Qed.

(** C8, as stated, fails when the payload of point C equals
    [upper_limit_box_tolerance * max_payload] (19 t = 0.95 * 20 t): the last
    band reaches it and a grid is generated. *)
Lemma breakpoint_at_upper_limit_generates_grid :
  (19 == upper_limit_box_tolerance example_spec * 20)%Q ∧
  ∃ fig g out,
    grid_of_envelope example_ranges example_payloads_at_limit [] example_spec false
      = Ok (fig, g, [9; 8; 7], out).
Proof.
  split; [reflexivity|].
  eexists _, _, _. reflexivity.
Qed.

(** C8, amended: when the bands run upwards
    ([lower * max_payload <= upper * max_payload], at least zero bands) and
    the payload of point C is strictly above [upper * max_payload],
    [grid_generation] produces no grid: the search for the breakpoint raises
    [IndexError].  No configuration error naming the parameter is raised. *)
Theorem breakpoint_above_bands_raises
    (ra_a ra_b ra_c ra_d ra_s max_payload payload_b payload_c payload_d payload_s : Q)
    (fig : figure) (spec : GridSpec) (show_grid : bool) :
  (0 ≤ n_intervals_payloads spec)%Z →
  (lower_limit_box_tolerance spec * max_payload
     <= upper_limit_box_tolerance spec * max_payload)%Q →
  (upper_limit_box_tolerance spec * max_payload < payload_c)%Q →
  grid_of_envelope [ra_a; ra_b; ra_c; ra_d; ra_s]
    [max_payload; payload_b; payload_c; payload_d; payload_s] fig spec show_grid
    = Raise IndexError.
Proof.
  intros Hn Hle Hlt. unfold grid_of_envelope.
  change (getitem [max_payload; payload_b; payload_c; payload_d; payload_s] 0)
    with (Ok max_payload).
  change (getitem [max_payload; payload_b; payload_c; payload_d; payload_s] 2)
    with (Ok payload_c).
  change (getitem [ra_a; ra_b; ra_c; ra_d; ra_s] 1) with (Ok ra_b).
  change (getitem [ra_a; ra_b; ra_c; ra_d; ra_s] 2) with (Ok ra_c).
  change (getitem [ra_a; ra_b; ra_c; ra_d; ra_s] 3) with (Ok ra_d).
  simpl mbind.
  destruct (np_linspace_total
              (lower_limit_box_tolerance spec * max_payload)%F
              (upper_limit_box_tolerance spec * max_payload)%F _ Hn) as [val Hval].
  rewrite (grid_payload_bands_no_breakpoint spec max_payload payload_c ra_b ra_c ra_d val Hval).
  - reflexivity.
  - apply np_linspace_le_stop in Hval; [|exact Hle].
    eapply Forall_impl; [exact Hval|].
    intros v Hv. simpl in Hv. apply Qle_bool_false.
    eapply Qle_lt_trans; [exact Hv|exact Hlt].
Qed.

Lemma breakpoint_above_bands_raises_witness :
  (0 ≤ n_intervals_payloads example_spec)%Z ∧
  grid_of_envelope example_ranges example_payloads_above_limit [] example_spec false
    = Raise IndexError.
Proof.
  split; [simpl; lia|].
  apply (breakpoint_above_bands_raises 0 3000 4000 5000 2500 20 20 (39 # 2) 0 18
           [] example_spec false).
  - simpl. lia.
  - vm_compute. discriminate.
  - reflexivity.
Defined.

(** ** The base row of the rectangular grid, with exact arithmetic *)

Lemma np_arange_Q (start stop step : Q) (base : list Q) :
  @np_arange Qfloat start stop step = Ok base →
  ¬ (step == 0)%Q ∧
  base = map (λ i : nat, (start + inject_Z (Z.of_nat i) * step)%Q)
             (seq 0 (Z.to_nat (Qceiling ((stop - start) / step)))).
Proof.
  unfold np_arange. simpl arange_length.
  destruct (Qeq_bool step 0) eqn:Hs; [discriminate|].
  intros H. injection H as <-. split; [|reflexivity].
  apply Qeq_bool_neq, Hs.
Qed.

(** The opposite of a step, with exact arithmetic. *)
Lemma number_value_neg (v : @number Qfloat) :
  number_value (number_neg v) = (- number_value v)%Q.
Proof. destruct v; reflexivity. Qed.

(** [np.flip(np.arange(m, min_range, -step))] for a positive step: the
    samples [m - i * step] that are strictly above [min_range], in
    increasing order. *)
Lemma arange_down (m min_range s : Q) (base : list Q) :
  (0 < s)%Q →
  @np_arange Qfloat m min_range (- s)%Q = Ok base →
  (∀ k x y, reverse base !! k = Some x → reverse base !! S k = Some y →
            (y - x == s)%Q) ∧
  (∀ x, last (reverse base) = Some x → (x == m)%Q) ∧
  (∀ x, x ∈ reverse base → (min_range < x)%Q) ∧
  (∀ x, head (reverse base) = Some x → (x <= min_range + s)%Q).
Proof.
  intros HS Hbase. apply np_arange_Q in Hbase as [_ ->].
  set (X := ((min_range - m) / (- s))%Q).
  set (len := Z.to_nat (Qceiling X)).
  set (f := λ i : nat, (m + inject_Z (Z.of_nat i) * (- s))%Q).
  assert (HX : (X * s == m - min_range)%Q).
  { unfold X. field. lra. }
  assert (Hlookup : ∀ j, j < len → map f (seq 0 len) !! j = Some (f j)).
  { intros j Hj. rewrite list_lookup_fmap, lookup_seq_lt by exact Hj. reflexivity. }
  assert (Hlen : length (map f (seq 0 len)) = len)
    by (rewrite length_map, length_seq; reflexivity).
  assert (Hrev : ∀ k x, reverse (map f (seq 0 len)) !! k = Some x →
                        k < len ∧ x = f (len - S k)).
  { intros k x Hk. apply lookup_lt_Some in Hk as Hlt.
    rewrite length_reverse, Hlen in Hlt. split; [exact Hlt|].
    rewrite reverse_lookup in Hk by (rewrite Hlen; exact Hlt).
    rewrite Hlen, Hlookup in Hk by lia. congruence. }
  assert (Habove : ∀ j, j < len → (min_range < f j)%Q).
  { intros j Hj. unfold f.
    assert (Hj' : (inject_Z (Z.of_nat j) < X)%Q).
    { eapply Qle_lt_trans; [|apply Qceiling_lt].
      rewrite <- Zle_Qle. unfold len in Hj. lia. }
    apply (Qmult_lt_compat_r _ _ s HS) in Hj'.
    rewrite HX in Hj'. lra. }
  repeat split.
  - intros k x y Hx Hy.
    apply Hrev in Hx as [Hk ->]. apply Hrev in Hy as [Hk' ->]. unfold f.
    replace (Z.of_nat (len - S k)) with (Z.of_nat (len - S (S k)) + 1)%Z by lia.
    rewrite inject_Z_plus. change (inject_Z 1) with 1%Q. ring.
  - intros x Hx. rewrite last_reverse in Hx.
    destruct len as [|len']; [discriminate|]. simpl in Hx. injection Hx as <-.
    unfold f. change (inject_Z (Z.of_nat 0)) with 0%Q. ring.
  - intros x Hx. apply list_elem_of_lookup in Hx as [k Hk].
    apply Hrev in Hk as [Hk ->]. apply Habove. lia.
  - intros x Hx. rewrite head_reverse, last_lookup, Hlen in Hx.
    assert (Hpos : 0 < len).
    { apply lookup_lt_Some in Hx as Hlt. rewrite Hlen in Hlt. lia. }
    rewrite Hlookup in Hx by lia. injection Hx as <-. unfold f.
    assert (HXl : (X <= inject_Z (Z.of_nat len))%Q).
    { eapply Qle_trans; [apply Qle_ceiling|].
      rewrite <- Zle_Qle. unfold len. lia. }
    apply (Qmult_le_compat_r _ _ s) in HXl; [|lra].
    rewrite HX in HXl.
    replace (Z.of_nat len) with (Z.of_nat (Init.Nat.pred len) + 1)%Z in HXl by lia.
    rewrite inject_Z_plus in HXl. change (inject_Z 1) with 1%Q in HXl.
    lra.
Qed.

(** C9, as stated, fails on the worked envelope: [min_range] is 500 NM, the
    row of the last band is 945, 1445, ..., 2945 NM, and every range of the
    grid is strictly above 500 NM.  The smallest sample is not [min_range]
    and [min_range] is a sample of no band. *)
Lemma min_range_is_not_sampled :
  alternative_grid example_spec = false ∧
  grid_of_envelope example_ranges example_payloads [] example_spec false
    = Ok (example_figure, example_grid, example_counts, example_out) ∧
  (grid_min_range example_spec 3000%Q == 500)%Q ∧
  Forall2 Qeq (drop 13 (g_ranges example_grid)) [945; 1445; 1945; 2445; 2945]%Q ∧
  Forall (λ x : Q, ¬ (x == 500)%Q) (g_ranges example_grid).
Proof.
  split; [reflexivity|]. split; [reflexivity|].
  split; [vm_compute; reflexivity|]. split.
  - vm_compute. repeat (constructor; [vm_compute; reflexivity|]). constructor.
  - vm_compute. repeat (constructor; [vm_compute; discriminate|]). constructor.
Qed.

(** C9, amended: the base row of the rectangular grid.  With exact
    arithmetic, a positive step and non-zero divisors in the maximum ranges,
    the grid returned is made of one row per band ([n_values_ranges] holds
    their lengths); the row of the last band, the highest payload when the
    bands run upwards, is the base row
    [np.flip(np.arange(max_range[-1], min_range, -range_step))], and every
    row starts with it.  Its samples are spaced exactly [range_step] apart;
    the largest one is the maximum range of the last band; every sample is
    strictly above [min_range], the smallest one by at most one step.  So
    [min_range] itself is not a sample of the base row. *)
Theorem base_row_samples
    (ra_a ra_b ra_c ra_d ra_s max_payload payload_b payload_c payload_d payload_s : Q)
    (fig fig' : figure) (spec : GridSpec) (show_grid : bool) (g : grid)
    (cnt : list nat) (out : list string) :
  alternative_grid spec = false →
  (0 < number_value (range_step spec))%Q →
  ¬ (payload_c == 0)%Q →
  ¬ (max_payload == payload_c)%Q →
  grid_of_envelope [ra_a; ra_b; ra_c; ra_d; ra_s]
    [max_payload; payload_b; payload_c; payload_d; payload_s] fig spec show_grid
    = Ok (fig', g, cnt, out) →
  ∃ (val_payloads max_range : list Q) (M : Q) (samples : list Q) (rows : list (list Q)),
    let base := reverse samples in
    grid_payload_bands spec max_payload payload_c ra_b ra_c ra_d
      = Ok (val_payloads, max_range) ∧
    last max_range = Some M ∧
    np_arange M (grid_min_range spec ra_b) (number_value (number_neg (range_step spec)))
      = Ok samples ∧
    g_ranges g = concat rows ∧
    cnt = map length rows ∧
    length rows = Z.to_nat (n_intervals_payloads spec) ∧
    last rows = Some base ∧
    (∀ row, row ∈ rows → base `prefix_of` row) ∧
    (∀ k x y, base !! k = Some x → base !! S k = Some y →
              (y - x == number_value (range_step spec))%Q) ∧
    (∀ x, last base = Some x → (x == M)%Q) ∧
    (∀ x, x ∈ base → (grid_min_range spec ra_b < x)%Q) ∧
    (∀ x, head base = Some x →
          (x <= grid_min_range spec ra_b + number_value (range_step spec))%Q).
Proof.
  intros Halt Hstep _ _ H.
  apply grid_of_envelope_Ok in H
    as (mp & pc & rb & rc & rd & val & mr & gr & gp & H0 & H1 & H2 & H3 & H4
        & Hbands & Hgrid & -> & _).
  compute in H0, H1, H2, H3, H4.
  injection H0 as <-. injection H1 as <-. injection H2 as <-.
  injection H3 as <-. injection H4 as <-.
  rewrite Halt in Hgrid.
  apply rectangular_grid_rows in Hgrid
    as (m & base & rows & Hm & Hbase & Hlen & Hrows & -> & _ & ->).
  pose proof Hbase as Hbase'. rewrite number_value_neg in Hbase'.
  destruct (arange_down _ _ _ _ Hstep Hbase') as (Hspaced & Hlast & Habove & Hhead).
  assert (Hn : 0 < Z.to_nat (n_intervals_payloads spec)).
  { apply grid_payload_bands_length in Hbands as (_ & _ & Hmr).
    rewrite last_lookup in Hm. apply lookup_lt_Some in Hm. lia. }
  change (@num Qfloat) with Q in *.
  exists val, mr, m, base, rows. cbv zeta.
  split; [exact Hbands|]. split; [exact Hm|]. split; [exact Hbase|].
  split; [reflexivity|]. split; [reflexivity|]. split; [exact Hlen|].
  split.
  { rewrite last_lookup, Hlen.
    destruct (lookup_lt_is_Some_2 rows (Init.Nat.pred (Z.to_nat (n_intervals_payloads spec))))
      as [row Hrow]; [lia|].
    rewrite Hrow. destruct (Hrows _ _ Hrow) as (extra & -> & Hextra).
    destruct extra; [|simpl in Hextra; lia]. rewrite app_nil_r. reflexivity. }
  split.
  { intros row Hrow. apply list_elem_of_lookup in Hrow as [i Hi].
    destruct (Hrows _ _ Hi) as (extra & -> & _). exists extra. reflexivity. }
  repeat split; assumption.
Qed.

Lemma base_row_samples_witness :
  alternative_grid example_spec = false ∧
  (0 < number_value (range_step example_spec))%Q ∧
  ∃ (val_payloads max_range : list Q) (M : Q) (samples : list Q) (rows : list (list Q)),
    let base := reverse samples in
    grid_payload_bands example_spec 20%Q 10%Q 3000%Q 4000%Q 5000%Q
      = Ok (val_payloads, max_range) ∧
    last max_range = Some M ∧
    np_arange M (grid_min_range example_spec 3000%Q)
      (number_value (number_neg (range_step example_spec))) = Ok samples ∧
    g_ranges example_grid = concat rows ∧
    example_counts = map length rows ∧
    length rows = Z.to_nat (n_intervals_payloads example_spec) ∧
    last rows = Some base ∧
    (∀ row, row ∈ rows → base `prefix_of` row) ∧
    (∀ k x y, base !! k = Some x → base !! S k = Some y →
              (y - x == number_value (range_step example_spec))%Q) ∧
    (∀ x, last base = Some x → (x == M)%Q) ∧
    (∀ x, x ∈ base → (grid_min_range example_spec 3000%Q < x)%Q) ∧
    (∀ x, head base = Some x →
          (x <= grid_min_range example_spec 3000%Q
                + number_value (range_step example_spec))%Q).
Proof.
  split; [reflexivity|]. split; [reflexivity|].
  apply (base_row_samples 0 3000 4000 5000 2500 20 20 10 0 18 [] example_figure
           example_spec false example_grid example_counts example_out).
  - reflexivity.
  - reflexivity.
  - vm_compute. discriminate.
  - vm_compute. discriminate.
  - reflexivity.
Defined.

(** ** The sweep *)

Section SweepFacts.
Context {F : FloatOps} {R : FloatRepr F}.
Local Open Scope float_scope.

(** The loop over the grid points leaves ranges and payloads alone, asks the
    mission for every point, and stores the sum of its four fuels. *)
Lemma sweep_loop_spec (sim : simulator) (g0 g1 : grid) :
  length (g_consumption g0) = length (g_ranges g0) →
  for_range 0 (length (g_ranges g0)) (sweep_step sim) g0 = Ok g1 →
  g_ranges g1 = g_ranges g0 ∧
  g_payloads g1 = g_payloads g0 ∧
  length (g_consumption g1) = length (g_ranges g0) ∧
  (length (g_ranges g0) ≤ length (g_payloads g0))%nat ∧
  ∀ i r, g_ranges g0 !! i = Some r →
    ∃ p fuel,
      g_payloads g0 !! i = Some p ∧
      evaluate_mission sim p (r * of_int (10 ^ 3) * lit 1852 3) = Ok fuel ∧
      g_consumption g1 !! i = Some (total_fuel fuel).
Proof.
  intros Hlen Hrun.
  pose (I := λ (k : nat) (g : grid),
    g_ranges g = g_ranges g0 ∧
    g_payloads g = g_payloads g0 ∧
    length (g_consumption g) = length (g_ranges g0) ∧
    ∀ i r, (i < k)%nat → g_ranges g0 !! i = Some r →
      ∃ p fuel,
        g_payloads g0 !! i = Some p ∧
        evaluate_mission sim p (r * of_int (10 ^ 3) * lit 1852 3) = Ok fuel ∧
        g_consumption g !! i = Some (total_fuel fuel)).
  assert (HI : I (0 + length (g_ranges g0))%nat g1).
  { apply (for_range_invariant I _ _ _ _ _) with (3 := Hrun).
    - repeat split; try assumption. intros i r Hi. lia.
    - intros k g g' Hk (Hr & Hp & Hc & Hdone) Hstep.
      unfold sweep_step in Hstep.
      bind_inv Hstep. rename x into p, Hx into Hpk.
      bind_inv Hstep. rename x into r, Hx into Hrk.
      bind_inv Hstep. rename x into fuel, Hx into Hfuel.
      injection Hstep as <-. simpl.
      apply getitem_nat in Hpk, Hrk. rewrite Hp in Hpk. rewrite Hr in Hrk.
      split; [exact Hr|]. split; [exact Hp|].
      split; [simpl; rewrite length_insert; exact Hc|].
      { simpl. intros i r' Hi Hr'.
        destruct (decide (i = k)) as [->|Hne].
        * exists p, fuel. rewrite Hrk in Hr'. injection Hr' as <-.
          repeat split; try assumption.
          apply list_lookup_insert_eq. lia.
        * destruct (Hdone i r') as (p' & fuel' & Hp' & He' & Hc'); [lia|exact Hr'|].
          exists p', fuel'. repeat split; try assumption.
          rewrite list_lookup_insert_ne by congruence. exact Hc'. } }
  destruct HI as (Hr & Hp & Hc & Hdone). simpl in Hdone.
  repeat split; try assumption.
  - destruct (Nat.le_gt_cases (length (g_ranges g0)) (length (g_payloads g0)))
      as [Hle|Hgt]; [exact Hle|].
    destruct (lookup_lt_is_Some_2 (g_ranges g0) (length (g_payloads g0)) Hgt) as [r Hri].
    destruct (Hdone _ r Hgt Hri) as (p & _ & Hpi & _).
    apply lookup_lt_Some in Hpi. lia.
  - intros i r Hi. apply (Hdone i r); [|exact Hi].
    apply lookup_lt_Some in Hi. exact Hi.
Qed.

(** The rows of the saved table. *)
Lemma grid_T_lookup (g : grid) (i : nat) (r p c : num) :
  g_ranges g !! i = Some r → g_payloads g !! i = Some p →
  g_consumption g !! i = Some c →
  grid_T g !! i = Some [r; p; c].
Proof.
  intros Hr Hp Hc. unfold grid_T.
  assert (Hz : zip (g_payloads g) (g_consumption g) !! i = Some (p, c)).
  { apply lookup_zip_with_Some. exists p, c. auto. }
  apply lookup_zip_with_Some. exists r, (p, c). auto.
Qed.

Lemma grid_T_length (g : grid) :
  (length (g_ranges g) ≤ length (g_payloads g))%nat →
  length (g_consumption g) = length (g_ranges g) →
  length (grid_T g) = length (g_ranges g).
Proof.
  intros Hp Hc. unfold grid_T. rewrite !length_zip_with. lia.
Qed.

Lemma specific_consumption_lookup (g : grid) (i : nat) (r p c : num) :
  g_ranges g !! i = Some r → g_payloads g !! i = Some p →
  g_consumption g !! i = Some c →
  g_consumption (specific_consumption g) !! i
    = Some (c / (p * r * lit 1852 3 * of_int (10 ^ 3))).
Proof.
  intros Hr Hp Hc. unfold specific_consumption. simpl.
  apply lookup_zip_with_Some.
  exists c, (p * r * lit 1852 3 * of_int (10 ^ 3)). split; [reflexivity|].
  split; [exact Hc|].
  rewrite list_lookup_fmap.
  assert (Hz : zip_with fmul (g_payloads g) (g_ranges g) !! i = Some (p * r)).
  { apply lookup_zip_with_Some. exists p, r. auto. }
  rewrite Hz. reflexivity.
Qed.
End SweepFacts.

(** ** Strings: [str], [int], [split] and [strip] *)

Lemma string_forall_impl (p q : ascii → bool) (s : string) :
  (∀ c, p c = true → q c = true) →
  string_forall p s = true → string_forall q s = true.
Proof.
  intros Hpq. induction s as [|c s IH]; simpl; [reflexivity|].
  intros H. apply andb_true_iff in H as [Hc Hs].
  rewrite (Hpq c Hc), (IH Hs). reflexivity.
Qed.

Lemma string_forall_app (p : ascii → bool) (s t : string) :
  string_forall p (s +:+ t) = string_forall p s && string_forall p t.
Proof.
  induction s as [|c s IH]; simpl; [reflexivity|].
  rewrite IH, andb_assoc. reflexivity.
Qed.

Lemma string_app_inv_head (s a b : string) : s +:+ a = s +:+ b → a = b.
Proof.
  induction s as [|c s IH]; simpl; intros H; [exact H|].
  injection H as H. apply IH, H.
Qed.

Lemma string_app_length (s t : string) :
  String.length (s +:+ t) = (String.length s + String.length t)%nat.
Proof. induction s as [|c s IH]; simpl; [reflexivity|]. rewrite IH. reflexivity. Qed.

Lemma string_of_uint_chars (d : uint) :
  string_forall is_int_char (NilEmpty.string_of_uint d) = true.
Proof. induction d; simpl; try rewrite IHd; reflexivity. Qed.

Lemma str_int_chars (z : Z) : string_forall is_int_char (str_int z) = true.
Proof.
  unfold str_int. destruct z as [|p|p]; simpl.
  - reflexivity.
  - unfold NilZero.string_of_uint.
    destruct (Pos.to_uint p); try reflexivity; apply string_of_uint_chars.
  - unfold NilZero.string_of_uint.
    destruct (Pos.to_uint p); try reflexivity; apply string_of_uint_chars.
Qed.

Lemma is_int_char_not_whitespace (c : ascii) :
  is_int_char c = true → negb (is_whitespace c) = true.
Proof.
  destruct c as [[] [] [] [] [] [] [] []]; vm_compute; congruence.
Qed.

Lemma is_int_char_not_slash (c : ascii) :
  is_int_char c = true → negb (Ascii.eqb c "/") = true.
Proof.
  destruct c as [[] [] [] [] [] [] [] []]; vm_compute; congruence.
Qed.

Lemma not_whitespace_not_space (c : ascii) :
  negb (is_whitespace c) = true → negb (is_space c) = true.
Proof.
  destruct c as [[] [] [] [] [] [] [] []]; vm_compute; congruence.
Qed.

Lemma lstrip_no_whitespace (s : string) :
  string_forall (λ c, negb (is_whitespace c)) s = true → lstrip s = s.
Proof.
  destruct s as [|c s]; simpl; [reflexivity|].
  intros H. apply andb_true_iff in H as [Hc _].
  apply negb_true_iff in Hc. rewrite Hc. reflexivity.
Qed.

Lemma rstrip_nl (s : string) :
  string_forall (λ c, negb (is_whitespace c)) s = true → rstrip (s +:+ nl) = s.
Proof.
  induction s as [|c s IH]; simpl; [reflexivity|].
  intros H. apply andb_true_iff in H as [Hc Hs].
  rewrite (IH Hs). apply negb_true_iff in Hc. rewrite Hc.
  destruct s; reflexivity.
Qed.

Lemma strip_nl (s : string) :
  string_forall (λ c, negb (is_whitespace c)) s = true → strip (s +:+ nl) = s.
Proof.
  intros H. unfold strip. rewrite rstrip_nl by exact H.
  apply lstrip_no_whitespace, H.
Qed.

Lemma str_int_no_whitespace (z : Z) :
  string_forall (λ c, negb (is_whitespace c)) (str_int z) = true.
Proof.
  eapply string_forall_impl; [|apply str_int_chars].
  apply is_int_char_not_whitespace.
Qed.

Lemma int_of_str_int (z : Z) :
  NilZero.int_of_string (str_int z) = Some (Z.to_int z).
Proof.
  unfold str_int. apply NilZero.isi.
  - destruct z; simpl; try discriminate.
    intros [= H]. apply (DecimalPos.Unsigned.to_uint_nonnil _ H).
  - destruct z; simpl; try discriminate.
    intros [= H]. apply (DecimalPos.Unsigned.to_uint_nonnil _ H).
Qed.

(** [int(str(z) + "\n") == z]. *)
Lemma int_of_string_str_int (z : Z) : int_of_string (str_int z +:+ nl) = Some z.
Proof.
  unfold int_of_string. rewrite strip_nl by apply str_int_no_whitespace.
  rewrite int_of_str_int. simpl. rewrite DecimalZ.of_to. reflexivity.
Qed.

Lemma split_space_no_space (v : string) :
  string_forall (λ c, negb (is_space c)) v = true → split_space v = [v].
Proof.
  induction v as [|c v IH]; simpl; [reflexivity|].
  intros H. apply andb_true_iff in H as [Hc Hv].
  apply negb_true_iff in Hc. rewrite Hc, (IH Hv). reflexivity.
Qed.

(** [(key + " " + v).split(" ")[-1] == v] when [v] has no space. *)
Lemma split_space_last (key v : string) :
  string_forall (λ c, negb (is_space c)) v = true →
  getitem (split_space (key +:+ " " +:+ v)) (-1) = Ok v.
Proof.
  intros Hv. apply getitem_last.
  assert (H : ∃ w ws, split_space (key +:+ " " +:+ v) = w :: ws ∧ last ws = Some v).
  { induction key as [|c key (w & ws & IH & Hlast)].
    - exists EmptyString, [v]. simpl. rewrite split_space_no_space by exact Hv. auto.
    - simpl. rewrite IH. destruct (is_space c).
      + exists EmptyString, (w :: ws). split; [reflexivity|].
        destruct ws; [discriminate|exact Hlast].
      + exists (String c w), ws. auto. }
  destruct H as (w & ws & -> & Hlast).
  destruct ws; [discriminate|exact Hlast].
Qed.

(** ** Printing and reading exact rationals *)

Lemma split_slash_app (a b : string) :
  string_forall (λ c, negb (Ascii.eqb c "/")) a = true →
  split_slash (a +:+ "/" +:+ b) = Some (a, b).
Proof.
  induction a as [|c a IH]; simpl; [reflexivity|].
  intros H. apply andb_true_iff in H as [Hc Ha].
  apply negb_true_iff in Hc. rewrite Hc, (IH Ha). reflexivity.
Qed.

Lemma Q_to_string_no_whitespace (q : Q) :
  string_forall (λ c, negb (is_whitespace c)) (Q_to_string q) = true.
Proof.
  unfold Q_to_string. rewrite !string_forall_app, !str_int_no_whitespace.
  reflexivity.
Qed.

Lemma Q_of_string_to_string (q : Q) : Q_of_string (Q_to_string q +:+ nl) = Some q.
Proof.
  unfold Q_of_string. rewrite strip_nl by apply Q_to_string_no_whitespace.
  unfold Q_to_string. rewrite split_slash_app.
  - rewrite !int_of_str_int, !DecimalZ.of_to. destruct q; reflexivity.
  - eapply string_forall_impl; [|apply str_int_chars].
    apply is_int_char_not_slash.
Qed.

(** A string with a slash in it is not an int literal. *)
Lemma uint_of_string_slash (a b : string) :
  NilEmpty.uint_of_string (a +:+ "/" +:+ b) = None.
Proof.
  induction a as [|c a IH].
  - change (uint_of_char "/" (NilEmpty.uint_of_string b) = None).
    destruct (NilEmpty.uint_of_string b); reflexivity.
  - change (uint_of_char c (NilEmpty.uint_of_string (a +:+ "/" +:+ b)) = None).
    rewrite IH. reflexivity.
Qed.

Lemma int_of_string_slash (a b : string) :
  NilZero.int_of_string (a +:+ "/" +:+ b) = None.
Proof.
  assert (Hu : ∀ a', NilZero.uint_of_string (a' +:+ "/" +:+ b) = None).
  { intros [|c a'].
    - apply (uint_of_string_slash "" b).
    - apply (uint_of_string_slash (String c a') b). }
  destruct a as [|c a].
  - change (option_map Pos (NilZero.uint_of_string ("" +:+ "/" +:+ b)) = None).
    rewrite Hu. reflexivity.
  - change ((if Ascii.eqb c "-"
             then option_map Neg (NilZero.uint_of_string (a +:+ "/" +:+ b))
             else option_map Pos (NilZero.uint_of_string (String c a +:+ "/" +:+ b)))
            = None).
    rewrite !Hu. destruct (Ascii.eqb c "-"); reflexivity.
Qed.

Lemma int_of_string_Q_to_string (q : Q) : int_of_string (Q_to_string q +:+ nl) = None.
Proof.
  unfold int_of_string. rewrite strip_nl by apply Q_to_string_no_whitespace.
  unfold Q_to_string. rewrite int_of_string_slash. reflexivity.
Qed.

#[global] Instance QfloatRepr : FloatRepr Qfloat := {|
  str_float := Q_to_string;
  float_of_string := Q_of_string;
  float_of_str := Q_of_string_to_string;
  str_float_no_space := λ q,
    string_forall_impl _ _ _ not_whitespace_not_space (Q_to_string_no_whitespace q);
  str_float_not_int := int_of_string_Q_to_string;
  savetxt_line := Q_savetxt_line;
|}.

(** ** The grid parameters, written and read back *)

Section GridFile.
Context {F : FloatOps} {R : FloatRepr F}.

Lemma last_field_line (lines : list string) (k : Z) (key v : string) :
  getitem lines k = Ok (key +:+ " " +:+ v) →
  string_forall (λ c, negb (is_space c)) v = true →
  last_field lines k = Ok v.
Proof.
  intros Hline Hv. unfold last_field. rewrite Hline. simpl.
  apply split_space_last, Hv.
Qed.

Lemma line_end_no_space (s : string) :
  string_forall (λ c, negb (is_space c)) s = true →
  string_forall (λ c, negb (is_space c)) (s +:+ nl) = true.
Proof. intros H. rewrite string_forall_app, H. reflexivity. Qed.

Lemma str_int_no_space (z : Z) :
  string_forall (λ c, negb (is_space c)) (str_int z) = true.
Proof.
  eapply string_forall_impl; [|apply str_int_no_whitespace].
  apply not_whitespace_not_space.
Qed.

Lemma py_int_str_int (z : Z) : py_int (str_int z +:+ nl) = Ok z.
Proof. unfold py_int. rewrite int_of_string_str_int. reflexivity. Qed.

Lemma py_float_str_float (x : num) : py_float (str_float x +:+ nl) = Ok x.
Proof. unfold py_float. rewrite float_of_str. reflexivity. Qed.

Lemma py_int_str_float (x : num) : py_int (str_float x +:+ nl) = Raise ValueError.
Proof. unfold py_int. rewrite str_float_not_int. reflexivity. Qed.

(** Reading the lines [payload_range_loop_computation] writes gives back the
    parameters it was called with, when the step is an int. *)
Lemma read_written_grid_file (fs : gmap string file)
    (file_save_folder file_save : string) (spec : GridSpec) (step : Z) :
  range_step spec = PyInt step →
  fs !! pth_join file_save_folder ("grid_" +:+ file_save)
    = Some (TextFile (grid_file_lines file_save spec)) →
  read_grid_file fs file_save_folder file_save = Ok spec.
Proof.
  intros Hstep Hfs. unfold read_grid_file, open_readlines. rewrite Hfs.
  unfold grid_file_lines. rewrite Hstep. cbn [str_number].
  cbn [mbind result_bind drop].
  rewrite (last_field_line _ 0 "n_intervals_payloads="
             (str_int (n_intervals_payloads spec) +:+ nl))
    by (reflexivity || apply line_end_no_space, str_int_no_space).
  cbn [mbind result_bind]. rewrite py_int_str_int.
  rewrite (last_field_line _ 1 "range_step=" (str_int step +:+ nl))
    by (reflexivity || apply line_end_no_space, str_int_no_space).
  cbn [mbind result_bind]. rewrite py_int_str_int.
  rewrite (last_field_line _ 2 "upper_limit_box_tolerance="
             (str_float (upper_limit_box_tolerance spec) +:+ nl))
    by (reflexivity || apply line_end_no_space, str_float_no_space).
  cbn [mbind result_bind]. rewrite py_float_str_float.
  rewrite (last_field_line _ 3 "lower_limit_box_tolerance="
             (str_float (lower_limit_box_tolerance spec) +:+ nl))
    by (reflexivity || apply line_end_no_space, str_float_no_space).
  cbn [mbind result_bind]. rewrite py_float_str_float.
  rewrite (last_field_line _ 4 "right_limit_box_tolerance="
             (str_float (right_limit_box_tolerance spec) +:+ nl))
    by (reflexivity || apply line_end_no_space, str_float_no_space).
  cbn [mbind result_bind]. rewrite py_float_str_float.
  rewrite (last_field_line _ 5 "left_limit_box_tolerance="
             (str_float (left_limit_box_tolerance spec) +:+ nl))
    by (reflexivity || apply line_end_no_space, str_float_no_space).
  cbn [mbind result_bind]. rewrite py_float_str_float.
  rewrite (last_field_line _ 6 "alternative_grid="
             (str_bool (alternative_grid spec) +:+ nl))
    by (reflexivity || (destruct (alternative_grid spec); reflexivity)).
  cbn [mbind result_bind].
  destruct spec as [n s u l r lf []]; simpl in Hstep; subst s; reflexivity.
Qed.

(** A float step is written with [str] and read with [int], which refuses
    it. *)
Lemma read_float_step_raises (fs : gmap string file)
    (file_save_folder file_save : string) (spec : GridSpec) (step : num) :
  range_step spec = PyFloat step →
  fs !! pth_join file_save_folder ("grid_" +:+ file_save)
    = Some (TextFile (grid_file_lines file_save spec)) →
  read_grid_file fs file_save_folder file_save = Raise ValueError.
Proof.
  intros Hstep Hfs. unfold read_grid_file, open_readlines. rewrite Hfs.
  unfold grid_file_lines. rewrite Hstep. cbn [str_number].
  cbn [mbind result_bind drop].
  rewrite (last_field_line _ 0 "n_intervals_payloads="
             (str_int (n_intervals_payloads spec) +:+ nl))
    by (reflexivity || apply line_end_no_space, str_int_no_space).
  cbn [mbind result_bind]. rewrite py_int_str_int.
  rewrite (last_field_line _ 1 "range_step=" (str_float step +:+ nl))
    by (reflexivity || apply line_end_no_space, str_float_no_space).
  cbn [mbind result_bind]. rewrite py_int_str_float. reflexivity.
Qed.
End GridFile.

(** ** What a completed sweep leaves behind *)

Lemma grid_path_differs (folder file_save : string) :
  pth_join folder ("grid_" +:+ file_save) ≠ pth_join folder file_save.
Proof.
  unfold pth_join. intros H.
  apply string_app_inv_head, string_app_inv_head in H.
  apply (f_equal String.length) in H.
  rewrite string_app_length in H. simpl in H. lia.
Qed.

Section SweepResult.
Context {F : FloatOps} {R : FloatRepr F}.
Local Open Scope float_scope.

Lemma sweep_completed (E : collaborators) (sim : simulator) (ac : aircraft)
    (spec : GridSpec) (folder file_save : string) (fs fs' : gmap string file) :
  payload_range_loop_computation E sim ac spec folder file_save fs = (fs', Ok ()) →
  ∃ fig g cnt out g1,
    grid_generation E ac [] spec true = Ok (fig, g, cnt, out) ∧
    for_range 0 (length (g_ranges g)) (sweep_step sim) g = Ok g1 ∧
    fs' !! pth_join folder file_save
      = Some (TableFile (grid_T (specific_consumption g1))) ∧
    fs' !! pth_join folder ("grid_" +:+ file_save)
      = Some (TextFile (grid_file_lines file_save spec)).
Proof.
  unfold payload_range_loop_computation. intros H.
  destruct (sweep_grid E sim ac spec) as [g2|e] eqn:Hsweep; [|discriminate].
  destruct (remove_scratch sim) as [u|e]; [|discriminate].
  injection H as <-.
  unfold sweep_grid in Hsweep.
  bind_inv Hsweep. destruct x as [[[fig g] cnt] out]. rename Hx into Hgrid.
  bind_inv Hsweep. bind_inv Hsweep. rename x0 into g1, Hx0 into Hloop.
  injection Hsweep as <-.
  exists fig, g, cnt, out, g1. split; [exact Hgrid|]. split; [exact Hloop|].
  unfold np_savetxt. split.
  - rewrite lookup_insert_ne by apply grid_path_differs.
    apply lookup_insert_eq.
  - apply lookup_insert_eq.
Qed.

(** The grid and the counts do not depend on the figure passed in nor on
    [show_grid]. *)
Lemma grid_generation_figure_independent (E : collaborators) (ac : aircraft)
    (fig fig' : figure) (spec : GridSpec) (show_grid : bool) (g : grid)
    (cnt : list nat) (out : list string) :
  grid_generation E ac fig spec show_grid = Ok (fig', g, cnt, out) →
  ∀ fig0 show0, ∃ fig0', grid_generation E ac fig0 spec show0 = Ok (fig0', g, cnt, out).
Proof.
  unfold grid_generation. destruct (breguet_leduc_points E ac) as [BLr BLp].
  intros H fig0 show0.
  apply grid_of_envelope_Ok in H
    as (mp & pc & rb & rc & rd & val & mr & gr & gp & H0 & H1 & H2 & H3 & H4
        & Hbands & Hgrid & -> & ->).
  unfold grid_of_envelope. rewrite H0, H1, H2, H3, H4.
  cbn [mbind result_bind]. rewrite Hbands. cbn [mbind result_bind].
  rewrite Hgrid. cbn [mbind result_bind]. eexists. reflexivity.
Qed.
End SweepResult.

(** The sweep and the file system it leaves, on the worked aircraft. *)
Definition example_swept : gmap string file * result unit :=
  payload_range_loop_computation example_collaborators example_simulator
    example_aircraft example_sweep_spec "data" "loop_results.txt" ∅.

Lemma example_swept_completed : example_swept = (example_swept.1, Ok ()).
Proof.
  assert (H : example_swept.2 = Ok ()) by (vm_compute; reflexivity).
  destruct example_swept as [fs r]. simpl in *. rewrite H. reflexivity.
Qed.

(** ** The saved specific consumptions *)

Lemma grid_generation_consumption_length {F : FloatOps} (E : collaborators)
    (ac : aircraft) (fig fig' : figure) (spec : GridSpec) (show_grid : bool)
    (g : grid) (cnt : list nat) (out : list string) :
  grid_generation E ac fig spec show_grid = Ok (fig', g, cnt, out) →
  length (g_consumption g) = length (g_ranges g).
Proof.
  unfold grid_generation. destruct (breguet_leduc_points E ac) as [BLr BLp].
  intros H. apply grid_of_envelope_Ok in H
    as (mp & pc & rb & rc & rd & val & mr & gr & gp & _ & _ & _ & _ & _ & _ & _ & -> & _).
  simpl. apply length_replicate.
Qed.

(** The table a completed sweep saves, row by row. *)
Lemma sweep_table_rows {F : FloatOps} {R : FloatRepr F}
    (E : collaborators) (sim : simulator) (ac : aircraft) (spec : GridSpec)
    (folder file_save : string) (fs fs' : gmap string file) :
  payload_range_loop_computation E sim ac spec folder file_save fs = (fs', Ok ()) →
  ∃ fig g cnt out rows,
    grid_generation E ac [] spec true = Ok (fig, g, cnt, out) ∧
    fs' !! pth_join folder file_save = Some (TableFile rows) ∧
    length rows = length (g_ranges g) ∧
    ∀ i r, g_ranges g !! i = Some r →
      ∃ p fuel,
        g_payloads g !! i = Some p ∧
        evaluate_mission sim p (r * of_int (10 ^ 3) * lit 1852 3)%F = Ok fuel ∧
        rows !! i
          = Some [r; p;
                  ((main_route_fuel fuel + take_off_fuel fuel + taxi_in_fuel fuel
                    + taxi_out_fuel fuel)
                   / (p * r * lit 1852 3 * of_int (10 ^ 3)))%F].
Proof.
  intros H.
  apply sweep_completed in H as (fig & g & cnt & out & g1 & Hgrid & Hloop & Htable & _).
  pose proof (grid_generation_consumption_length _ _ _ _ _ _ _ _ _ Hgrid) as Hlen.
  destruct (sweep_loop_spec sim g g1 Hlen Hloop) as (Hr & Hp & Hc & Hle & Hpoints).
  exists fig, g, cnt, out, (grid_T (specific_consumption g1)).
  split; [exact Hgrid|]. split; [exact Htable|]. split.
  - rewrite grid_T_length; simpl.
    + rewrite Hr. reflexivity.
    + rewrite Hr, Hp. exact Hle.
    + rewrite length_zip_with, length_map, length_zip_with, Hc, Hr, Hp. lia.
  - intros i r Hi.
    destruct (Hpoints i r Hi) as (p & fuel & Hpi & Hfuel & Hci).
    exists p, fuel. split; [exact Hpi|]. split; [exact Hfuel|].
    apply grid_T_lookup; simpl.
    + rewrite Hr. exact Hi.
    + rewrite Hp. exact Hpi.
    + apply (specific_consumption_lookup g1 i r p (total_fuel fuel)).
      * rewrite Hr. exact Hi.
      * rewrite Hp. exact Hpi.
      * exact Hci.
Qed.

(** C5: after [payload_range_loop_computation] completes, the table it saved
    has one row per grid point, and the third entry of row [i] is the sum of
    the four fuels the mission returned for that point (main route, take-off,
    taxi-in, taxi-out) divided by [payload_i * range_i * 1.852 * 10 ** 3]. *)
Theorem persisted_specific_consumption {F : FloatOps} {R : FloatRepr F}
    (E : collaborators) (sim : simulator) (ac : aircraft) (spec : GridSpec)
    (folder file_save : string) (fs fs' : gmap string file) :
  payload_range_loop_computation E sim ac spec folder file_save fs = (fs', Ok ()) →
  ∃ fig g cnt out rows,
    grid_generation E ac [] spec true = Ok (fig, g, cnt, out) ∧
    fs' !! pth_join folder file_save = Some (TableFile rows) ∧
    length rows = length (g_ranges g) ∧
    ∀ i r, g_ranges g !! i = Some r →
      ∃ p fuel,
        g_payloads g !! i = Some p ∧
        evaluate_mission sim p (r * of_int (10 ^ 3) * lit 1852 3)%F = Ok fuel ∧
        rows !! i
          = Some [r; p;
                  ((main_route_fuel fuel + take_off_fuel fuel + taxi_in_fuel fuel
                    + taxi_out_fuel fuel)
                   / (p * r * lit 1852 3 * of_int (10 ^ 3)))%F].
Proof.
  intros H.
  apply sweep_completed in H as (fig & g & cnt & out & g1 & Hgrid & Hloop & Htable & _).
  pose proof (grid_generation_consumption_length _ _ _ _ _ _ _ _ _ Hgrid) as Hlen.
  destruct (sweep_loop_spec sim g g1 Hlen Hloop) as (Hr & Hp & Hc & Hle & Hpoints).
  exists fig, g, cnt, out, (grid_T (specific_consumption g1)).
  split; [exact Hgrid|]. split; [exact Htable|]. split.
  - rewrite grid_T_length; simpl.
    + rewrite Hr. reflexivity.
    + rewrite Hr, Hp. exact Hle.
    + rewrite length_zip_with, length_map, length_zip_with, Hc, Hr, Hp. lia.
  - intros i r Hi.
    destruct (Hpoints i r Hi) as (p & fuel & Hpi & Hfuel & Hci).
    exists p, fuel. split; [exact Hpi|]. split; [exact Hfuel|].
    apply grid_T_lookup; simpl.
    + rewrite Hr. exact Hi.
    + rewrite Hp. exact Hpi.
    + apply (specific_consumption_lookup g1 i r p (total_fuel fuel)).
      * rewrite Hr. exact Hi.
      * rewrite Hp. exact Hpi.
      * exact Hci.
Qed.

Lemma persisted_specific_consumption_witness :
  ∃ fig g cnt out rows,
    grid_generation example_collaborators example_aircraft [] example_sweep_spec true
      = Ok (fig, g, cnt, out) ∧
    example_swept.1 !! pth_join "data" "loop_results.txt" = Some (TableFile rows) ∧
    length rows = length (g_ranges g) ∧
    ∀ i r, g_ranges g !! i = Some r →
      ∃ p fuel,
        g_payloads g !! i = Some p ∧
        evaluate_mission example_simulator p (r * of_int (10 ^ 3) * lit 1852 3)%F
          = Ok fuel ∧
        rows !! i
          = Some [r; p;
                  ((main_route_fuel fuel + take_off_fuel fuel + taxi_in_fuel fuel
                    + taxi_out_fuel fuel)
                   / (p * r * lit 1852 3 * of_int (10 ^ 3)))%F].
Proof.
  apply (persisted_specific_consumption example_collaborators example_simulator
           example_aircraft example_sweep_spec "data" "loop_results.txt" ∅).
  exact example_swept_completed.
Defined.

(** ** The grid regenerated from the saved parameters *)

(** X24: with an int step (the default), the parameters
    [payload_range_loop_computation] writes next to its table are read back
    unchanged by [payload_range_full], so the grid regenerated from them, on
    the same aircraft, has the same points and the same counts as the grid the
    sweep ran on, whatever figure and [show_grid] it is given. *)
Theorem grid_regenerated_from_saved_parameters {F : FloatOps} {R : FloatRepr F}
    (E : collaborators) (sim : simulator) (ac : aircraft) (spec : GridSpec)
    (folder file_save : string) (fs fs' : gmap string file) (step : Z) :
  range_step spec = PyInt step →
  payload_range_loop_computation E sim ac spec folder file_save fs = (fs', Ok ()) →
  read_grid_file fs' folder file_save = Ok spec ∧
  ∃ fig g cnt out,
    grid_generation E ac [] spec true = Ok (fig, g, cnt, out) ∧
    ∀ fig0 show0, ∃ fig0',
      (read_grid_file fs' folder file_save
         ≫= λ spec', grid_generation E ac fig0 spec' show0)
        = Ok (fig0', g, cnt, out).
Proof.
  intros Hstep H.
  apply sweep_completed in H as (fig & g & cnt & out & g1 & Hgrid & _ & _ & Hfile).
  pose proof (read_written_grid_file _ _ _ _ _ Hstep Hfile) as Hread.
  split; [exact Hread|].
  exists fig, g, cnt, out. split; [exact Hgrid|].
  intros fig0 show0. rewrite Hread. cbn [mbind result_bind].
  apply (grid_generation_figure_independent _ _ _ _ _ _ _ _ _ Hgrid).
Qed.

Lemma grid_regenerated_from_saved_parameters_witness :
  range_step example_sweep_spec = PyInt 500 ∧
  read_grid_file example_swept.1 "data" "loop_results.txt" = Ok example_sweep_spec ∧
  ∃ fig g cnt out,
    grid_generation example_collaborators example_aircraft [] example_sweep_spec true
      = Ok (fig, g, cnt, out) ∧
    ∀ fig0 show0, ∃ fig0',
      (read_grid_file example_swept.1 "data" "loop_results.txt"
         ≫= λ spec', grid_generation example_collaborators example_aircraft fig0
                       spec' show0)
        = Ok (fig0', g, cnt, out).
Proof.
  split; [reflexivity|].
  apply (grid_regenerated_from_saved_parameters example_collaborators
           example_simulator example_aircraft example_sweep_spec "data"
           "loop_results.txt" ∅ _ 500%Z).
  - reflexivity.
  - exact example_swept_completed.
Defined.

(** The worked sweep with the same step given as a float. *)
Definition example_float_step_swept : gmap string file * result unit :=
  payload_range_loop_computation example_collaborators example_simulator
    example_aircraft example_float_step_spec "data" "loop_results.txt" ∅.

Lemma example_float_step_swept_completed :
  example_float_step_swept = (example_float_step_swept.1, Ok ()).
Proof.
  assert (H : example_float_step_swept.2 = Ok ()) by (vm_compute; reflexivity).
  destruct example_float_step_swept as [fs r]. simpl in *. rewrite H. reflexivity.
Qed.

(** C4: the grid parameters are not always read back.  The step is written
    with [str] and read with [int].  A sweep run with a float step
    ([range_step=500.0]) completes and saves its table and its parameters,
    the line of the step being [range_step= 500.0]; [payload_range_full] then
    raises [ValueError] at [int(lines[1].split(" ")[-1])], before any grid is
    regenerated, whatever the figure and [show_grid].  With an int step the
    parameters are read back and the grid is regenerated, as shown above. *)
Theorem float_step_is_not_read_back {F : FloatOps} {R : FloatRepr F}
    (E : collaborators) (sim : simulator) (ac : aircraft) (spec : GridSpec)
    (folder file_save : string) (fs fs' : gmap string file) (step : num) :
  range_step spec = PyFloat step →
  payload_range_loop_computation E sim ac spec folder file_save fs = (fs', Ok ()) →
  (∃ fig g cnt out rows,
     grid_generation E ac [] spec true = Ok (fig, g, cnt, out) ∧
     fs' !! pth_join folder file_save = Some (TableFile rows) ∧
     length rows = length (g_ranges g)) ∧
  (∃ lines,
     open_readlines fs' (pth_join folder ("grid_" +:+ file_save)) = Ok lines ∧
     lines !! 2 = Some ("range_step= " +:+ str_float step +:+ nl)) ∧
  read_grid_file fs' folder file_save = Raise ValueError ∧
  ∀ fig show_grid,
    payload_range_full E ac fig folder file_save show_grid fs' = Raise ValueError.
Proof.
  intros Hstep H.
  pose proof (sweep_table_rows _ _ _ _ _ _ _ _ H)
    as (fig & g & cnt & out & rows & Hgrid & Htable & Hlen & _).
  apply sweep_completed in H as (_ & _ & _ & _ & _ & _ & _ & _ & Hfile).
  pose proof (read_float_step_raises _ _ _ _ _ Hstep Hfile) as Hread.
  split; [exists fig, g, cnt, out, rows; auto|].
  split.
  { exists (grid_file_lines file_save spec). unfold open_readlines. rewrite Hfile.
    split; [reflexivity|]. unfold grid_file_lines. rewrite Hstep. reflexivity. }
  split; [exact Hread|].
  intros fig0 show0. unfold payload_range_full. rewrite Hread. reflexivity.
Qed.

Lemma float_step_is_not_read_back_witness :
  range_step example_float_step_spec = PyFloat 500%Q ∧
  example_float_step_swept = (example_float_step_swept.1, Ok ()) ∧
  read_grid_file example_float_step_swept.1 "data" "loop_results.txt"
    = Raise ValueError ∧
  ∀ fig show_grid,
    payload_range_full example_collaborators example_aircraft fig "data"
      "loop_results.txt" show_grid example_float_step_swept.1 = Raise ValueError.
Proof.
  split; [reflexivity|]. split; [exact example_float_step_swept_completed|].
  pose proof (float_step_is_not_read_back example_collaborators example_simulator
                example_aircraft example_float_step_spec "data" "loop_results.txt"
                ∅ example_float_step_swept.1 500%Q) as H.
  specialize (H eq_refl).
  specialize (H example_float_step_swept_completed).
  destruct H as (_ & _ & Hread & Hfull). split; [exact Hread|exact Hfull].
Defined.

(** ** Point B of the envelope *)

(** C6: the range of point B returned by [breguet_leduc_points] is the
    linear interpolation between the design point and point C along the
    payload axis, unless that value is negative; then it is the solution of
    the same range equation, with the same coefficient and first guess, for
    [mass_in = MTOW] and [mass_out = OWE + max_payload]. *)
Theorem point_b_range {F : FloatOps} (E : collaborators) (ac : aircraft) :
  let coeff := breguet_leduc_coeff E ac in
  let x0 := (sizing_range ac * of_int 10)%F in
  let payload_c := (mtow ac - mfw ac - owe ac)%F in
  let ra_c := fsolve E (non_linear_function E (mtow ac) (mtow ac - mfw ac)%F coeff) x0 in
  let interpolated :=
    ((sizing_range ac - ra_c) * (max_payload ac - payload_c)
     / (sizing_payload ac - payload_c) + ra_c)%F in
  (breguet_leduc_points E ac).1 !! 1
    = Some (if (interpolated <? 0)%F
            then fsolve E (non_linear_function E (mtow ac)
                             (owe ac + max_payload ac)%F coeff) x0
            else interpolated).
Proof.
  intros coeff x0 payload_c ra_c interpolated.
  unfold breguet_leduc_points, breguet_leduc_formula, ra_b_interpolated.
  cbn [fst lookup list_lookup].
  reflexivity.
Qed.

Example point_b_solved_when_interpolation_negative :
  let ac := example_aircraft_low_design_payload in
  let E := example_collaborators in
  let coeff := breguet_leduc_coeff E ac in
  let ra_c := breguet_leduc_formula E 70000%Q 45000%Q coeff 15000%Q in
  (ra_b_interpolated ac ra_c 7000%Q < 0)%Q ∧
  (breguet_leduc_points E ac).1 !! 1
    = Some (breguet_leduc_formula E 70000%Q 50000%Q coeff 15000%Q).
Proof. split; vm_compute; reflexivity. Qed.

(** ** The range at a mass ratio of one *)



(** In floats the residual is not the identity everywhere.  Where the
    exponential overflows, [k_ra] is minus infinity, its product with the
    logarithm of one, a zero, is nan, and so is the residual, whatever the
    coefficient. *)
Lemma residual_is_nan_where_exp_overflows (E : @collaborators Xfloat)
    (mass coeff ra l : Q) :
  np_exp E (xdiv (xneg (Finite ra)) (Finite (inject_Z 814))) = Infinity false →
  np_log E (xdiv (Finite mass) (Finite mass)) = Finite l → (l == 0)%Q →
  @non_linear_function Xfloat E (Finite mass) (Finite mass) (Finite coeff) (Finite ra)
  = NaN.
Proof.
  intros Hexp Hlog Hl. unfold non_linear_function.
  cbn [num fadd fsub fmul fdiv fneg of_int lit Xfloat].
  rewrite Hexp, Hlog. unfold xsub.
  cbn [xmul xneg xadd negb xorb].
  change (Qeq_bool (inject_Z 895 / inject_Z (10 ^ Z.of_nat 3)) 0) with false.
  change (Qnegative (inject_Z 895 / inject_Z (10 ^ Z.of_nat 3))) with false.
  cbn [xmul xneg xadd negb xorb].
  apply Qeq_bool_iff in Hl.
  destruct (Qeq_bool coeff 0); cbn [xmul xneg xadd]; [reflexivity|].
  rewrite Hl. reflexivity.
Qed.

(** Where the exponential is finite the residual is the identity, as with
    exact arithmetic. *)
Lemma residual_is_identity_where_exp_is_finite (E : @collaborators Xfloat)
    (mass coeff ra e l : Q) :
  np_exp E (xdiv (xneg (Finite ra)) (Finite (inject_Z 814))) = Finite e →
  np_log E (xdiv (Finite mass) (Finite mass)) = Finite l → (l == 0)%Q →
  ∃ r : Q,
    @non_linear_function Xfloat E (Finite mass) (Finite mass) (Finite coeff) (Finite ra)
    = Finite r ∧ (r == ra)%Q.
Proof.
  intros Hexp Hlog Hl. unfold non_linear_function.
  cbn [num fadd fsub fmul fdiv fneg of_int lit Xfloat].
  rewrite Hexp, Hlog. unfold xsub. cbn [xmul xneg xadd].
  eexists. split; [reflexivity|]. rewrite Hl. ring.
Qed.




(** ** The rows of the grid, for both policies *)

Section GridRows.
Context {F : FloatOps}.
Local Open Scope float_scope.

(** The alternative loop appends one row per band it goes through; it goes
    through all the remaining bands or, stopping at once, through none. *)
Lemma alternative_loop_rows (val_payloads max_range : list num)
    (min_range ra_b : num) (step : number) (delta_x : num) :
  ∀ (remaining i : nat) (range_add gr gp : list num) (cnt : list nat)
    (gr' gp' : list num) (cnt' : list nat),
    alternative_loop remaining i range_add val_payloads max_range min_range ra_b
      step delta_x (gr, gp, cnt) = Ok (gr', gp', cnt') →
    ∃ rows : list (list num),
      gr' = gr ++ concat rows ∧
      gp' = gp ++ concat (zip_with (λ row v, np_ones_times (length row) v) rows
                            (drop i val_payloads)) ∧
      cnt' = cnt ++ map length rows ∧
      (length rows ≤ length (drop i val_payloads))%nat ∧
      (rows = [] ∨ length rows = remaining) ∧
      (length range_add ≠ 0%nat →
       ∀ ra, np_arange min_range ra_b (number_value step) = Ok ra → length ra ≠ 0%nat →
             length rows = remaining).
Proof.
  induction remaining as [|rem IH]; intros i range_add gr gp cnt gr' gp' cnt' H;
    simpl in H.
  - injection H as <- <- <-. exists []. simpl. rewrite !app_nil_r.
    repeat split; auto. lia.
  - destruct (Nat.eqb_spec (length range_add) 0) as [Hempty|Hfull].
    { injection H as <- <- <-. exists []. simpl. rewrite !app_nil_r.
      repeat split; auto; [lia|]. intros Hne. contradiction. }
    bind_inv H. rename x into ra, Hx into Hra.
    destruct (Nat.eqb_spec (length ra) 0) as [Hra0|Hra1].
    { injection H as <- <- <-. exists []. simpl. rewrite !app_nil_r.
      repeat split; auto; [lia|].
      intros _ ra' Hra' Hne. rewrite Hra in Hra'. injection Hra' as <-.
      contradiction. }
    bind_inv H. rename x into lst, Hx into Hlst.
    bind_inv H. rename x into m, Hx into Hm.
    bind_inv H. rename x into tail, Hx into Htail.
    bind_inv H. rename x into v, Hx into Hv.
    apply getitem_nat in Hv.
    apply IH in H as (rows & -> & -> & -> & Hlen & _ & Hall).
    assert (Hrows : length rows = rem).
    { apply (Hall) with (ra := ra); [|exact Hra|exact Hra1].
      rewrite length_app. lia. }
    exists ((ra ++ tail) :: rows).
    rewrite (drop_S _ _ _ Hv). simpl. rewrite <- ?app_assoc. simpl.
    rewrite <- ?app_assoc.
    repeat split; try reflexivity.
    + lia.
    + right. rewrite Hrows. reflexivity.
    + intros _ _ _ _. rewrite Hrows. reflexivity.
Qed.

(** The rows of a generated grid: the ranges are the rows one after the
    other, every point of row [i] carries the payload of band [i], and the
    counts are the lengths of the rows. *)
Lemma grid_of_envelope_rows (BL_ranges BL_payloads : list num) (fig fig' : figure)
    (spec : GridSpec) (show_grid : bool) (g : grid) (cnt : list nat)
    (out : list string) :
  grid_of_envelope BL_ranges BL_payloads fig spec show_grid = Ok (fig', g, cnt, out) →
  ∃ (max_payload : num) (val_payloads : list num) (rows : list (list num)),
    getitem BL_payloads 0 = Ok max_payload ∧
    np_linspace (lower_limit_box_tolerance spec * max_payload)
      (upper_limit_box_tolerance spec * max_payload) (n_intervals_payloads spec)
      = Ok val_payloads ∧
    g_ranges g = concat rows ∧
    g_payloads g
      = concat (zip_with (λ row v, np_ones_times (length row) v) rows val_payloads) ∧
    g_consumption g = replicate (length (g_ranges g)) 0 ∧
    cnt = map length rows ∧
    (length rows ≤ length val_payloads)%nat ∧
    (rows = [] ∨ length rows = Z.to_nat (n_intervals_payloads spec)) ∧
    (alternative_grid spec = false →
     length rows = Z.to_nat (n_intervals_payloads spec)).
Proof.
  intros H.
  apply grid_of_envelope_Ok in H
    as (mp & pc & rb & rc & rd & val & mr & gr & gp & H0 & _ & _ & _ & _
        & Hbands & Hgrid & -> & _).
  apply grid_payload_bands_length in Hbands as (Hval & Hlval & _).
  exists mp, val. simpl.
  destruct (alternative_grid spec).
  - unfold alternative_grid_points in Hgrid.
    bind_inv Hgrid. bind_inv Hgrid.
    apply alternative_loop_rows in Hgrid as (rows & -> & -> & -> & Hlen & Hall & _).
    rewrite drop_0 in Hlen. exists rows. simpl.
    repeat split; try assumption; try reflexivity. discriminate.
  - apply rectangular_grid_rows in Hgrid
      as (m & base & rows & _ & _ & Hlen & _ & -> & -> & ->).
    exists rows. rewrite <- Hlval, firstn_all.
    repeat split; try assumption; try reflexivity; try lia; auto.
Qed.

Lemma concat_zip_with_ones (rows : list (list num)) (vals : list num) (p : num) :
  p ∈ concat (zip_with (λ row v, np_ones_times (length row) v) rows vals) →
  ∃ v, v ∈ vals ∧ p = 1 * v.
Proof.
  revert vals. induction rows as [|row rows IH]; intros vals Hp; simpl in Hp.
  - apply elem_of_nil in Hp. contradiction.
  - destruct vals as [|v vals]; simpl in Hp.
    + apply elem_of_nil in Hp. contradiction.
    + apply elem_of_app in Hp as [Hp|Hp].
      * exists v. split; [left|].
        unfold np_ones_times in Hp.
        apply list_elem_of_fmap in Hp as (one & -> & Hone).
        apply elem_of_replicate in Hone as [-> _]. reflexivity.
      * destruct (IH _ Hp) as (v' & Hv' & ->). exists v'. split; [right; exact Hv'|].
        reflexivity.
Qed.

Lemma length_concat_zip_with_ones (rows : list (list num)) (vals : list num) :
  (length rows ≤ length vals)%nat →
  length (concat (zip_with (λ row v, np_ones_times (length row) v) rows vals))
    = length (concat rows).
Proof.
  revert vals. induction rows as [|row rows IH]; intros vals Hlen; simpl.
  - reflexivity.
  - destruct vals as [|v vals]; simpl in *; [lia|].
    rewrite !length_app, IH by lia.
    unfold np_ones_times. rewrite length_map, length_replicate. reflexivity.
Qed.
End GridRows.

(** ** Payloads in tonnes *)

(** With exact arithmetic, bands laid between two bounds divided by 1000 are
    the bands laid between the bounds, divided by 1000. *)
Lemma np_linspace_scaled (a b a' b' : Q) (n : Z) (bands bands' : list Q) :
  (a' == a / 1000)%Q → (b' == b / 1000)%Q →
  @np_linspace Qfloat a b n = Ok bands →
  @np_linspace Qfloat a' b' n = Ok bands' →
  Forall2 (λ t k : Q, (t == k / 1000)%Q) bands' bands.
Proof.
  intros Ha Hb. unfold np_linspace.
  destruct (Z.ltb_spec n 0) as [|Hn]; [discriminate|].
  destruct (Z.to_nat n) as [|[|k]] eqn:Hk; intros H H'; injection H as <-;
    injection H' as <-.
  - constructor.
  - constructor; [exact Ha|constructor].
  - unfold_Qfloat.
    assert (Hf : ∀ i : nat,
      (inject_Z (Z.of_nat i) * ((b' - a') / inject_Z (n - 1)) + a'
       == (inject_Z (Z.of_nat i) * ((b - a) / inject_Z (n - 1)) + a) / 1000)%Q).
    { intros i. rewrite Ha, Hb. unfold Qdiv. ring. }
    constructor; [apply Hf|].
    apply Forall2_app; [|constructor; [exact Hb|constructor]].
    apply Forall2_fmap, Forall_Forall2_diag, Forall_forall.
    intros i _. apply Hf.
Qed.

(** C10: [breguet_leduc_points] returns the payloads divided by [10 ** 3]
    and the ranges as they are.  So, after a completed sweep, the payload of
    every grid point is a band payload in the unit of the aircraft file
    divided by 1000; the table stores the range and the payload of the grid
    point unchanged; and the mission is asked for that same payload, with the
    range times [10 ** 3 * 1.852]. *)
Theorem payloads_in_tonnes (E : @collaborators Qfloat) (sim : @simulator Qfloat)
    (ac : @aircraft Qfloat) (spec : @GridSpec Qfloat) (folder file_save : string)
    (fs fs' : gmap string file) :
  payload_range_loop_computation E sim ac spec folder file_save fs = (fs', Ok ()) →
  let coeff := breguet_leduc_coeff E ac in
  let x0 := (sizing_range ac * 10)%Q in
  (breguet_leduc_points E ac).2
    = map (λ m : Q, (m / 1000)%Q)
          [max_payload ac; max_payload ac; (mtow ac - mfw ac - owe ac)%Q; 0%Q;
           sizing_payload ac] ∧
  (breguet_leduc_points E ac).1 !! 2
    = Some (breguet_leduc_formula E (mtow ac) (mtow ac - mfw ac)%Q coeff x0) ∧
  (breguet_leduc_points E ac).1 !! 3
    = Some (breguet_leduc_formula E (owe ac + mfw ac)%Q (owe ac) coeff x0) ∧
  (breguet_leduc_points E ac).1 !! 4 = Some (sizing_range ac) ∧
  ∃ fig g cnt out (bands_kg : list Q) rows,
    grid_generation E ac [] spec true = Ok (fig, g, cnt, out) ∧
    np_linspace (lower_limit_box_tolerance spec * max_payload ac)%Q
      (upper_limit_box_tolerance spec * max_payload ac)%Q
      (n_intervals_payloads spec) = Ok bands_kg ∧
    fs' !! pth_join folder file_save = Some (TableFile rows) ∧
    ∀ i (r p : Q), g_ranges g !! i = Some r → g_payloads g !! i = Some p →
      (∃ v : Q, v ∈ bands_kg ∧ (p == v / 1000)%Q) ∧
      (∃ c : Q, rows !! i = Some [r; p; c]) ∧
      (∃ fuel, evaluate_mission sim p (r * 1000 * (1852 / 1000))%Q = Ok fuel).
Proof.
  intros H coeff x0.
  split; [reflexivity|]. split; [reflexivity|]. split; [reflexivity|].
  split; [reflexivity|].
  apply sweep_table_rows in H as (fig & g & cnt & out & rows & Hgrid & Htable & _ & Hrows).
  pose proof Hgrid as Hg. unfold grid_generation in Hg.
  destruct (breguet_leduc_points E ac) as [BLr BLp] eqn:HBL.
  assert (HBLp : BLp = map (λ m : Q, (m / 1000)%Q)
            [max_payload ac; max_payload ac; (mtow ac - mfw ac - owe ac)%Q; 0%Q;
             sizing_payload ac]).
  { unfold breguet_leduc_points in HBL. injection HBL as _ <-. reflexivity. }
  apply grid_of_envelope_rows in Hg
    as (mp & val & grows & Hmp & Hval & _ & Hgp & _ & _ & _ & _ & _).
  rewrite HBLp in Hmp.
  change (Ok (max_payload ac / 1000)%Q = Ok mp) in Hmp. injection Hmp as <-.
  destruct (np_linspace_length _ _ _ _ Hval) as [Hn _].
  destruct (np_linspace_total
              (lower_limit_box_tolerance spec * max_payload ac)%F
              (upper_limit_box_tolerance spec * max_payload ac)%F _ Hn)
    as [bands_kg Hkg].
  assert (Hscaled : Forall2 (λ t k : Q, (t == k / 1000)%Q) val bands_kg).
  { apply (np_linspace_scaled
             (lower_limit_box_tolerance spec * max_payload ac)%Q
             (upper_limit_box_tolerance spec * max_payload ac)%Q
             (lower_limit_box_tolerance spec * (max_payload ac / 1000))%Q
             (upper_limit_box_tolerance spec * (max_payload ac / 1000))%Q
             (n_intervals_payloads spec)).
    - unfold Qdiv. ring.
    - unfold Qdiv. ring.
    - exact Hkg.
    - exact Hval. }
  exists fig, g, cnt, out, bands_kg, rows.
  split; [exact Hgrid|]. split; [exact Hkg|]. split; [exact Htable|].
  intros i r p Hr Hp.
  destruct (Hrows i r Hr) as (p' & fuel & Hp' & Hfuel & Hrow).
  assert (Hpp : Some p' = Some p)
    by (etransitivity; [symmetry; exact Hp'|exact Hp]).
  injection Hpp as ->.
  split; [|split].
  - assert (Hin : p ∈ g_payloads g) by (apply list_elem_of_lookup; eauto).
    rewrite Hgp in Hin. apply concat_zip_with_ones in Hin as (v & Hv & ->).
    apply list_elem_of_lookup in Hv as [j Hj].
    destruct (Forall2_lookup_l _ _ _ _ _ Hscaled Hj) as (k & Hk & Hvk).
    exists k. split; [apply list_elem_of_lookup; eauto|].
    unfold_Qfloat. rewrite Hvk. change (inject_Z 1) with 1%Q. ring.
  - eexists. exact Hrow.
  - exists fuel. exact Hfuel.
Qed.

Lemma payloads_in_tonnes_witness :
  let E := example_collaborators in
  let ac := example_aircraft in
  let spec := example_sweep_spec in
  let coeff := breguet_leduc_coeff E ac in
  let x0 := (sizing_range ac * 10)%Q in
  (breguet_leduc_points E ac).2
    = map (λ m : Q, (m / 1000)%Q)
          [max_payload ac; max_payload ac; (mtow ac - mfw ac - owe ac)%Q; 0%Q;
           sizing_payload ac] ∧
  (breguet_leduc_points E ac).1 !! 2
    = Some (breguet_leduc_formula E (mtow ac) (mtow ac - mfw ac)%Q coeff x0) ∧
  (breguet_leduc_points E ac).1 !! 3
    = Some (breguet_leduc_formula E (owe ac + mfw ac)%Q (owe ac) coeff x0) ∧
  (breguet_leduc_points E ac).1 !! 4 = Some (sizing_range ac) ∧
  ∃ fig g cnt out (bands_kg : list Q) rows,
    grid_generation E ac [] spec true = Ok (fig, g, cnt, out) ∧
    np_linspace (lower_limit_box_tolerance spec * max_payload ac)%Q
      (upper_limit_box_tolerance spec * max_payload ac)%Q
      (n_intervals_payloads spec) = Ok bands_kg ∧
    example_swept.1 !! pth_join "data" "loop_results.txt" = Some (TableFile rows) ∧
    ∀ i (r p : Q), g_ranges g !! i = Some r → g_payloads g !! i = Some p →
      (∃ v : Q, v ∈ bands_kg ∧ (p == v / 1000)%Q) ∧
      (∃ c : Q, rows !! i = Some [r; p; c]) ∧
      (∃ fuel, evaluate_mission example_simulator p (r * 1000 * (1852 / 1000))%Q
               = Ok fuel).
Proof.
  apply (payloads_in_tonnes example_collaborators example_simulator example_aircraft
           example_sweep_spec "data" "loop_results.txt" ∅).
  exact example_swept_completed.
Defined.

(** ** Reloading a sweep that was never run *)

(** C2 fails on the code: when the file of grid parameters is missing,
    [payload_range_full] raises the [FileNotFoundError] of [open]; the file is
    opened before the [try], so nothing catches it and nothing is printed. *)
Theorem missing_grid_file_propagates {F : FloatOps} {R : FloatRepr F}
    (E : collaborators) (ac : aircraft) (fig : figure)
    (folder file_save : string) (show_grid : bool) (fs : gmap string file) :
  fs !! pth_join folder ("grid_" +:+ file_save) = None →
  payload_range_full E ac fig folder file_save show_grid fs
    = Raise (FileNotFoundError (pth_join folder ("grid_" +:+ file_save))).
Proof.
  intros Hfs. unfold payload_range_full, read_grid_file, open_readlines.
  rewrite Hfs. reflexivity.
Qed.

Lemma missing_grid_file_propagates_witness :
  (∅ : gmap string (@file Qfloat)) !! pth_join "data" ("grid_" +:+ "loop_results.txt")
    = None ∧
  payload_range_full example_collaborators example_aircraft [] "data"
    "loop_results.txt" true ∅
    = Raise (FileNotFoundError "data/grid_loop_results.txt").
Proof.
  split; [reflexivity|].
  apply (missing_grid_file_propagates example_collaborators example_aircraft []
           "data" "loop_results.txt" true ∅).
  reflexivity.
Defined.

(** The path the [try] does cover: with the grid parameters in place and
    only the table missing, the figure of the grid is returned and the
    message asking to run the sweep first is printed. *)
Lemma missing_table_is_reported {F : FloatOps} {R : FloatRepr F}
    (E : collaborators) (ac : aircraft) (fig fig' : figure) (spec : GridSpec)
    (folder file_save : string) (show_grid : bool) (fs : gmap string file)
    (g : grid) (cnt : list nat) (out : list string) (step : Z) :
  range_step spec = PyInt step →
  fs !! pth_join folder ("grid_" +:+ file_save)
    = Some (TextFile (grid_file_lines file_save spec)) →
  fs !! pth_join folder file_save = None →
  grid_generation E ac fig spec show_grid = Ok (fig', g, cnt, out) →
  payload_range_full E ac fig folder file_save show_grid fs
    = Ok (fig', out ++ [no_results_message]).
Proof.
  intros Hstep Hdesc Htable Hgrid. unfold payload_range_full.
  rewrite (read_written_grid_file _ _ _ _ _ Hstep Hdesc). cbn [mbind result_bind].
  rewrite Hgrid. cbn [mbind result_bind].
  unfold load_surface, np_loadtxt. rewrite Htable. reflexivity.
Qed.

(** ** The shape of the reloaded surface *)

Lemma sum_list_take_le (l : list nat) (i c : nat) :
  l !! i = Some c → sum_list (take i l) + c ≤ sum_list l.
Proof.
  intros Hi. rewrite <- (take_drop_middle l i c Hi) at 2.
  rewrite sum_list_app. unfold sum_list at 3. simpl. lia.
Qed.

Lemma column_length {F : FloatOps} (k : nat) (rows : list (list num)) :
  Forall (λ row : list num, k < length row) rows →
  length (column k rows) = length rows.
Proof.
  unfold column. induction 1 as [|row rows Hrow _ IH]; simpl; [reflexivity|].
  destruct (lookup_lt_is_Some_2 row k Hrow) as [x Hx]. rewrite Hx. simpl.
  f_equal. exact IH.
Qed.

Section Surface.
Context {F : FloatOps} {R : FloatRepr F}.
Local Open Scope float_scope.

(** The loop filling [z] runs to its end when the table holds as many
    values as the counts add up to, and fills every row. *)
Lemma fill_rows (col0 col1 col2 : list num) (cnt : list nat) (c0 : nat) :
  sum_list cnt ≤ length col2 →
  ∃ z, for_range 0 (length cnt)
         (fill_row (Array2 [col0; col1; col2]) cnt)
         (replicate (length cnt) (replicate c0 None)) = Ok z ∧
       length z = length cnt ∧
       ∀ i ci, cnt !! i = Some ci →
         ∃ row, z !! i = Some row ∧ filled_row c0 ci row.
Proof.
  intros Hsum.
  pose (J := λ (k : nat) (z : list (list (option num))),
    length z = length cnt ∧
    (∀ i ci, (i < k)%nat → cnt !! i = Some ci →
       ∃ row, z !! i = Some row ∧ filled_row c0 ci row) ∧
    (∀ i, (k ≤ i < length cnt)%nat → z !! i = Some (replicate c0 None))).
  destruct (for_range_total J (fill_row (Array2 [col0; col1; col2]) cnt)
              (length cnt) 0 (replicate (length cnt) (replicate c0 None)))
    as (z & Hrun & Hlen & Hdone & _).
  - split; [apply length_replicate|]. split.
    + intros i ci Hi. lia.
    + intros i Hi. apply lookup_replicate. split; [reflexivity|lia].
  - intros k z Hk (Hlen & Hdone & Htodo).
    destruct (lookup_lt_is_Some_2 cnt k) as [ck Hck]; [lia|].
    unfold fill_row.
    rewrite (proj2 (getitem_nat cnt k ck) Hck). cbn [mbind result_bind].
    change (ndarray_row (Array2 [col0; col1; col2]) 2) with (Ok col2).
    cbn [mbind result_bind].
    rewrite (proj2 (getitem_nat z k (replicate c0 None)) (Htodo k ltac:(lia))).
    cbn [mbind result_bind].
    eexists. split; [reflexivity|].
    split; [rewrite length_insert; exact Hlen|]. split.
    + intros i ci Hi Hci.
      destruct (decide (i = k)) as [->|Hne].
      * rewrite list_lookup_insert_eq by lia.
        rewrite Hck in Hci. injection Hci as <-.
        eexists. split; [reflexivity|].
        exists (slice col2 (sum_list (slice cnt 0 k))
                  (sum_list (slice cnt 0 k) + ck)).
        split.
        -- unfold slice. rewrite length_take, length_drop, Nat.sub_0_r, drop_0.
           pose proof (sum_list_take_le cnt k ck Hck). lia.
        -- unfold set_slice0. rewrite drop_replicate. reflexivity.
      * rewrite list_lookup_insert_ne by congruence.
        apply Hdone; [lia|exact Hci].
    + intros i Hi. rewrite list_lookup_insert_ne by lia. apply Htodo. lia.
  - exists z. split; [exact Hrun|]. split; [exact Hlen|].
    intros i ci Hci. apply Hdone; [|exact Hci].
    apply lookup_lt_Some in Hci. lia.
Qed.
End Surface.

Section SurfaceShape.
Context {F : FloatOps} {R : FloatRepr F}.
Local Open Scope float_scope.

(** The shape law: reloading a completed sweep whose grid holds at least two
    points returns a contour whose [y] has one entry per band and whose [z]
    has one row per band, row [i] holding [n_values_ranges[i]] values and
    then unset cells. *)
Lemma reloaded_surface_shape (E : collaborators) (sim : simulator) (ac : aircraft)
    (spec : GridSpec) (folder file_save : string) (fs fs' : gmap string file)
    (fig : figure) (g : grid) (cnt : list nat) (out : list string)
    (fig0 : figure) (show0 : bool) (step : Z) :
  range_step spec = PyInt step →
  payload_range_loop_computation E sim ac spec folder file_save fs = (fs', Ok ()) →
  grid_generation E ac [] spec true = Ok (fig, g, cnt, out) →
  (2 ≤ length (g_ranges g))%nat →
  ∃ fig' out' x y z c0,
    payload_range_full E ac fig0 folder file_save show0 fs'
      = Ok (fig' ++ [Contour x y z], out') ∧
    cnt !! 0%nat = Some c0 ∧
    length cnt = Z.to_nat (n_intervals_payloads spec) ∧
    length y = Z.to_nat (n_intervals_payloads spec) ∧
    length z = Z.to_nat (n_intervals_payloads spec) ∧
    ∀ i ci, cnt !! i = Some ci → ∃ row, z !! i = Some row ∧ filled_row c0 ci row.
Proof.
  intros Hstep Hsweep Hgrid Hpoints.
  pose proof (sweep_table_rows _ _ _ _ _ _ _ _ Hsweep)
    as (fig1 & g1 & cnt1 & out1 & rows & Hgrid1 & Htable & Hrlen & Hrows).
  rewrite Hgrid in Hgrid1. injection Hgrid1 as <- <- <- <-.
  apply sweep_completed in Hsweep as (_ & _ & _ & _ & _ & _ & _ & _ & Hdesc).
  destruct (grid_generation_figure_independent _ _ _ _ _ _ _ _ _ Hgrid fig0 show0)
    as [fig0' Hgrid0].
  (* the counts *)
  pose proof Hgrid as Hg. unfold grid_generation in Hg.
  destruct (breguet_leduc_points E ac) as [BLr BLp].
  apply grid_of_envelope_rows in Hg
    as (mp & val & grows & _ & Hval & Hgr & _ & _ & Hcnt & _ & Hall & _).
  destruct (np_linspace_length _ _ _ _ Hval) as [Hn _].
  assert (Hsum : sum_list cnt = length (g_ranges g)).
  { rewrite Hcnt, Hgr, length_concat_sum. reflexivity. }
  assert (Hclen : length cnt = Z.to_nat (n_intervals_payloads spec)).
  { rewrite Hcnt, length_map. destruct Hall as [->|Hall]; [|exact Hall].
    rewrite Hgr in Hpoints. simpl in Hpoints. lia. }
  assert (Hc0 : ∃ c0, cnt !! 0%nat = Some c0).
  { apply lookup_lt_is_Some_2. destruct cnt; [|simpl; lia].
    unfold sum_list in Hsum. simpl in Hsum. lia. }
  destruct Hc0 as [c0 Hc0].
  (* the table read back *)
  assert (Hrows3 : ∀ k, (k < 3)%nat → Forall (λ row : list num, (k < length row)%nat) rows).
  { intros k Hk. apply Forall_forall. intros row Hrow.
    apply list_elem_of_lookup in Hrow as [i Hi].
    destruct (lookup_lt_is_Some_2 (g_ranges g) i) as [r Hr].
    { apply lookup_lt_Some in Hi. lia. }
    destruct (Hrows i r Hr) as (p & fuel & _ & _ & Hrow).
    rewrite Hi in Hrow. injection Hrow as ->. simpl. lia. }
  assert (Hload : np_loadtxt fs' (pth_join folder file_save) = Ok (Array2 rows)).
  { unfold np_loadtxt. rewrite Htable.
    destruct rows as [|r1 [|r2 rows']]; simpl in Hrlen; try lia. reflexivity. }
  pose proof (column_length 1 rows (Hrows3 1%nat ltac:(lia))) as Hcol1.
  pose proof (column_length 2 rows (Hrows3 2%nat ltac:(lia))) as Hcol2.
  destruct (column 1 rows) as [|p1 col1'] eqn:Ecol1; [simpl in Hcol1; lia|].
  destruct (np_linspace_total
              (foldl (λ cur x, if x <? cur then x else cur) p1 col1')
              (foldl (λ cur x, if cur <? x then x else cur) p1 col1')
              _ Hn) as [y Hy].
  destruct (fill_rows (column 0 rows) (p1 :: col1') (column 2 rows) cnt c0)
    as (z & Hz & Hzlen & Hzrows); [lia|].
  (* the run of payload_range_full *)
  exists fig0', out, (slice (column 0 rows) 0 c0), y, z, c0.
  split.
  { unfold payload_range_full.
    rewrite (read_written_grid_file _ _ _ _ _ Hstep Hdesc). cbn [mbind result_bind].
    rewrite Hgrid0. cbn [mbind result_bind].
    replace (if alternative_grid spec then Z.of_nat (length cnt)
             else n_intervals_payloads spec)
      with (n_intervals_payloads spec)
      by (destruct (alternative_grid spec); lia).
    unfold load_surface. rewrite Hload. cbn [mbind result_bind ndarray_T].
    rewrite Ecol1.
    assert (Hg0 : getitem cnt 0 = Ok c0) by exact (proj2 (getitem_nat cnt 0 c0) Hc0).
    rewrite Hg0. cbn [mbind result_bind].
    change (ndarray_row (Array2 [column 0 rows; p1 :: col1'; column 2 rows]) 0)
      with (Ok (column 0 rows)).
    change (ndarray_row (Array2 [column 0 rows; p1 :: col1'; column 2 rows]) 1)
      with (Ok (p1 :: col1')).
    cbn [mbind result_bind py_min py_max]. rewrite Hy. cbn [mbind result_bind].
    rewrite <- Hclen, Hz. reflexivity. }
  split; [exact Hc0|]. split; [exact Hclen|].
  split; [apply np_linspace_length in Hy as [_ Hy]; exact Hy|].
  split; [rewrite Hzlen; exact Hclen|exact Hzrows].
Qed.
End SurfaceShape.

(** ** Reloading a sweep of a single point *)

Lemma getitem_raises {A} (l : list A) (i : Z) (e : exn) :
  getitem l i = Raise e → e = IndexError.
Proof.
  unfold getitem.
  destruct (_ <? 0)%Z; [intros [= <-]; reflexivity|].
  destruct (l !! _); [discriminate|intros [= <-]; reflexivity].
Qed.

Definition example_one_point_swept : gmap string file * result unit :=
  payload_range_loop_computation example_collaborators example_simulator
    example_aircraft example_one_point_spec "data" "loop_results.txt" ∅.

Lemma example_one_point_swept_completed :
  example_one_point_swept = (example_one_point_swept.1, Ok ()).
Proof.
  assert (H : example_one_point_swept.2 = Ok ()) by (vm_compute; reflexivity).
  destruct example_one_point_swept as [fs r]. simpl in *. rewrite H. reflexivity.
Qed.

(** C3 fails on the code for a sweep of a single grid point:
    [np.loadtxt] returns the one-row table as a one-dimensional array, and
    [results[0, ...]] raises [IndexError], which the [try] does not catch.
    (For two points or more the shape law holds, [reloaded_surface_shape].) *)
Theorem one_point_sweep_cannot_be_reloaded {F : FloatOps} {R : FloatRepr F}
    (E : collaborators) (sim : simulator) (ac : aircraft) (spec : GridSpec)
    (folder file_save : string) (fs fs' : gmap string file)
    (fig : figure) (g : grid) (cnt : list nat) (out : list string)
    (fig0 : figure) (show0 : bool) (step : Z) :
  range_step spec = PyInt step →
  payload_range_loop_computation E sim ac spec folder file_save fs = (fs', Ok ()) →
  grid_generation E ac [] spec true = Ok (fig, g, cnt, out) →
  length (g_ranges g) = 1 →
  payload_range_full E ac fig0 folder file_save show0 fs' = Raise IndexError.
Proof.
  intros Hstep Hsweep Hgrid Hpoints.
  pose proof (sweep_table_rows _ _ _ _ _ _ _ _ Hsweep)
    as (fig1 & g1 & cnt1 & out1 & rows & Hgrid1 & Htable & Hrlen & _).
  rewrite Hgrid in Hgrid1. injection Hgrid1 as <- <- <- <-.
  apply sweep_completed in Hsweep as (_ & _ & _ & _ & _ & _ & _ & _ & Hdesc).
  destruct (grid_generation_figure_independent _ _ _ _ _ _ _ _ _ Hgrid fig0 show0)
    as [fig0' Hgrid0].
  unfold payload_range_full.
  rewrite (read_written_grid_file _ _ _ _ _ Hstep Hdesc). cbn [mbind result_bind].
  rewrite Hgrid0. cbn [mbind result_bind].
  unfold load_surface, np_loadtxt. rewrite Htable.
  destruct rows as [|row [|row' rows']]; simpl in Hrlen; try lia.
  cbn [mbind result_bind ndarray_T].
  destruct (getitem cnt 0) as [c0|e] eqn:Hc0; cbn [mbind result_bind].
  - reflexivity.
  - apply getitem_raises in Hc0 as ->. reflexivity.
Qed.

Lemma one_point_sweep_cannot_be_reloaded_witness :
  grid_generation example_collaborators example_aircraft [] example_one_point_spec true
    = Ok (example_one_point_figure, example_one_point_grid,
          example_one_point_counts, example_one_point_out) ∧
  example_one_point_counts = [1; 0] ∧
  length (g_ranges example_one_point_grid) = 1 ∧
  payload_range_full example_collaborators example_aircraft [] "data"
    "loop_results.txt" true example_one_point_swept.1
    = Raise IndexError.
Proof.
  split; [reflexivity|]. split; [reflexivity|]. split; [reflexivity|].
  apply (one_point_sweep_cannot_be_reloaded example_collaborators example_simulator
           example_aircraft example_one_point_spec "data" "loop_results.txt" ∅
           example_one_point_swept.1 example_one_point_figure example_one_point_grid
           example_one_point_counts example_one_point_out [] true 3000%Z).
  - reflexivity.
  - exact example_one_point_swept_completed.
  - reflexivity.
  - reflexivity.
Defined.

(** The shape law on the worked sweep: two bands of 5 and 4 points, a [y]
    of two payloads, and rows of 5 and 4 values, the second one padded by
    one unset cell. *)
Example reloaded_surface_shape_on_worked_sweep :
  ∃ fig' out' x y z,
    payload_range_full example_collaborators example_aircraft [] "data"
      "loop_results.txt" false example_swept.1
      = Ok (fig' ++ [Contour x y z], out') ∧
    length y = 2 ∧ length z = 2 ∧
    (∃ row, z !! 0 = Some row ∧ filled_row 5 5 row) ∧
    (∃ row, z !! 1 = Some row ∧ filled_row 5 4 row).
Proof.
  assert (Hgrid : grid_generation example_collaborators example_aircraft []
                    example_sweep_spec true
                  = Ok (example_sweep_figure, example_sweep_grid, [5; 4],
                        example_sweep_out))
    by reflexivity.
  assert (Hpoints : 2 ≤ length (g_ranges example_sweep_grid))
    by (apply (Nat.leb_le 2); reflexivity).
  pose proof (reloaded_surface_shape example_collaborators example_simulator
                example_aircraft example_sweep_spec "data" "loop_results.txt" ∅
                example_swept.1 example_sweep_figure example_sweep_grid [5; 4]
                example_sweep_out [] false 500%Z) as H.
  specialize (H eq_refl).
  specialize (H example_swept_completed). specialize (H Hgrid Hpoints).
  destruct H as (fig' & out' & x & y & z & c0 & Hrun & Hc0 & _ & Hy & Hz & Hrows).
  injection Hc0 as <-.
  exists fig', out', x, y, z.
  split; [exact Hrun|]. split; [exact Hy|]. split; [exact Hz|].
  split; [apply (Hrows 0 5); reflexivity|apply (Hrows 1 4); reflexivity].
Qed.

(** ** The layout of the grid *)

Lemma for_range_app {St} (body : nat → St → result St) :
  ∀ a b start s,
    for_range start (a + b) body s
    = for_range start a body s ≫= for_range (start + a) b body.
Proof.
  induction a as [|a IH]; intros b start s; simpl.
  - rewrite Nat.add_0_r. reflexivity.
  - destruct (body start s) as [s'|e]; simpl; [|reflexivity].
    rewrite IH. replace (S start + a) with (start + S a) by lia. reflexivity.
Qed.

Lemma concat_lookup {A} (rows : list (list A)) :
  ∀ i row j x,
    rows !! i = Some row → row !! j = Some x →
    concat rows !! (sum_list (map length (take i rows)) + j) = Some x.
Proof.
  induction rows as [|r rows IH]; intros i row j x Hi Hj; [discriminate|].
  destruct i as [|i]; simpl in *.
  - injection Hi as ->. apply lookup_app_l_Some. exact Hj.
  - unfold sum_list. simpl. fold (sum_list (map length (take i rows))).
    rewrite lookup_app_r by lia.
    replace (length r + sum_list (map length (take i rows)) + j - length r)
      with (sum_list (map length (take i rows)) + j) by lia.
    apply (IH i row j x Hi Hj).
Qed.

Section GridLayout.
Context {F : FloatOps}.
Local Open Scope float_scope.

Lemma length_np_ones_times (k : nat) (v : num) : length (np_ones_times k v) = k.
Proof. unfold np_ones_times. rewrite length_map, length_replicate. reflexivity. Qed.

Lemma lookup_np_ones_times (k j : nat) (v : num) :
  (j < k)%nat → np_ones_times k v !! j = Some (1 * v).
Proof.
  intros Hj. unfold np_ones_times. rewrite list_lookup_fmap.
  rewrite (proj2 (lookup_replicate k 1 1 j)) by auto. reflexivity.
Qed.

Lemma map_length_zip_with_ones (rows : list (list num)) (vals : list num) :
  (length rows ≤ length vals)%nat →
  map length (zip_with (λ row v, np_ones_times (length row) v) rows vals)
  = map length rows.
Proof.
  revert vals. induction rows as [|row rows IH]; intros vals Hlen; [reflexivity|].
  destruct vals as [|v vals]; simpl in *; [lia|].
  rewrite length_np_ones_times, IH by lia. reflexivity.
Qed.

(** The points of band [i] stand one after the other from position
    [sum(n_values_ranges[0:i])] on, all at the payload of the band. *)
Lemma grid_rows_lookup (rows : list (list num)) (vals : list num)
    (i j : nat) (row : list num) :
  (length rows ≤ length vals)%nat →
  rows !! i = Some row → (j < length row)%nat →
  ∃ v r,
    vals !! i = Some v ∧ row !! j = Some r ∧
    concat rows !! (sum_list (take i (map length rows)) + j)%nat = Some r ∧
    concat (zip_with (λ row v, np_ones_times (length row) v) rows vals)
      !! (sum_list (take i (map length rows)) + j)%nat = Some (1 * v).
Proof.
  intros Hlen Hrow Hj.
  destruct (lookup_lt_is_Some_2 vals i) as [v Hv].
  { apply lookup_lt_Some in Hrow. lia. }
  destruct (lookup_lt_is_Some_2 row j Hj) as [r Hr].
  exists v, r. split; [exact Hv|]. split; [exact Hr|].
  rewrite firstn_map. split.
  - apply (concat_lookup rows i row j r Hrow Hr).
  - rewrite <- (map_length_zip_with_ones (take i rows) (take i vals)).
    2:{ rewrite !length_take. lia. }
    rewrite <- zip_with_take.
    apply (concat_lookup _ i (np_ones_times (length row) v)).
    + apply lookup_zip_with_Some. exists row, v. auto.
    + apply lookup_np_ones_times, Hj.
Qed.
End GridLayout.

(** X1: the arrays of a generated grid agree, under both policies.  The
    payloads are as many as the ranges, the consumptions are as many zeros,
    the counts add up to the number of grid points, which is the number
    printed, and there is one count per band (or none at all, when the
    alternative policy finds no room). *)
Theorem grid_arrays_agree {F : FloatOps} (BL_ranges BL_payloads : list num)
    (fig fig' : figure) (spec : GridSpec) (show_grid : bool) (g : grid)
    (cnt : list nat) (out : list string) :
  grid_of_envelope BL_ranges BL_payloads fig spec show_grid = Ok (fig', g, cnt, out) →
  length (g_payloads g) = length (g_ranges g) ∧
  g_consumption g = replicate (length (g_ranges g)) 0%F ∧
  sum_list cnt = length (g_ranges g) ∧
  (cnt = [] ∨ length cnt = Z.to_nat (n_intervals_payloads spec)) ∧
  out = [number_of_points_line (sum_list cnt)].
Proof.
  intros H.
  pose proof (grid_of_envelope_Ok _ _ _ _ _ _ _ _ _ H)
    as (_ & _ & _ & _ & _ & _ & _ & gr & gp & _ & _ & _ & _ & _ & _ & _ & Hg & Hout).
  apply grid_of_envelope_rows in H
    as (mp & val & rows & _ & _ & Hgr & Hgp & Hgc & Hcnt & Hlen & Hall & _).
  assert (Hsum : sum_list cnt = length (g_ranges g)).
  { rewrite Hcnt, Hgr, length_concat_sum. reflexivity. }
  split; [rewrite Hgp, Hgr; apply length_concat_zip_with_ones, Hlen|].
  split; [exact Hgc|]. split; [exact Hsum|]. split.
  - rewrite Hcnt. destruct Hall as [->|Hall]; [left; reflexivity|].
    right. rewrite length_map. exact Hall.
  - rewrite Hsum, Hout, Hg. reflexivity.
Qed.

Lemma grid_arrays_agree_witness :
  length (g_payloads example_grid) = length (g_ranges example_grid) ∧
  g_consumption example_grid = replicate (length (g_ranges example_grid)) 0%Q ∧
  sum_list example_counts = length (g_ranges example_grid) ∧
  (example_counts = [] ∨
   length example_counts = Z.to_nat (n_intervals_payloads example_spec)) ∧
  example_out = [number_of_points_line (sum_list example_counts)].
Proof.
  apply (@grid_arrays_agree Qfloat example_ranges example_payloads [] example_figure
           example_spec false example_grid example_counts example_out).
  reflexivity.
Defined.

(** X2: the grid is stored band by band, under both policies.  The points
    of band [i] are the [n_values_ranges[i]] points from position
    [sum(n_values_ranges[0:i])] on, and each carries the payload of band [i],
    [np.ones(...) * val_payloads[i]].  This is the layout
    [payload_range_full] relies on to cut the table into the rows of [z]. *)
Theorem grid_points_band_by_band {F : FloatOps} (BL_ranges BL_payloads : list num)
    (fig fig' : figure) (spec : GridSpec) (show_grid : bool) (g : grid)
    (cnt : list nat) (out : list string) :
  grid_of_envelope BL_ranges BL_payloads fig spec show_grid = Ok (fig', g, cnt, out) →
  ∃ (max_payload : num) (val_payloads : list num),
    getitem BL_payloads 0 = Ok max_payload ∧
    np_linspace (lower_limit_box_tolerance spec * max_payload)%F
      (upper_limit_box_tolerance spec * max_payload)%F (n_intervals_payloads spec)
      = Ok val_payloads ∧
    ∀ i ci j, cnt !! i = Some ci → j < ci →
      ∃ v r,
        val_payloads !! i = Some v ∧
        g_ranges g !! (sum_list (take i cnt) + j) = Some r ∧
        g_payloads g !! (sum_list (take i cnt) + j) = Some (1 * v)%F.
Proof.
  intros H.
  apply grid_of_envelope_rows in H
    as (mp & val & rows & Hmp & Hval & Hgr & Hgp & _ & Hcnt & Hlen & _ & _).
  exists mp, val. split; [exact Hmp|]. split; [exact Hval|].
  intros i ci j Hci Hj. rewrite Hcnt, list_lookup_fmap in Hci.
  destruct (rows !! i) as [row|] eqn:Hrow; [|discriminate].
  injection Hci as <-.
  destruct (grid_rows_lookup rows val i j row Hlen Hrow Hj)
    as (v & r & Hv & _ & Hr & Hp).
  exists v, r. rewrite Hcnt, Hgr, Hgp. auto.
Qed.

Lemma grid_points_band_by_band_witness :
  ∃ (max_payload : Q) (val_payloads : list Q),
    getitem example_payloads 0 = Ok max_payload ∧
    np_linspace (lower_limit_box_tolerance example_spec * max_payload)%Q
      (upper_limit_box_tolerance example_spec * max_payload)%Q
      (n_intervals_payloads example_spec) = Ok val_payloads ∧
    ∀ i ci j, example_counts !! i = Some ci → j < ci →
      ∃ v r,
        val_payloads !! i = Some v ∧
        g_ranges example_grid !! (sum_list (take i example_counts) + j) = Some r ∧
        g_payloads example_grid !! (sum_list (take i example_counts) + j)
          = Some (1 * v)%Q.
Proof.
  apply (@grid_points_band_by_band Qfloat example_ranges example_payloads []
           example_figure example_spec false example_grid example_counts example_out).
  reflexivity.
Defined.

(** ** Too few bands *)

Section FewBands.
Context {F : FloatOps}.
Local Open Scope float_scope.

(** The envelope always holds five points. *)
Lemma breguet_leduc_points_five (E : collaborators) (ac : aircraft) :
  ∃ ra_b ra_c ra_d mp pc pd ps,
    breguet_leduc_points E ac
    = ([0; ra_b; ra_c; ra_d; sizing_range ac], [mp; mp; pc; pd; ps]).
Proof. unfold breguet_leduc_points. cbn [map]. repeat eexists. Qed.

(** On an envelope of five points the five reads cannot fail. *)
Lemma grid_of_envelope_five (ra_a ra_b ra_c ra_d ra_s mp pb pc pd ps : num)
    (fig : figure) (spec : GridSpec) (show_grid : bool) :
  grid_of_envelope [ra_a; ra_b; ra_c; ra_d; ra_s] [mp; pb; pc; pd; ps] fig spec show_grid
  = ('(val_payloads, max_range) ← grid_payload_bands spec mp pc ra_b ra_c ra_d;
     '(grid_ranges, grid_payloads, n_values_ranges) ←
       (if alternative_grid spec
        then alternative_grid_points (Z.to_nat (n_intervals_payloads spec))
               val_payloads max_range (grid_min_range spec ra_b) ra_b ra_c mp pc
               (range_step spec)
        else rectangular_grid (Z.to_nat (n_intervals_payloads spec)) val_payloads
               max_range (grid_min_range spec ra_b) (range_step spec));
     let grid := Grid grid_ranges grid_payloads (replicate (length grid_ranges) 0) in
     let out := [number_of_points_line (length (g_ranges grid))] in
     let fig := fig ++ [Scatter [ra_a; ra_b; ra_c; ra_d] [mp; pb; pc; pd] "lines"] in
     let fig := if show_grid
                then fig ++ [Scatter (g_ranges grid) (g_payloads grid) "markers"]
                else fig in
     Ok (fig, grid, n_values_ranges, out)).
Proof. reflexivity. Qed.

Lemma grid_payload_bands_few (spec : GridSpec) (mp pc ra_b ra_c ra_d : num) :
  (n_intervals_payloads spec ≤ 0)%Z →
  grid_payload_bands spec mp pc ra_b ra_c ra_d
    = Raise (if (n_intervals_payloads spec <? 0)%Z then ValueError else IndexError).
Proof.
  intros Hn. unfold grid_payload_bands, np_linspace.
  destruct (Z.ltb_spec (n_intervals_payloads spec) 0) as [Hlt|Hge]; [reflexivity|].
  replace (n_intervals_payloads spec) with 0%Z by lia. reflexivity.
Qed.

Lemma alternative_grid_one_band (spec : GridSpec) (mp pc ra_b ra_c ra_d : num) :
  n_intervals_payloads spec = 1%Z →
  (val_max ← grid_payload_bands spec mp pc ra_b ra_c ra_d;
   alternative_grid_points 1 val_max.1 val_max.2 (grid_min_range spec ra_b) ra_b
     ra_c mp pc (range_step spec)) = Raise IndexError.
Proof.
  intros Hn. unfold grid_payload_bands, np_linspace. rewrite Hn.
  change (1 <? 0)%Z with false. change (Z.to_nat 1) with 1%nat.
  cbn [mbind result_bind]. unfold np_where. cbn [np_where_from].
  destruct (pc <=? lower_limit_box_tolerance spec * mp); reflexivity.
Qed.
End FewBands.

(** X3: [grid_generation] needs at least one band.  With
    [n_intervals_payloads = 0] the bands are an empty array and the search for
    the breakpoint raises [IndexError]; a negative number is refused by
    [np.linspace] with [ValueError]. *)
Theorem grid_generation_without_bands {F : FloatOps} (E : collaborators)
    (ac : aircraft) (fig : figure) (spec : GridSpec) (show_grid : bool) :
  (n_intervals_payloads spec ≤ 0)%Z →
  grid_generation E ac fig spec show_grid
    = Raise (if (n_intervals_payloads spec <? 0)%Z then ValueError else IndexError).
Proof.
  intros Hn. unfold grid_generation.
  destruct (breguet_leduc_points_five E ac)
    as (ra_b & ra_c & ra_d & mp & pc & pd & ps & ->).
  rewrite grid_of_envelope_five, (grid_payload_bands_few spec _ _ _ _ _ Hn).
  reflexivity.
Qed.

Lemma grid_generation_without_bands_witness :
  (n_intervals_payloads example_no_band_spec ≤ 0)%Z ∧
  grid_generation example_collaborators example_aircraft [] example_no_band_spec true
    = Raise IndexError.
Proof.
  split; [simpl; lia|].
  apply (grid_generation_without_bands example_collaborators example_aircraft []
           example_no_band_spec true).
  simpl. lia.
Defined.

(** X4: the alternative policy needs two bands: it reads
    [val_payloads[1]] for the payload step, so with a single band
    [grid_generation] raises [IndexError], whatever the envelope. *)
Theorem alternative_grid_needs_two_bands {F : FloatOps} (E : collaborators)
    (ac : aircraft) (fig : figure) (spec : GridSpec) (show_grid : bool) :
  alternative_grid spec = true →
  n_intervals_payloads spec = 1%Z →
  grid_generation E ac fig spec show_grid = Raise IndexError.
Proof.
  intros Halt Hn. unfold grid_generation.
  destruct (breguet_leduc_points_five E ac)
    as (ra_b & ra_c & ra_d & mp & pc & pd & ps & ->).
  rewrite grid_of_envelope_five, Halt.
  pose proof (alternative_grid_one_band spec mp pc ra_b ra_c ra_d Hn) as H.
  rewrite Hn. change (Z.to_nat 1) with 1%nat.
  destruct (grid_payload_bands spec mp pc ra_b ra_c ra_d) as [[val mr]|e];
    cbn [mbind result_bind fst snd] in *.
  - rewrite H. reflexivity.
  - injection H as ->. reflexivity.
Qed.

Lemma alternative_grid_needs_two_bands_witness :
  grid_generation example_collaborators example_aircraft [] example_one_band_spec true
    = Raise IndexError.
Proof.
  apply (alternative_grid_needs_two_bands example_collaborators example_aircraft []
           example_one_band_spec true); reflexivity.
Defined.

(** ** The rows of the rectangular grid, sample by sample *)

Lemma getitem_from_end {A} (l : list A) (k : nat) (x : A) :
  getitem l (- 1 - Z.of_nat k) = Ok x ↔ reverse l !! k = Some x.
Proof.
  rewrite getitem_neg. split.
  - intros [Hk Hx]. rewrite reverse_lookup by exact Hk.
    replace (length l - S k) with (length l - 1 - k) by lia. exact Hx.
  - intros Hx. apply lookup_lt_Some in Hx as Hk. rewrite length_reverse in Hk.
    split; [exact Hk|]. rewrite reverse_lookup in Hx by exact Hk.
    replace (length l - 1 - k) with (length l - S k) by lia. exact Hx.
Qed.

Section RectangularRows.
Context {F : FloatOps}.
Local Open Scope float_scope.

(** Row [i] is the base row followed by the maximum ranges of the bands
    [n - 2], [n - 3], ..., [i], in this order. *)
Lemma rectangular_grid_rows_explicit (n : nat) (val_payloads max_range : list num)
    (min_range : num) (step : number) (gr gp : list num) (cnt : list nat) :
  rectangular_grid n val_payloads max_range min_range step = Ok (gr, gp, cnt) →
  ∃ (m : num) (base : list num) (rows : list (list num)),
    last max_range = Some m ∧
    np_arange m min_range (number_value (number_neg step)) = Ok base ∧
    length rows = n ∧
    (n ≤ length max_range)%nat ∧
    (∀ i, (i < n)%nat →
       rows !! i = Some (reverse base
                         ++ take (n - 1 - i) (drop 1 (reverse max_range)))) ∧
    gr = concat rows ∧
    cnt = map length rows.
Proof.
  unfold rectangular_grid. intros H.
  bind_inv H. rename x into m, Hx into Hm.
  bind_inv H. rename x into base, Hx into Hbase.
  bind_inv H. rename x into gx, Hx into Hloop1.
  bind_inv H. destruct x as [[gr' gp'] cnt']. injection H as -> -> ->.
  rename Hx into Hloop2.
  apply getitem_last in Hm.
  assert (Hmr : (0 < length max_range)%nat).
  { rewrite last_lookup in Hm. apply lookup_lt_Some in Hm. lia. }
  set (tops := drop 1 (reverse max_range)) in *.
  (* first loop *)
  pose (I1 := λ (i : nat) (g : list (list num)),
    length g = n ∧ (i ≤ length max_range)%nat ∧
    ∀ j, (j < n)%nat →
      g !! j = Some (reverse base ++ if (j <? i)%nat then take j tops else [])).
  assert (Hgx : I1 (1 + (n - 1))%nat gx).
  { apply (for_range_invariant I1 _ _ _ _ _) with (3 := Hloop1).
    - split; [apply length_replicate|]. split; [lia|].
      intros j Hj. rewrite (proj2 (lookup_replicate _ _ _ _)) by auto.
      destruct j as [|j]; simpl; rewrite ?take_0, app_nil_r; reflexivity.
    - intros i t t' Hi (Hlen & Hle & Hrows) Hbody.
      bind_inv Hbody. rename x into prev, Hx into Hprev.
      bind_inv Hbody. rename x into mi, Hx into Hmi.
      injection Hbody as <-.
      replace (Z.of_nat i - 1)%Z with (Z.of_nat (i - 1)) in Hprev by lia.
      apply getitem_nat in Hprev. rewrite Hrows in Hprev by lia.
      injection Hprev as <-.
      apply getitem_from_end in Hmi.
      split; [rewrite length_insert; exact Hlen|].
      split.
      { apply lookup_lt_Some in Hmi. rewrite length_reverse in Hmi. lia. }
      intros j Hj.
      destruct (decide (i = j)) as [<-|Hne].
      + rewrite list_lookup_insert_eq by lia.
        destruct (Nat.ltb_spec (i - 1) i) as [_|]; [|lia].
        destruct (Nat.ltb_spec i (S i)) as [_|]; [|lia].
        rewrite <- app_assoc. do 2 f_equal.
        assert (Htop : tops !! (i - 1)%nat = Some mi).
        { unfold tops. rewrite lookup_drop.
          replace (1 + (i - 1))%nat with i by lia. exact Hmi. }
        rewrite <- (take_S_r tops (i - 1) mi Htop).
        replace (S (i - 1)) with i by lia. reflexivity.
      + rewrite list_lookup_insert_ne by exact Hne.
        rewrite Hrows by exact Hj. do 2 f_equal.
        destruct (Nat.ltb_spec j i); destruct (Nat.ltb_spec j (S i)); try lia;
          reflexivity. }
  destruct Hgx as (Hlen & Hle & Hrows).
  (* second loop *)
  set (rows := reverse gx) in *.
  assert (Hrlen : length rows = n) by (unfold rows; rewrite length_reverse; exact Hlen).
  pose (I2 := λ (i : nat) (st : list num * list num * list nat),
    st.1.1 = concat (take i rows) ∧
    st.2 = map length (take i rows) ++ replicate (n - i) 0%nat).
  assert (Hst : I2 (0 + n)%nat (gr, gp, cnt)).
  { apply (for_range_invariant I2 _ _ _ _ _) with (3 := Hloop2).
    - unfold I2. rewrite !take_0. simpl. rewrite Nat.sub_0_r. auto.
    - intros i [[t1 t2] t3] t' Hi [Ht1 Ht3] Hbody. simpl in Ht1, Ht3. subst t1 t3.
      bind_inv Hbody. rename x into row, Hx into Hrow.
      bind_inv Hbody. rename x into v, Hx into Hv.
      injection Hbody as <-.
      apply getitem_nat in Hrow.
      unfold I2. simpl.
      rewrite (take_S_r rows i row Hrow).
      rewrite concat_app. simpl. rewrite app_nil_r.
      split; [reflexivity|].
      rewrite map_app. simpl.
      rewrite insert_app_r_alt.
      2:{ rewrite length_map, length_take. lia. }
      rewrite length_map, length_take.
      apply lookup_lt_Some in Hrow.
      replace (i - i `min` length rows)%nat with 0%nat by lia.
      replace (n - i)%nat with (S (n - S i)) by lia. simpl.
      rewrite <- app_assoc. reflexivity. }
  destruct Hst as [Hgr Hcnt]. simpl in Hgr, Hcnt.
  rewrite Nat.sub_diag in Hcnt. simpl in Hcnt. rewrite app_nil_r in Hcnt.
  rewrite firstn_all2 in Hgr, Hcnt by lia.
  exists m, base, rows.
  split; [exact Hm|]. split; [exact Hbase|]. split; [exact Hrlen|].
  split; [destruct n; simpl in Hle; lia|].
  split; [|split; assumption].
  intros i Hi. unfold rows. rewrite reverse_lookup by lia.
  rewrite Hlen, Hrows by lia.
  destruct (Nat.ltb_spec (n - S i) (1 + (n - 1))) as [_|]; [|lia].
  replace (n - S i)%nat with (n - 1 - i)%nat by lia. reflexivity.
Qed.

(** Each row is the row of the next band followed by one more sample. *)
Lemma take_tops_step {A} (tops : list A) (k : nat) :
  (k < length tops)%nat →
  ∃ x, tops !! k = Some x ∧ take (S k) tops = take k tops ++ [x].
Proof.
  intros Hk. destruct (lookup_lt_is_Some_2 tops k Hk) as [x Hx].
  exists x. split; [exact Hx|]. apply take_S_r, Hx.
Qed.
End RectangularRows.

Lemma sum_list_staircase (L : nat) (l : list nat) :
  (∀ i c, l !! i = Some c → c = L + (length l - 1 - i)) →
  2 * sum_list l = length l * (2 * L + (length l - 1)).
Proof.
  induction l as [|c l IH]; intros Hl; [reflexivity|].
  assert (Hc : c = L + length l).
  { rewrite (Hl 0 c eq_refl). simpl. lia. }
  assert (IH' : 2 * sum_list l = length l * (2 * L + (length l - 1))).
  { apply IH. intros i c' Hi. rewrite (Hl (S i) c' Hi). simpl. lia. }
  unfold sum_list in *. simpl. destruct l as [|c' l']; simpl in *; nia.
Qed.

Section RectangularLayout.
Context {F : FloatOps}.
Local Open Scope float_scope.

(** The rows of a rectangular grid, from [grid_of_envelope]. *)
Lemma rectangular_envelope_rows (BL_ranges BL_payloads : list num) (fig fig' : figure)
    (spec : GridSpec) (show_grid : bool) (g : grid) (cnt : list nat)
    (out : list string) :
  alternative_grid spec = false →
  grid_of_envelope BL_ranges BL_payloads fig spec show_grid = Ok (fig', g, cnt, out) →
  ∃ mp pc ra_b ra_c ra_d val_payloads max_range (b : list num) (rows : list (list num)),
    getitem BL_payloads 0 = Ok mp ∧ getitem BL_payloads 2 = Ok pc ∧
    getitem BL_ranges 1 = Ok ra_b ∧ getitem BL_ranges 2 = Ok ra_c ∧
    getitem BL_ranges 3 = Ok ra_d ∧
    grid_payload_bands spec mp pc ra_b ra_c ra_d = Ok (val_payloads, max_range) ∧
    length max_range = Z.to_nat (n_intervals_payloads spec) ∧
    length rows = Z.to_nat (n_intervals_payloads spec) ∧
    (∀ i, (i < Z.to_nat (n_intervals_payloads spec))%nat →
       rows !! i = Some (b ++ take (Z.to_nat (n_intervals_payloads spec) - 1 - i)
                                  (drop 1 (reverse max_range)))) ∧
    g_ranges g = concat rows ∧
    cnt = map length rows.
Proof.
  intros Halt H.
  apply grid_of_envelope_Ok in H
    as (mp & pc & rb & rc & rd & val & mr & gr & gp & H0 & H1 & H2 & H3 & H4
        & Hbands & Hgrid & -> & _).
  rewrite Halt in Hgrid.
  apply rectangular_grid_rows_explicit in Hgrid
    as (m & base & rows & _ & _ & Hlen & _ & Hrows & -> & ->).
  pose proof (grid_payload_bands_length _ _ _ _ _ _ _ _ Hbands) as (_ & _ & Hmr).
  exists mp, pc, rb, rc, rd, val, mr, (reverse base), rows.
  repeat split; assumption || reflexivity.
Qed.

(** The [j]-th point of every band has the range of the [j]-th point of
    band 0. *)
Lemma rectangular_rows_aligned (BL_ranges BL_payloads : list num) (fig fig' : figure)
    (spec : GridSpec) (show_grid : bool) (g : grid) (cnt : list nat)
    (out : list string) :
  alternative_grid spec = false →
  grid_of_envelope BL_ranges BL_payloads fig spec show_grid = Ok (fig', g, cnt, out) →
  ∀ i ci j, cnt !! i = Some ci → (j < ci)%nat →
    ∃ r c0,
      cnt !! 0%nat = Some c0 ∧ (j < c0)%nat ∧
      g_ranges g !! j = Some r ∧
      g_ranges g !! (sum_list (take i cnt) + j)%nat = Some r.
Proof.
  intros Halt H i ci j Hci Hj.
  apply rectangular_envelope_rows in H
    as (mp & pc & rb & rc & rd & val & mr & b & rows & _ & _ & _ & _ & _
        & _ & Hmr & Hlen & Hrows & -> & ->); [|exact Halt].
  set (n := Z.to_nat (n_intervals_payloads spec)) in *.
  set (tops := drop 1 (reverse mr)) in *.
  rewrite list_lookup_fmap in Hci.
  destruct (rows !! i) as [row|] eqn:Hrow; [|discriminate].
  injection Hci as <-.
  assert (Hi : i < n) by (apply lookup_lt_Some in Hrow; lia).
  rewrite Hrows in Hrow by exact Hi. injection Hrow as <-.
  destruct (lookup_lt_is_Some_2 _ j Hj) as [r Hr].
  assert (Hr0 : (b ++ take (n - 1 - 0%nat) tops) !! j = Some r).
  { destruct (decide (j < length b)%nat) as [Hjb|Hjb].
    - rewrite lookup_app_l in Hr |- * by exact Hjb. exact Hr.
    - rewrite lookup_app_r in Hr |- * by lia.
      apply lookup_take_Some in Hr as [Hr Hlt].
      apply lookup_take_Some. split; [exact Hr|lia]. }
  exists r, (length (b ++ take (n - 1 - 0%nat) tops)).
  rewrite list_lookup_fmap, (Hrows 0%nat) by lia.
  split; [reflexivity|].
  split; [apply lookup_lt_Some in Hr0; exact Hr0|].
  split.
  - apply (concat_lookup rows 0%nat (b ++ take (n - 1 - 0%nat) tops) j r);
      [apply Hrows; lia|exact Hr0].
  - rewrite firstn_map.
    apply (concat_lookup rows i (b ++ take (n - 1 - i) tops) j r);
      [apply Hrows; exact Hi|exact Hr].
Qed.
End RectangularLayout.

(** X5: under the rectangular policy the row of each band is the row of
    the band above it followed by one more sample, the band's own maximum
    range: the rows are nested, the lowest band holding the longest row. *)
Theorem rectangular_rows_nested {F : FloatOps}
    (ra_a ra_b ra_c ra_d ra_s max_payload payload_b payload_c payload_d payload_s : num)
    (fig fig' : figure) (spec : GridSpec) (show_grid : bool) (g : grid)
    (cnt : list nat) (out : list string) :
  alternative_grid spec = false →
  grid_of_envelope [ra_a; ra_b; ra_c; ra_d; ra_s]
    [max_payload; payload_b; payload_c; payload_d; payload_s] fig spec show_grid
    = Ok (fig', g, cnt, out) →
  ∃ (val_payloads max_range : list num) (rows : list (list num)),
    grid_payload_bands spec max_payload payload_c ra_b ra_c ra_d
      = Ok (val_payloads, max_range) ∧
    g_ranges g = concat rows ∧
    cnt = map length rows ∧
    length rows = Z.to_nat (n_intervals_payloads spec) ∧
    ∀ i, S i < Z.to_nat (n_intervals_payloads spec) →
      ∃ next top,
        rows !! S i = Some next ∧ max_range !! i = Some top ∧
        rows !! i = Some (next ++ [top]).
Proof.
  intros Halt H.
  apply rectangular_envelope_rows in H
    as (mp & pc & rb & rc & rd & val & mr & b & rows & H0 & H1 & H2 & H3 & H4
        & Hbands & Hmr & Hlen & Hrows & Hgr & Hcnt); [|exact Halt].
  injection H0 as <-. injection H1 as <-. injection H2 as <-.
  injection H3 as <-. injection H4 as <-.
  exists val, mr, rows.
  split; [exact Hbands|]. split; [exact Hgr|]. split; [exact Hcnt|].
  split; [exact Hlen|].
  intros i Hi. set (n := Z.to_nat (n_intervals_payloads spec)) in *.
  destruct (take_tops_step (drop 1 (reverse mr)) (n - 1 - S i)) as (top & Htop & Htake).
  { rewrite length_drop, length_reverse. lia. }
  exists (b ++ take (n - 1 - S i) (drop 1 (reverse mr))), top.
  split; [apply Hrows; lia|]. split.
  - rewrite lookup_drop, reverse_lookup in Htop by lia.
    rewrite <- Htop. f_equal. lia.
  - rewrite Hrows by lia. rewrite <- app_assoc, <- Htake.
    do 3 f_equal. lia.
Qed.

Lemma rectangular_rows_nested_witness :
  alternative_grid example_spec = false ∧
  ∃ (val_payloads max_range : list Q) (rows : list (list Q)),
    grid_payload_bands example_spec 20%Q 10%Q 3000%Q 4000%Q 5000%Q
      = Ok (val_payloads, max_range) ∧
    g_ranges example_grid = concat rows ∧
    example_counts = map length rows ∧
    length rows = Z.to_nat (n_intervals_payloads example_spec) ∧
    ∀ i, S i < Z.to_nat (n_intervals_payloads example_spec) →
      ∃ next top,
        rows !! S i = Some next ∧ max_range !! i = Some top ∧
        rows !! i = Some (next ++ [top]).
Proof.
  split; [reflexivity|].
  apply (@rectangular_rows_nested Qfloat 0%Q 3000%Q 4000%Q 5000%Q 2500%Q 20%Q 20%Q
           10%Q 0%Q 18%Q []
           example_figure example_spec false example_grid example_counts example_out).
  - reflexivity.
  - reflexivity.
Defined.

(** X6: under the rectangular policy the [j]-th point of every band has
    the range of the [j]-th point of band 0: the ranges of band 0, which
    [payload_range_full] takes as the x axis of the contour, are the ranges of
    the points of every row of [z]. *)
Theorem rectangular_bands_share_ranges {F : FloatOps} (BL_ranges BL_payloads : list num)
    (fig fig' : figure) (spec : GridSpec) (show_grid : bool) (g : grid)
    (cnt : list nat) (out : list string) :
  alternative_grid spec = false →
  grid_of_envelope BL_ranges BL_payloads fig spec show_grid = Ok (fig', g, cnt, out) →
  ∀ i ci j, cnt !! i = Some ci → j < ci →
    ∃ r c0,
      cnt !! 0 = Some c0 ∧ j < c0 ∧
      g_ranges g !! j = Some r ∧
      g_ranges g !! (sum_list (take i cnt) + j) = Some r.
Proof.
  intros Halt H i ci j Hci Hj.
  destruct (rectangular_rows_aligned _ _ _ _ _ _ _ _ _ Halt H i ci j Hci Hj)
    as (r & c0 & Hc0 & Hj0 & Hr0 & Hr).
  exists r, c0. auto.
Qed.

Lemma rectangular_bands_share_ranges_witness :
  alternative_grid example_spec = false ∧
  ∀ i ci j, example_counts !! i = Some ci → j < ci →
    ∃ r c0,
      example_counts !! 0 = Some c0 ∧ j < c0 ∧
      g_ranges example_grid !! j = Some r ∧
      g_ranges example_grid !! (sum_list (take i example_counts) + j) = Some r.
Proof.
  split; [reflexivity|].
  apply (@rectangular_bands_share_ranges Qfloat example_ranges example_payloads []
           example_figure example_spec false example_grid example_counts example_out).
  - reflexivity.
  - reflexivity.
Defined.

(** X7: the number of missions of a rectangular sweep.  With [L] points in
    the row of the last band and [n] bands, the grid holds
    [n * L + n * (n - 1) / 2] points. *)
Theorem rectangular_point_count {F : FloatOps} (BL_ranges BL_payloads : list num)
    (fig fig' : figure) (spec : GridSpec) (show_grid : bool) (g : grid)
    (cnt : list nat) (out : list string) (L : nat) :
  alternative_grid spec = false →
  grid_of_envelope BL_ranges BL_payloads fig spec show_grid = Ok (fig', g, cnt, out) →
  last cnt = Some L →
  2 * length (g_ranges g)
  = Z.to_nat (n_intervals_payloads spec)
    * (2 * L + (Z.to_nat (n_intervals_payloads spec) - 1)).
Proof.
  intros Halt H HL.
  apply rectangular_envelope_rows in H
    as (mp & pc & rb & rc & rd & val & mr & b & rows & _ & _ & _ & _ & _
        & _ & Hmr & Hlen & Hrows & -> & ->); [|exact Halt].
  set (n := Z.to_nat (n_intervals_payloads spec)) in *.
  assert (Hrow : ∀ i c, map length rows !! i = Some c → c = length b + (n - 1 - i)).
  { intros i c Hc. rewrite list_lookup_fmap in Hc.
    destruct (rows !! i) as [row|] eqn:Hi; [|discriminate]. injection Hc as <-.
    apply lookup_lt_Some in Hi as Hlt.
    rewrite Hrows in Hi by lia. injection Hi as <-.
    rewrite length_app, length_take, length_drop, length_reverse. lia. }
  assert (HLb : L = length b).
  { rewrite last_lookup, length_map in HL.
    rewrite (Hrow _ _ HL). apply lookup_lt_Some in HL. rewrite length_map in HL. lia. }
  rewrite length_concat_sum, HLb, <- Hlen, <- (length_map length rows).
  apply sum_list_staircase. intros i c Hc. rewrite length_map, Hlen.
  apply Hrow, Hc.
Qed.

Lemma rectangular_point_count_witness :
  alternative_grid example_spec = false ∧
  last example_counts = Some 5 ∧
  2 * length (g_ranges example_grid)
  = Z.to_nat (n_intervals_payloads example_spec)
    * (2 * 5 + (Z.to_nat (n_intervals_payloads example_spec) - 1)).
Proof.
  split; [reflexivity|]. split; [reflexivity|].
  apply (@rectangular_point_count Qfloat example_ranges example_payloads []
           example_figure example_spec false example_grid example_counts example_out 5).
  - reflexivity.
  - reflexivity.
  - reflexivity.
Defined.

(** ** The rows of the alternative grid *)

Section AlternativeRows.
Context {F : FloatOps}.
Local Open Scope float_scope.

(** One run of the [while] loop entered with a non-empty [range_add]: the
    samples below [ra_b] are computed; when there are none the loop stops at
    once, otherwise it goes through every remaining band, and the row of a
    band is these samples followed by [np.arange(last, max_range[i] + 1,
    delta_x)]. *)
Lemma alternative_loop_explicit (val_payloads max_range : list num)
    (min_range ra_b : num) (step : number) (delta_x : num) :
  ∀ (remaining i : nat) (range_add gr gp : list num) (cnt : list nat)
    (gr' gp' : list num) (cnt' : list nat),
    length range_add ≠ 0%nat →
    alternative_loop (S remaining) i range_add val_payloads max_range min_range ra_b
      step delta_x (gr, gp, cnt) = Ok (gr', gp', cnt') →
    ∃ prefix : list num,
      np_arange min_range ra_b (number_value step) = Ok prefix ∧
      ((prefix = [] ∧ gr' = gr ∧ gp' = gp ∧ cnt' = cnt) ∨
       (prefix ≠ [] ∧
        ∃ rows : list (list num),
          length rows = S remaining ∧
          gr' = gr ++ concat rows ∧
          cnt' = cnt ++ map length rows ∧
          ∀ k row, rows !! k = Some row →
            ∃ lst m tail,
              last prefix = Some lst ∧
              max_range !! (i + k)%nat = Some m ∧
              np_arange lst (m + 1) delta_x = Ok tail ∧
              row = prefix ++ tail)).
Proof.
  induction remaining as [|rem IH];
    intros i range_add gr gp cnt gr' gp' cnt' Hne H; simpl in H.
  - destruct (Nat.eqb_spec (length range_add) 0) as [|_]; [contradiction|].
    bind_inv H. rename x into ra, Hx into Hra.
    exists ra. split; [exact Hra|].
    destruct (Nat.eqb_spec (length ra) 0) as [Hra0|Hra1].
    { injection H as <- <- <-. left. destruct ra; [auto|discriminate]. }
    bind_inv H. rename x into lst, Hx into Hlst.
    bind_inv H. rename x into m, Hx into Hm.
    bind_inv H. rename x into tail, Hx into Htail.
    bind_inv H. rename x into v, Hx into Hv.
    injection H as <- <- <-.
    right. split; [intros ->; contradiction|].
    exists [ra ++ tail]. simpl. rewrite app_nil_r.
    repeat split; try reflexivity.
    intros k row Hk. destruct k as [|k]; [|discriminate]. injection Hk as <-.
    apply getitem_last in Hlst. apply getitem_nat in Hm.
    exists lst, m, tail. rewrite Nat.add_0_r. auto.
  - destruct (Nat.eqb_spec (length range_add) 0) as [|_]; [contradiction|].
    bind_inv H. rename x into ra, Hx into Hra.
    exists ra. split; [exact Hra|].
    destruct (Nat.eqb_spec (length ra) 0) as [Hra0|Hra1].
    { injection H as <- <- <-. left. destruct ra; [auto|discriminate]. }
    bind_inv H. rename x into lst, Hx into Hlst.
    bind_inv H. rename x into m, Hx into Hm.
    bind_inv H. rename x into tail, Hx into Htail.
    bind_inv H. rename x into v, Hx into Hv.
    apply IH in H as (prefix & Hprefix & Hcases).
    2:{ rewrite length_app. lia. }
    rewrite Hra in Hprefix. injection Hprefix as <-.
    right. split; [intros ->; contradiction|].
    destruct Hcases as [(-> & _)|(_ & rows & Hlen & -> & -> & Hrows)];
      [contradiction|].
    exists ((ra ++ tail) :: rows). simpl. rewrite <- !app_assoc. simpl.
    split; [rewrite Hlen; reflexivity|]. split; [reflexivity|].
    split; [reflexivity|].
    intros k row Hk. destruct k as [|k].
    + injection Hk as <-.
      apply getitem_last in Hlst. apply getitem_nat in Hm.
      exists lst, m, tail. rewrite Nat.add_0_r. auto.
    + simpl in Hk. destruct (Hrows k row Hk) as (lst' & m' & tail' & H1 & H2 & H3 & H4).
      exists lst', m', tail'. replace (i + S k)%nat with (S i + k)%nat by lia. auto.
Qed.
End AlternativeRows.

(** X8: the rows of the alternative policy.  The samples
    [np.arange(min_range, ra_b, range_step)] are computed once per band and
    are the same for every band.  When there are none, the grid is empty;
    otherwise every band has a row, which is these samples followed by
    [np.arange(last, max_range[i] + 1, delta_x)], so that no band is left
    without a point. *)
Theorem alternative_rows {F : FloatOps}
    (ra_a ra_b ra_c ra_d ra_s max_payload payload_b payload_c payload_d payload_s : num)
    (fig fig' : figure) (spec : GridSpec) (show_grid : bool) (g : grid)
    (cnt : list nat) (out : list string) :
  alternative_grid spec = true →
  grid_of_envelope [ra_a; ra_b; ra_c; ra_d; ra_s]
    [max_payload; payload_b; payload_c; payload_d; payload_s] fig spec show_grid
    = Ok (fig', g, cnt, out) →
  ∃ (val_payloads max_range prefix : list num) (v0 v1 : num) (rows : list (list num)),
    grid_payload_bands spec max_payload payload_c ra_b ra_c ra_d
      = Ok (val_payloads, max_range) ∧
    val_payloads !! 0 = Some v0 ∧ val_payloads !! 1 = Some v1 ∧
    np_arange (grid_min_range spec ra_b) ra_b (number_value (range_step spec)) = Ok prefix ∧
    g_ranges g = concat rows ∧
    cnt = map length rows ∧
    ((prefix = [] ∧ rows = []) ∨
     (prefix ≠ [] ∧ length rows = Z.to_nat (n_intervals_payloads spec) ∧
      ∀ i row, rows !! i = Some row →
        ∃ lst m tail,
          last prefix = Some lst ∧ max_range !! i = Some m ∧
          np_arange lst (m + 1)%F
            (- (v1 - v0) / ((payload_c - max_payload) / (ra_c - ra_b)))%F = Ok tail ∧
          row = prefix ++ tail)).
Proof.
  intros Halt H. rewrite grid_of_envelope_five, Halt in H.
  bind_inv H. destruct x as [val mr]. rename Hx into Hbands.
  bind_inv H. destruct x as [[gr gp] cnt']. rename Hx into Hgrid.
  injection H as _ <- <- _.
  unfold alternative_grid_points in Hgrid.
  bind_inv Hgrid. rename x into v1, Hx into Hv1.
  bind_inv Hgrid. rename x into v0, Hx into Hv0.
  apply (getitem_nat val 1) in Hv1. apply (getitem_nat val 0) in Hv0.
  pose proof (grid_payload_bands_length _ _ _ _ _ _ _ _ Hbands) as (_ & Hlen & _).
  destruct (Z.to_nat (n_intervals_payloads spec)) as [|n'] eqn:Hn.
  { apply lookup_lt_Some in Hv0. lia. }
  apply alternative_loop_explicit in Hgrid as (prefix & Hprefix & Hcases);
    [|discriminate].
  exists val, mr, prefix, v0, v1.
  destruct Hcases as [(-> & -> & _ & ->)|(Hne & rows & Hrlen & -> & -> & Hrows)].
  - exists []. split; [exact Hbands|]. split; [exact Hv0|]. split; [exact Hv1|].
    split; [exact Hprefix|]. simpl. auto.
  - exists rows. split; [exact Hbands|]. split; [exact Hv0|]. split; [exact Hv1|].
    split; [exact Hprefix|]. split; [reflexivity|]. split; [reflexivity|].
    right. split; [exact Hne|]. split; [exact Hrlen|]. exact Hrows.
Qed.

Lemma alternative_rows_witness :
  alternative_grid example_alternative_spec = true ∧
  example_alternative_counts = [8; 7; 6] ∧
  ∃ (val_payloads max_range prefix : list Q) (v0 v1 : Q) (rows : list (list Q)),
    grid_payload_bands example_alternative_spec 20%Q 10%Q 3000%Q 4000%Q 5000%Q
      = Ok (val_payloads, max_range) ∧
    val_payloads !! 0 = Some v0 ∧ val_payloads !! 1 = Some v1 ∧
    np_arange (grid_min_range example_alternative_spec 3000%Q) 3000%Q
      (number_value (range_step example_alternative_spec)) = Ok prefix ∧
    g_ranges example_alternative_grid = concat rows ∧
    example_alternative_counts = map length rows ∧
    ((prefix = [] ∧ rows = []) ∨
     (prefix ≠ [] ∧
      length rows = Z.to_nat (n_intervals_payloads example_alternative_spec) ∧
      ∀ i row, rows !! i = Some row →
        ∃ lst m tail,
          last prefix = Some lst ∧ max_range !! i = Some m ∧
          np_arange lst (m + 1)%Q
            (- (v1 - v0) / ((10 - 20) / (4000 - 3000)))%Q = Ok tail ∧
          row = prefix ++ tail)).
Proof.
  split; [reflexivity|]. split; [reflexivity|].
  apply (@alternative_rows Qfloat 0%Q 3000%Q 4000%Q 5000%Q 2500%Q 20%Q 20%Q 10%Q 0%Q
           18%Q [] example_alternative_figure example_alternative_spec false
           example_alternative_grid example_alternative_counts example_alternative_out).
  - reflexivity.
  - reflexivity.
Defined.

(** ** When a grid is generated *)

Lemma np_where_from_found {A} (cond : A → bool) (l : list A) (i : nat) (x : A) :
  x ∈ l → cond x = true → ∃ k ks, np_where_from cond l i = k :: ks.
Proof.
  intros Hx Hc. revert i. induction l as [|y l IH]; intros i; simpl.
  - apply elem_of_nil in Hx. contradiction.
  - destruct (cond y) eqn:Hy; [eexists _, _; reflexivity|].
    apply IH. apply elem_of_cons in Hx as [->|Hx]; [congruence|exact Hx].
Qed.

Section Totality.
Context {F : FloatOps}.
Local Open Scope float_scope.

(** The bands are laid as soon as one of them reaches the payload of
    point C. *)
Lemma grid_payload_bands_total (spec : GridSpec) (mp pc ra_b ra_c ra_d : num)
    (val_payloads : list num) (v : num) :
  np_linspace (lower_limit_box_tolerance spec * mp)
    (upper_limit_box_tolerance spec * mp) (n_intervals_payloads spec)
    = Ok val_payloads →
  v ∈ val_payloads → (pc <=? v) = true →
  ∃ max_range, grid_payload_bands spec mp pc ra_b ra_c ra_d = Ok (val_payloads, max_range).
Proof.
  intros Hval Hv Hc. unfold grid_payload_bands. rewrite Hval.
  cbn [mbind result_bind]. unfold np_where.
  destruct (np_where_from_found (λ v, pc <=? v) val_payloads 0 v Hv Hc) as (k & ks & ->).
  eexists. reflexivity.
Qed.

(** The two loops of the rectangular grid cannot fail once there are as
    many payloads and maximum ranges as bands and the base row is computed. *)
Lemma rectangular_grid_total (n : nat) (val_payloads max_range base : list num)
    (m min_range : num) (step : number) :
  (n ≤ length val_payloads)%nat → (n ≤ length max_range)%nat →
  last max_range = Some m →
  np_arange m min_range (number_value (number_neg step)) = Ok base →
  ∃ r, rectangular_grid n val_payloads max_range min_range step = Ok r.
Proof.
  intros Hval Hmr Hm Hbase. unfold rectangular_grid.
  rewrite (proj2 (getitem_last max_range m) Hm). cbn [mbind result_bind].
  rewrite Hbase. cbn [mbind result_bind].
  destruct (for_range_total (λ _ (g : list (list num)), length g = n)
              (λ i grid_x,
                 prev ← getitem grid_x (Z.of_nat i - 1);
                 m ← getitem max_range (-1 - Z.of_nat i);
                 Ok (<[i := prev ++ [m]]> grid_x))
              (n - 1) 1 (replicate n (reverse base)))
    as (gx & Hgx & Hlen).
  - apply length_replicate.
  - intros i t Hi Ht.
    replace (Z.of_nat i - 1)%Z with (Z.of_nat (i - 1)) by lia.
    destruct (getitem_in_range t (i - 1)) as [prev ->]; [lia|].
    cbn [mbind result_bind].
    destruct (lookup_lt_is_Some_2 (reverse max_range) i) as [mi Hmi].
    { rewrite length_reverse. lia. }
    rewrite (proj2 (getitem_from_end max_range i mi) Hmi).
    cbn [mbind result_bind].
    eexists. split; [reflexivity|]. rewrite length_insert. exact Ht.
  - rewrite Hgx. cbn [mbind result_bind].
    destruct (for_range_total (λ _ (st : list num * list num * list nat), True)
                (λ i '(grid_ranges, grid_payloads, n_values_ranges),
                   row ← getitem (reverse gx) (Z.of_nat i);
                   v ← getitem val_payloads (Z.of_nat i);
                   Ok (grid_ranges ++ row,
                       grid_payloads ++ np_ones_times (length row) v,
                       <[i := length row]> n_values_ranges))
                n 0 ([], [], replicate n 0%nat))
      as ([[gr gp] cnt] & Hrun & _).
    + exact I.
    + intros i [[t1 t2] t3] Hi _.
      destruct (getitem_in_range (reverse gx) i) as [row ->].
      { rewrite length_reverse. lia. }
      cbn [mbind result_bind].
      destruct (getitem_in_range val_payloads i) as [v ->]; [lia|].
      cbn [mbind result_bind]. eexists. split; [reflexivity|exact I].
    + rewrite Hrun. cbn [mbind result_bind]. eexists. reflexivity.
Qed.
End Totality.

(** With exact arithmetic and two bands or more, the last band is at
    [upper * max_payload]. *)
Lemma np_linspace_last_stop (start stop : Q) (n : Z) (l : list Q) :
  (2 ≤ n)%Z → @np_linspace Qfloat start stop n = Ok l → stop ∈ l.
Proof.
  intros Hn. unfold np_linspace.
  destruct (Z.ltb_spec n 0) as [|_]; [lia|].
  destruct (Z.to_nat n) as [|[|k]] eqn:Hk; try lia.
  intros H. injection H as <-. right. apply elem_of_app. right. left.
Qed.

Lemma grid_payload_bands_total_Q (spec : @GridSpec Qfloat) (mp pc ra_b ra_c ra_d : Q) :
  (2 ≤ n_intervals_payloads spec)%Z →
  (pc <= upper_limit_box_tolerance spec * mp)%Q →
  ∃ val_payloads max_range,
    grid_payload_bands spec mp pc ra_b ra_c ra_d = Ok (val_payloads, max_range).
Proof.
  intros Hn Hpc.
  destruct (np_linspace_total (lower_limit_box_tolerance spec * mp)%F
              (upper_limit_box_tolerance spec * mp)%F (n_intervals_payloads spec))
    as [val Hval]; [lia|].
  destruct (grid_payload_bands_total spec mp pc ra_b ra_c ra_d val
              (upper_limit_box_tolerance spec * mp)%Q Hval) as [mr Hmr].
  - apply (np_linspace_last_stop _ _ _ _ Hn Hval).
  - apply Qle_bool_iff, Hpc.
  - exists val, mr. exact Hmr.
Qed.

(** X9: a grid is generated.  With exact arithmetic, under the
    rectangular policy, with two bands or more, a non-zero step and non-zero
    divisors in the maximum ranges ([payload_c] and
    [max_payload - payload_c]; numpy would give inf or nan, and [np.arange]
    raise), [grid_generation] returns as soon as the payload of point C is at
    most [upper_limit_box_tolerance * max_payload]. *)
Theorem rectangular_grid_is_generated
    (ra_a ra_b ra_c ra_d ra_s max_payload payload_b payload_c payload_d payload_s : Q)
    (fig : figure) (spec : GridSpec) (show_grid : bool) :
  alternative_grid spec = false →
  (2 ≤ n_intervals_payloads spec)%Z →
  ¬ (number_value (range_step spec) == 0)%Q →
  ¬ (payload_c == 0)%Q →
  ¬ (max_payload == payload_c)%Q →
  (payload_c <= upper_limit_box_tolerance spec * max_payload)%Q →
  ∃ fig' g cnt out,
    grid_of_envelope [ra_a; ra_b; ra_c; ra_d; ra_s]
      [max_payload; payload_b; payload_c; payload_d; payload_s] fig spec show_grid
      = Ok (fig', g, cnt, out) ∧
    length cnt = Z.to_nat (n_intervals_payloads spec).
Proof.
  intros Halt Hn Hstep _ _ Hpc.
  destruct (grid_payload_bands_total_Q spec max_payload payload_c ra_b ra_c ra_d Hn Hpc)
    as (val & mr & Hbands).
  pose proof (grid_payload_bands_length _ _ _ _ _ _ _ _ Hbands) as (_ & Hlval & Hlmr).
  change (@num Qfloat) with Q in *.
  destruct (lookup_lt_is_Some_2 mr (pred (length mr))) as [m Hm].
  { clear - Hn Hlmr. lia. }
  rewrite <- last_lookup in Hm.
  assert (Hbase : ∃ base, @np_arange Qfloat m (grid_min_range spec ra_b)
                            (number_value (number_neg (range_step spec))) = Ok base).
  { rewrite number_value_neg. unfold np_arange. simpl arange_length.
    destruct (Qeq_bool (- number_value (range_step spec)) 0) eqn:Hz;
      [|eexists; reflexivity].
    apply Qeq_bool_iff in Hz. exfalso. apply Hstep. lra. }
  destruct Hbase as [base Hbase].
  destruct (@rectangular_grid_total Qfloat (Z.to_nat (n_intervals_payloads spec)) val mr
              base m (grid_min_range spec ra_b) (range_step spec))
    as [[[gr gp] cnt] Hgrid].
  { apply Nat.eq_le_incl. symmetry. exact Hlval. }
  { apply Nat.eq_le_incl. symmetry. exact Hlmr. }
  { exact Hm. }
  { exact Hbase. }
  eexists _, _, cnt, _. split.
  { rewrite (@grid_of_envelope_five Qfloat), Hbands. cbn [mbind result_bind].
    rewrite Halt, Hgrid. reflexivity. }
  apply rectangular_grid_rows in Hgrid as (_ & _ & rows & _ & _ & Hlen & _ & _ & _ & ->).
  rewrite length_map. exact Hlen.
Qed.

Lemma rectangular_grid_is_generated_witness :
  alternative_grid example_spec = false ∧
  (2 ≤ n_intervals_payloads example_spec)%Z ∧
  ∃ fig' g cnt out,
    grid_of_envelope example_ranges example_payloads_at_limit [] example_spec false
      = Ok (fig', g, cnt, out) ∧
    length cnt = Z.to_nat (n_intervals_payloads example_spec).
Proof.
  split; [reflexivity|]. split; [simpl; lia|].
  apply (rectangular_grid_is_generated 0 3000 4000 5000 2500 20 20 19 0 18 []
           example_spec false).
  - reflexivity.
  - simpl. lia.
  - vm_compute. discriminate.
  - vm_compute. discriminate.
  - vm_compute. discriminate.
  - vm_compute. discriminate.
Defined.

(** ** The alternative policy, with exact arithmetic *)

Lemma grid_min_range_at_least_step (spec : @GridSpec Qfloat) (ra_b : Q) :
  (number_value (range_step spec) <= grid_min_range spec ra_b)%Q.
Proof.
  unfold grid_min_range. unfold_Qfloat.
  destruct (Qle_bool (number_value (range_step spec))
              (left_limit_box_tolerance spec * ra_b)) eqn:Hle; simpl.
  - apply Qle_bool_iff, Hle.
  - apply Qle_refl.
Qed.

(** [np.arange(start, stop, step)] is empty when [stop <= start] and the
    step is positive. *)
Lemma np_arange_without_room (start stop s : Q) :
  (0 < s)%Q → (stop <= start)%Q →
  @np_arange Qfloat start stop s = Ok [].
Proof.
  intros HS Hle. unfold np_arange. simpl arange_length.
  destruct (Qeq_bool s 0) eqn:Hz.
  { apply Qeq_bool_iff in Hz. rewrite Hz in HS. apply Qlt_irrefl in HS. contradiction. }
  assert (HX : (Qceiling ((stop - start) / s) ≤ 0)%Z).
  { change 0%Z with (Qceiling (inject_Z 0)). apply Qceiling_resp_le.
    apply Qle_shift_div_r; [exact HS|]. change (inject_Z 0) with 0%Q. lra. }
  replace (Z.to_nat (Qceiling ((stop - start) / s))) with 0%nat by lia.
  reflexivity.
Qed.

(** X10: the alternative policy leaves no room when the range of point B
    is at most one step.  With exact arithmetic, two bands or more, a positive
    step and the payload of point C within the bands, [grid_generation]
    returns an empty grid and no counts: no sample of
    [np.arange(min_range, ra_b, range_step)] exists, since [min_range] is at
    least one step. *)
Theorem alternative_grid_without_room
    (ra_a ra_b ra_c ra_d ra_s max_payload payload_b payload_c payload_d payload_s : Q)
    (fig : figure) (spec : GridSpec) (show_grid : bool) :
  alternative_grid spec = true →
  (2 ≤ n_intervals_payloads spec)%Z →
  (0 < number_value (range_step spec))%Q →
  (payload_c <= upper_limit_box_tolerance spec * max_payload)%Q →
  (ra_b <= number_value (range_step spec))%Q →
  ∃ fig',
    grid_of_envelope [ra_a; ra_b; ra_c; ra_d; ra_s]
      [max_payload; payload_b; payload_c; payload_d; payload_s] fig spec show_grid
    = Ok (fig', Grid [] [] [], [], [number_of_points_line 0]).
Proof.
  intros Halt Hn Hstep Hpc Hrb.
  destruct (grid_payload_bands_total_Q spec max_payload payload_c ra_b ra_c ra_d Hn Hpc)
    as (val & mr & Hbands).
  pose proof (grid_payload_bands_length _ _ _ _ _ _ _ _ Hbands) as (_ & Hlval & _).
  change (@num Qfloat) with Q in *.
  destruct (lookup_lt_is_Some_2 val 0) as [v0 Hv0]; [lia|].
  destruct (lookup_lt_is_Some_2 val 1) as [v1 Hv1]; [lia|].
  apply (getitem_nat val 0) in Hv0. apply (getitem_nat val 1) in Hv1.
  assert (Harange : @np_arange Qfloat (grid_min_range spec ra_b) ra_b
                      (number_value (range_step spec)) = Ok []).
  { apply np_arange_without_room; [exact Hstep|].
    eapply Qle_trans; [exact Hrb|apply grid_min_range_at_least_step]. }
  eexists.
  rewrite (@grid_of_envelope_five Qfloat), Hbands. cbn [mbind result_bind].
  rewrite Halt. unfold alternative_grid_points.
  change (getitem val (Z.of_nat 1)) with (getitem val 1) in Hv1.
  change (getitem val (Z.of_nat 0)) with (getitem val 0) in Hv0.
  change (@num Qfloat) with Q. rewrite Hv1, Hv0. cbn [mbind result_bind].
  destruct (Z.to_nat (n_intervals_payloads spec)) as [|n'] eqn:Hn'; [lia|].
  cbn [alternative_loop length Nat.eqb].
  rewrite Harange. reflexivity.
Qed.

Lemma alternative_grid_without_room_witness :
  alternative_grid example_alternative_spec_no_room = true ∧
  ∃ fig',
    grid_of_envelope example_ranges example_payloads [] example_alternative_spec_no_room
      true
    = Ok (fig', Grid [] [] [], [], [number_of_points_line 0]).
Proof.
  split; [reflexivity|].
  apply (alternative_grid_without_room 0 3000 4000 5000 2500 20 20 10 0 18 []
           example_alternative_spec_no_room true).
  - reflexivity.
  - simpl. lia.
  - reflexivity.
  - vm_compute. discriminate.
  - vm_compute. discriminate.
Defined.

(** X11: under the alternative policy a row that goes beyond the samples
    below [ra_b] repeats the last of them: its next sample is the first
    element of [np.arange(range_add[-1], ...)], that is [range_add[-1]]
    again.  The grid then holds the same point twice. *)
Theorem alternative_rows_repeat_junction
    (ra_a ra_b ra_c ra_d ra_s max_payload payload_b payload_c payload_d payload_s : Q)
    (fig fig' : figure) (spec : GridSpec) (show_grid : bool) (g : grid)
    (cnt : list nat) (out : list string) :
  alternative_grid spec = true →
  grid_of_envelope [ra_a; ra_b; ra_c; ra_d; ra_s]
    [max_payload; payload_b; payload_c; payload_d; payload_s] fig spec show_grid
    = Ok (fig', g, cnt, out) →
  ∃ (prefix : list Q) (rows : list (list Q)),
    np_arange (grid_min_range spec ra_b) ra_b (number_value (range_step spec)) = Ok prefix ∧
    g_ranges g = concat rows ∧
    cnt = map length rows ∧
    ∀ i row y, rows !! i = Some row → row !! length prefix = Some y →
      ∃ x, row !! (length prefix - 1) = Some x ∧ (y == x)%Q.
Proof.
  intros Halt H. rewrite (@grid_of_envelope_five Qfloat), Halt in H.
  bind_inv H. destruct x as [val mr]. rename Hx into Hbands.
  bind_inv H. destruct x as [[gr gp] cnt']. rename Hx into Hgrid.
  injection H as _ <- <- _.
  unfold alternative_grid_points in Hgrid.
  bind_inv Hgrid. rename x into v1, Hx into Hv1.
  bind_inv Hgrid. rename x into v0, Hx into Hv0.
  apply (getitem_nat val 0) in Hv0.
  destruct (Z.to_nat (n_intervals_payloads spec)) as [|n'] eqn:Hn.
  { pose proof (grid_payload_bands_length _ _ _ _ _ _ _ _ Hbands) as (_ & Hlen & _).
    apply lookup_lt_Some in Hv0. change (@num Qfloat) with Q in *. lia. }
  apply alternative_loop_explicit in Hgrid as (prefix & Hprefix & Hcases);
    [|discriminate].
  exists prefix.
  destruct Hcases as [(-> & -> & _ & ->)|(Hne & rows & Hrlen & -> & -> & Hrows)].
  - exists []. split; [exact Hprefix|]. split; [reflexivity|]. split; [reflexivity|].
    intros i row y Hi. discriminate Hi.
  - exists rows. split; [exact Hprefix|]. split; [reflexivity|]. split; [reflexivity|].
    intros i row y Hi Hy.
    destruct (Hrows i row Hi) as (lst & m & tail & Hlst & _ & Htail & ->).
    change (@num Qfloat) with Q in *.
    exists lst. split.
    + rewrite lookup_app_l.
      * rewrite last_lookup in Hlst.
        replace (length prefix - 1)%nat with (pred (length prefix)) by lia.
        exact Hlst.
      * destruct prefix; [contradiction|]. simpl. lia.
    + rewrite lookup_app_r, Nat.sub_diag in Hy by lia.
      apply np_arange_Q in Htail as [_ ->].
      rewrite list_lookup_fmap in Hy.
      destruct (seq 0 _ !! 0%nat) as [k|] eqn:Hk; [|discriminate].
      apply lookup_seq in Hk as [-> _]. injection Hy as <-.
      change (inject_Z (Z.of_nat (0 + 0))) with 0%Q. ring.
Qed.

Lemma alternative_rows_repeat_junction_witness :
  alternative_grid example_alternative_spec = true ∧
  ∃ (prefix : list Q) (rows : list (list Q)),
    np_arange (grid_min_range example_alternative_spec 3000%Q) 3000%Q
      (number_value (range_step example_alternative_spec)) = Ok prefix ∧
    g_ranges example_alternative_grid = concat rows ∧
    example_alternative_counts = map length rows ∧
    ∀ i row y, rows !! i = Some row → row !! length prefix = Some y →
      ∃ x, row !! (length prefix - 1) = Some x ∧ (y == x)%Q.
Proof.
  split; [reflexivity|].
  apply (alternative_rows_repeat_junction 0 3000 4000 5000 2500 20 20 10 0 18 []
           example_alternative_figure example_alternative_spec false
           example_alternative_grid example_alternative_counts example_alternative_out).
  - reflexivity.
  - reflexivity.
Defined.

(** ** A sweep that does not complete *)

Section SweepFailure.
Context {F : FloatOps} {R : FloatRepr F}.
Local Open Scope float_scope.

Lemma grid_generation_payloads_length (E : collaborators) (ac : aircraft)
    (fig fig' : figure) (spec : GridSpec) (show_grid : bool) (g : grid)
    (cnt : list nat) (out : list string) :
  grid_generation E ac fig spec show_grid = Ok (fig', g, cnt, out) →
  length (g_payloads g) = length (g_ranges g).
Proof.
  unfold grid_generation. destruct (breguet_leduc_points E ac) as [BLr BLp].
  intros H. apply grid_of_envelope_rows in H
    as (mp & val & rows & _ & _ & -> & -> & _ & _ & Hlen & _ & _).
  apply length_concat_zip_with_ones, Hlen.
Qed.

(** The loop over the grid points stops at the first mission that raises. *)
Lemma sweep_loop_raises (sim : simulator) (g : grid) (k : nat) (r p : num) (e : exn) :
  length (g_payloads g) = length (g_ranges g) →
  g_ranges g !! k = Some r → g_payloads g !! k = Some p →
  (∀ i ri pi, (i < k)%nat → g_ranges g !! i = Some ri → g_payloads g !! i = Some pi →
     ∃ fuel, evaluate_mission sim pi (ri * of_int (10 ^ 3) * lit 1852 3) = Ok fuel) →
  evaluate_mission sim p (r * of_int (10 ^ 3) * lit 1852 3) = Raise e →
  for_range 0 (length (g_ranges g)) (sweep_step sim) g = Raise e.
Proof.
  intros Hlen Hr Hp Hbefore Hfail.
  apply lookup_lt_Some in Hr as Hk.
  replace (length (g_ranges g)) with (k + S (length (g_ranges g) - S k))%nat by lia.
  rewrite for_range_app.
  destruct (for_range_total
              (λ _ (t : grid), g_ranges t = g_ranges g ∧ g_payloads t = g_payloads g)
              (sweep_step sim) k 0 g) as (gk & -> & Hrk & Hpk).
  - auto.
  - intros i t Hi [Hrt Hpt]. unfold sweep_step. rewrite Hrt, Hpt.
    destruct (lookup_lt_is_Some_2 (g_payloads g) i) as [pi Hpi]; [lia|].
    destruct (lookup_lt_is_Some_2 (g_ranges g) i) as [ri Hri]; [lia|].
    rewrite (proj2 (getitem_nat _ i pi) Hpi), (proj2 (getitem_nat _ i ri) Hri).
    cbn [mbind result_bind].
    destruct (Hbefore i ri pi) as [fuel ->]; [lia|exact Hri|exact Hpi|].
    cbn [mbind result_bind]. eexists. split; [reflexivity|]. auto.
  - assert (Hstep : sweep_step sim (0 + k) gk = Raise e).
    { unfold sweep_step. rewrite Hrk, Hpk. simpl plus.
      rewrite (proj2 (getitem_nat _ k p) Hp), (proj2 (getitem_nat _ k r) Hr).
      cbn [mbind result_bind]. rewrite Hfail. reflexivity. }
    cbn [mbind result_bind for_range]. rewrite Hstep. reflexivity.
Qed.
End SweepFailure.

(** X12: a sweep saves all its results or none.  When the mission raises
    at some grid point, after any number of successful missions,
    [payload_range_loop_computation] raises the same exception and writes
    neither the table nor the grid parameters: the table is written only
    after the last mission, and the fuels already computed are lost. *)
Theorem failed_mission_saves_nothing {F : FloatOps} {R : FloatRepr F}
    (E : collaborators) (sim : simulator) (ac : aircraft) (spec : GridSpec)
    (folder file_save : string) (fs : gmap string file)
    (fig : figure) (g : grid) (cnt : list nat) (out : list string)
    (k : nat) (r p : num) (e : exn) :
  grid_generation E ac [] spec true = Ok (fig, g, cnt, out) →
  prepare_mission sim = Ok () →
  g_ranges g !! k = Some r → g_payloads g !! k = Some p →
  (∀ i ri pi, i < k → g_ranges g !! i = Some ri → g_payloads g !! i = Some pi →
     ∃ fuel, evaluate_mission sim pi (ri * of_int (10 ^ 3) * lit 1852 3)%F = Ok fuel) →
  evaluate_mission sim p (r * of_int (10 ^ 3) * lit 1852 3)%F = Raise e →
  payload_range_loop_computation E sim ac spec folder file_save fs = (fs, Raise e).
Proof.
  intros Hgrid Hprep Hr Hp Hbefore Hfail.
  unfold payload_range_loop_computation, sweep_grid.
  rewrite Hgrid. cbn [mbind result_bind]. rewrite Hprep. cbn [mbind result_bind].
  rewrite (sweep_loop_raises sim g k r p e); [reflexivity| |assumption..].
  apply (grid_generation_payloads_length _ _ _ _ _ _ _ _ _ Hgrid).
Qed.

Lemma failed_mission_saves_nothing_witness :
  payload_range_loop_computation example_collaborators example_simulator_short_range
    example_aircraft example_sweep_spec "data" "loop_results.txt" ∅
  = (∅, Raise (CollaboratorError "mission did not converge")).
Proof.
  apply (failed_mission_saves_nothing example_collaborators
           example_simulator_short_range example_aircraft example_sweep_spec "data"
           "loop_results.txt" ∅ example_sweep_figure example_sweep_grid [5; 4]
           example_sweep_out 3
           (default 0%Q (g_ranges example_sweep_grid !! 3))
           (default 0%Q (g_payloads example_sweep_grid !! 3))).
  - reflexivity.
  - reflexivity.
  - reflexivity.
  - reflexivity.
  - intros i ri pi Hi Hri Hpi.
    destruct i as [|[|[|i]]]; [| | |lia];
      injection Hri as <-; injection Hpi as <-; eexists; reflexivity.
  - reflexivity.
Defined.

(** X13: when the scratch files cannot be removed, the table is already
    saved but the grid parameters are not written.  In a folder that held no
    earlier grid parameters, [payload_range_full] then cannot reload the sweep:
    it raises [FileNotFoundError] although the table is there. *)
Theorem failed_cleanup_leaves_table_only {F : FloatOps} {R : FloatRepr F}
    (E : collaborators) (sim : simulator) (ac : aircraft) (spec : GridSpec)
    (folder file_save : string) (fs : gmap string file) (g : grid) (e : exn)
    (fig : figure) (show_grid : bool) :
  sweep_grid E sim ac spec = Ok g →
  remove_scratch sim = Raise e →
  fs !! pth_join folder ("grid_" +:+ file_save) = None →
  ∃ fs',
    payload_range_loop_computation E sim ac spec folder file_save fs = (fs', Raise e) ∧
    fs' !! pth_join folder file_save = Some (TableFile (grid_T g)) ∧
    payload_range_full E ac fig folder file_save show_grid fs'
      = Raise (FileNotFoundError (pth_join folder ("grid_" +:+ file_save))).
Proof.
  intros Hsweep Hclean Hnone.
  unfold payload_range_loop_computation. rewrite Hsweep, Hclean.
  eexists. split; [reflexivity|]. unfold np_savetxt. split.
  - apply lookup_insert_eq.
  - unfold payload_range_full, read_grid_file, open_readlines.
    rewrite lookup_insert_ne by (intros Heq; symmetry in Heq;
                                 exact (grid_path_differs _ _ Heq)).
    rewrite Hnone. reflexivity.
Qed.

Definition example_swept_grid : @grid Qfloat :=
  Eval vm_compute in
    match sweep_grid example_collaborators example_simulator_no_scratch
            example_aircraft example_sweep_spec with
    | Ok g => g
    | Raise _ => Grid [] [] []
    end.

Lemma failed_cleanup_leaves_table_only_witness :
  ∃ fs',
    payload_range_loop_computation example_collaborators example_simulator_no_scratch
      example_aircraft example_sweep_spec "data" "loop_results.txt" ∅
    = (fs', Raise (FileNotFoundError "workdir/mission_study.csv")) ∧
    fs' !! pth_join "data" "loop_results.txt"
      = Some (TableFile (grid_T example_swept_grid)) ∧
    payload_range_full example_collaborators example_aircraft [] "data"
      "loop_results.txt" true fs'
      = Raise (FileNotFoundError "data/grid_loop_results.txt").
Proof.
  apply (failed_cleanup_leaves_table_only example_collaborators
           example_simulator_no_scratch example_aircraft example_sweep_spec "data"
           "loop_results.txt" ∅ example_swept_grid
           (FileNotFoundError "workdir/mission_study.csv") [] true).
  - vm_compute. reflexivity.
  - reflexivity.
  - reflexivity.
Defined.

(** ** The values of the reloaded surface *)

Lemma column_lookup {F : FloatOps} (k : nat) (rows : list (list num)) :
  Forall (λ row : list num, k < length row) rows →
  ∀ i row x, rows !! i = Some row → row !! k = Some x →
    column k rows !! i = Some x.
Proof.
  unfold column. induction 1 as [|row0 rows Hrow0 _ IH]; intros i row x Hi Hx.
  - discriminate.
  - simpl. destruct (lookup_lt_is_Some_2 row0 k Hrow0) as [x0 Hx0]. rewrite Hx0.
    destruct i as [|i]; simpl in *.
    + injection Hi as ->. congruence.
    + apply (IH i row x Hi Hx).
Qed.

Lemma slice_lookup {A} (l : list A) (s c j : nat) :
  j < c → slice l s (s + c) !! j = l !! (s + j).
Proof.
  intros Hj. unfold slice. replace (s + c - s) with c by lia.
  rewrite lookup_take_lt by exact Hj. apply lookup_drop.
Qed.

Section SurfaceValues.
Context {F : FloatOps} {R : FloatRepr F}.
Local Open Scope float_scope.

(** The loop filling [z], value by value: row [i] holds the values of the
    third column from position [sum(n_values_ranges[0:i])] on, then the cells
    left unset. *)
Lemma fill_rows_values (col0 col1 col2 : list num) (cnt : list nat) (c0 : nat) :
  (sum_list cnt ≤ length col2)%nat →
  ∃ z, for_range 0 (length cnt)
         (fill_row (Array2 [col0; col1; col2]) cnt)
         (replicate (length cnt) (replicate c0 None)) = Ok z ∧
       length z = length cnt ∧
       ∀ i ci, cnt !! i = Some ci →
         z !! i = Some (map Some (slice col2 (sum_list (take i cnt))
                                    (sum_list (take i cnt) + ci))
                        ++ replicate (c0 - ci) None).
Proof.
  intros Hsum.
  pose (J := λ (k : nat) (z : list (list (option num))),
    length z = length cnt ∧
    (∀ i ci, (i < k)%nat → cnt !! i = Some ci →
       z !! i = Some (map Some (slice col2 (sum_list (take i cnt))
                                  (sum_list (take i cnt) + ci))
                      ++ replicate (c0 - ci) None)) ∧
    (∀ i, (k ≤ i < length cnt)%nat → z !! i = Some (replicate c0 None))).
  destruct (for_range_total J (fill_row (Array2 [col0; col1; col2]) cnt)
              (length cnt) 0 (replicate (length cnt) (replicate c0 None)))
    as (z & Hrun & Hlen & Hdone & _).
  - split; [apply length_replicate|]. split.
    + intros i ci Hi. lia.
    + intros i Hi. apply lookup_replicate. split; [reflexivity|lia].
  - intros k z Hk (Hlen & Hdone & Htodo).
    destruct (lookup_lt_is_Some_2 cnt k) as [ck Hck]; [lia|].
    unfold fill_row.
    rewrite (proj2 (getitem_nat cnt k ck) Hck). cbn [mbind result_bind].
    change (ndarray_row (Array2 [col0; col1; col2]) 2) with (Ok col2).
    cbn [mbind result_bind].
    rewrite (proj2 (getitem_nat z k (replicate c0 None)) (Htodo k ltac:(lia))).
    cbn [mbind result_bind].
    eexists. split; [reflexivity|].
    split; [rewrite length_insert; exact Hlen|]. split.
    + intros i ci Hi Hci.
      destruct (decide (i = k)) as [->|Hne].
      * rewrite list_lookup_insert_eq by lia.
        rewrite Hck in Hci. injection Hci as <-.
        unfold set_slice0. rewrite drop_replicate.
        unfold slice at 2 3. rewrite Nat.sub_0_r, drop_0. reflexivity.
      * rewrite list_lookup_insert_ne by congruence.
        apply Hdone; [lia|exact Hci].
    + intros i Hi. rewrite list_lookup_insert_ne by lia. apply Htodo. lia.
  - exists z. split; [exact Hrun|]. split; [exact Hlen|].
    intros i ci Hci. apply Hdone; [|exact Hci].
    apply lookup_lt_Some in Hci. lia.
Qed.

(** A table of rows [[range, payload, consumption]] read column by column. *)
Lemma table_columns (rows : list (list num)) (ranges payloads : list num) :
  length rows = length ranges →
  (∀ i r, ranges !! i = Some r →
     ∃ p c, payloads !! i = Some p ∧ rows !! i = Some [r; p; c]) →
  column 0 rows = ranges ∧
  (length payloads = length ranges → column 1 rows = payloads) ∧
  length (column 1 rows) = length rows ∧
  length (column 2 rows) = length rows ∧
  ∀ i r p c, rows !! i = Some [r; p; c] →
    column 1 rows !! i = Some p ∧ column 2 rows !! i = Some c.
Proof.
  intros Hlen Hrows.
  assert (H3 : ∀ k, (k < 3)%nat → Forall (λ row : list num, (k < length row)%nat) rows).
  { intros k Hk. apply Forall_forall. intros row Hrow.
    apply list_elem_of_lookup in Hrow as [i Hi].
    destruct (lookup_lt_is_Some_2 ranges i) as [r Hr].
    { apply lookup_lt_Some in Hi. lia. }
    destruct (Hrows i r Hr) as (p & c & _ & Hrow).
    rewrite Hi in Hrow. injection Hrow as ->. simpl. lia. }
  split; [|split; [|split; [|split]]].
  - apply (list_eq_same_length _ _ (length rows)).
    + symmetry. exact Hlen.
    + apply column_length, H3. lia.
    + intros i x y Hi Hx Hy.
      destruct (Hrows i y Hy) as (p & c & _ & Hrow).
      rewrite (column_lookup 0 rows (H3 0%nat ltac:(lia)) i [y; p; c] y Hrow eq_refl)
        in Hx.
      congruence.
  - intros Hpl. apply (list_eq_same_length _ _ (length rows)).
    + rewrite Hpl. symmetry. exact Hlen.
    + apply column_length, H3. lia.
    + intros i x y Hi Hx Hy.
      destruct (lookup_lt_is_Some_2 ranges i) as [r Hr]; [lia|].
      destruct (Hrows i r Hr) as (p & c & Hp & Hrow).
      rewrite (column_lookup 1 rows (H3 1%nat ltac:(lia)) i [r; p; c] p Hrow eq_refl)
        in Hx.
      congruence.
  - apply column_length, H3. lia.
  - apply column_length, H3. lia.
  - intros i r p c Hrow. split.
    + apply (column_lookup 1 rows (H3 1%nat ltac:(lia)) i [r; p; c] p Hrow eq_refl).
    + apply (column_lookup 2 rows (H3 2%nat ltac:(lia)) i [r; p; c] c Hrow eq_refl).
Qed.
End SurfaceValues.

(** The contour [payload_range_full] builds from a completed sweep of two
    points or more: its axes and its values. *)
Lemma reloaded_contour {F : FloatOps} {R : FloatRepr F}
    (E : collaborators) (sim : simulator) (ac : aircraft) (spec : GridSpec)
    (folder file_save : string) (fs fs' : gmap string file)
    (fig : figure) (g : grid) (cnt : list nat) (out : list string)
    (fig0 : figure) (show0 : bool) (step : Z) :
  range_step spec = PyInt step →
  payload_range_loop_computation E sim ac spec folder file_save fs = (fs', Ok ()) →
  grid_generation E ac [] spec true = Ok (fig, g, cnt, out) →
  2 ≤ length (g_ranges g) →
  ∃ fig' out' x y z c0 lo hi,
    payload_range_full E ac fig0 folder file_save show0 fs'
      = Ok (fig' ++ [Contour x y z], out') ∧
    cnt !! 0 = Some c0 ∧
    x = take c0 (g_ranges g) ∧
    py_min (g_payloads g) = Ok lo ∧
    py_max (g_payloads g) = Ok hi ∧
    np_linspace lo hi (n_intervals_payloads spec) = Ok y ∧
    length cnt = Z.to_nat (n_intervals_payloads spec) ∧
    length z = length cnt ∧
    ∀ i ci, cnt !! i = Some ci →
      ∃ zrow,
        z !! i = Some zrow ∧
        (∀ j, j < ci →
           ∃ r p fuel,
             g_ranges g !! (sum_list (take i cnt) + j) = Some r ∧
             g_payloads g !! (sum_list (take i cnt) + j) = Some p ∧
             evaluate_mission sim p (r * of_int (10 ^ 3) * lit 1852 3)%F = Ok fuel ∧
             zrow !! j
               = Some (Some (total_fuel fuel
                             / (p * r * lit 1852 3 * of_int (10 ^ 3)))%F) ∧
             (alternative_grid spec = false → x !! j = Some r)) ∧
        (∀ j, ci ≤ j < c0 → zrow !! j = Some None).
Proof.
  intros Hstep Hsweep Hgrid Hpoints.
  pose proof (sweep_table_rows _ _ _ _ _ _ _ _ Hsweep)
    as (fig1 & g1 & cnt1 & out1 & rows & Hgrid1 & Htable & Hrlen & Hrows).
  rewrite Hgrid in Hgrid1. injection Hgrid1 as <- <- <- <-.
  apply sweep_completed in Hsweep as (_ & _ & _ & _ & _ & _ & _ & _ & Hdesc).
  destruct (grid_generation_figure_independent _ _ _ _ _ _ _ _ _ Hgrid fig0 show0)
    as [fig0' Hgrid0].
  (* the counts *)
  pose proof Hgrid as Hg. unfold grid_generation in Hg.
  destruct (breguet_leduc_points E ac) as [BLr BLp].
  pose proof (λ Halt, rectangular_rows_aligned BLr BLp [] fig spec true g cnt out
                        Halt Hg) as Haligned.
  apply grid_of_envelope_rows in Hg
    as (mp & val & grows & _ & Hval & Hgr & _ & _ & Hcnt & _ & Hall & _).
  destruct (np_linspace_length _ _ _ _ Hval) as [Hn _].
  assert (Hsum : sum_list cnt = length (g_ranges g)).
  { rewrite Hcnt, Hgr, length_concat_sum. reflexivity. }
  assert (Hclen : length cnt = Z.to_nat (n_intervals_payloads spec)).
  { rewrite Hcnt, length_map. destruct Hall as [->|Hall]; [|exact Hall].
    rewrite Hgr in Hpoints. simpl in Hpoints. lia. }
  assert (Hc0 : ∃ c0, cnt !! 0%nat = Some c0).
  { apply lookup_lt_is_Some_2. destruct cnt; [|simpl; lia].
    unfold sum_list in Hsum. simpl in Hsum. lia. }
  destruct Hc0 as [c0 Hc0].
  (* the table read back, column by column *)
  destruct (table_columns rows (g_ranges g) (g_payloads g) Hrlen)
    as (Hcol0 & Hcol1 & Hl1 & Hl2 & Hcols).
  { intros i r Hr. destruct (Hrows i r Hr) as (p & fuel & Hp & _ & Hrow).
    eexists p, _. split; [exact Hp|exact Hrow]. }
  assert (Hload : np_loadtxt fs' (pth_join folder file_save) = Ok (Array2 rows)).
  { unfold np_loadtxt. rewrite Htable.
    destruct rows as [|r1 [|r2 rows']]; simpl in Hrlen; try lia. reflexivity. }
  specialize (Hcol1 (grid_generation_payloads_length _ _ _ _ _ _ _ _ _ Hgrid)).
  destruct (column 1 rows) as [|p1 col1'] eqn:Ecol1; [simpl in Hl1; lia|].
  destruct (np_linspace_total
              (foldl (λ cur x, if (x <? cur)%F then x else cur) p1 col1')
              (foldl (λ cur x, if (cur <? x)%F then x else cur) p1 col1')
              _ Hn) as [y Hy].
  destruct (fill_rows_values (column 0 rows) (p1 :: col1') (column 2 rows) cnt c0)
    as (z & Hz & Hzlen & Hzrows); [lia|].
  (* the run of payload_range_full *)
  exists fig0', out, (slice (column 0 rows) 0 c0), y, z, c0.
  exists (foldl (λ cur x, if (x <? cur)%F then x else cur) p1 col1'),
         (foldl (λ cur x, if (cur <? x)%F then x else cur) p1 col1').
  split.
  { unfold payload_range_full.
    rewrite (read_written_grid_file _ _ _ _ _ Hstep Hdesc). cbn [mbind result_bind].
    rewrite Hgrid0. cbn [mbind result_bind].
    replace (if alternative_grid spec then Z.of_nat (length cnt)
             else n_intervals_payloads spec)
      with (n_intervals_payloads spec)
      by (destruct (alternative_grid spec); lia).
    unfold load_surface. rewrite Hload. cbn [mbind result_bind ndarray_T].
    rewrite Ecol1.
    assert (Hg0 : getitem cnt 0 = Ok c0) by exact (proj2 (getitem_nat cnt 0 c0) Hc0).
    rewrite Hg0. cbn [mbind result_bind].
    change (ndarray_row (Array2 [column 0 rows; p1 :: col1'; column 2 rows]) 0)
      with (Ok (column 0 rows)).
    change (ndarray_row (Array2 [column 0 rows; p1 :: col1'; column 2 rows]) 1)
      with (Ok (p1 :: col1')).
    cbn [mbind result_bind py_min py_max]. rewrite Hy. cbn [mbind result_bind].
    rewrite <- Hclen, Hz. reflexivity. }
  split; [exact Hc0|].
  split; [unfold slice; rewrite Nat.sub_0_r, drop_0, Hcol0; reflexivity|].
  split; [rewrite <- Hcol1; reflexivity|].
  split; [rewrite <- Hcol1; reflexivity|].
  split; [exact Hy|]. split; [exact Hclen|].
  split; [exact Hzlen|].
  intros i ci Hci. eexists. split; [apply (Hzrows i ci Hci)|].
  pose proof (sum_list_take_le cnt i ci Hci) as Hle.
  set (s := sum_list (take i cnt)) in *.
  assert (Hslice : length (slice (column 2 rows) s (s + ci)) = ci).
  { unfold slice. rewrite length_take, length_drop. lia. }
  split.
  - intros j Hj.
    destruct (lookup_lt_is_Some_2 (g_ranges g) (s + j)) as [r Hr]; [lia|].
    destruct (Hrows _ r Hr) as (p & fuel & Hp & Hfuel & Hrow).
    exists r, p, fuel.
    split; [exact Hr|]. split; [exact Hp|]. split; [exact Hfuel|]. split.
    + rewrite lookup_app_l by (rewrite length_map, Hslice; exact Hj).
      rewrite list_lookup_fmap, slice_lookup by exact Hj.
      destruct (Hcols _ _ _ _ Hrow) as [_ ->]. reflexivity.
    + intros Halt.
      destruct (Haligned Halt i ci j Hci Hj) as (r' & c0' & Hc0' & Hj0 & Hr0 & Hr').
      fold s in Hr'. rewrite Hr in Hr'. injection Hr' as <-.
      rewrite Hc0 in Hc0'. injection Hc0' as <-.
      unfold slice. rewrite Nat.sub_0_r, drop_0, Hcol0.
      rewrite lookup_take_lt by exact Hj0. exact Hr0.
  - intros j Hj.
    rewrite lookup_app_r by (rewrite length_map, Hslice; lia).
    rewrite length_map, Hslice.
    apply lookup_replicate. split; [reflexivity|lia].
Qed.

(** X15: what the reloaded contour shows.  After a completed sweep of
    two points or more, [payload_range_full] adds a contour whose x axis is
    the ranges of band 0 and whose row [i] holds, for every point [j] of band
    [i], the specific consumption the sweep computed for that grid point: the
    fuel the mission returned for its payload and range, divided by
    [payload * range * 1.852 * 10 ** 3]; the cells beyond the points of the
    band stay unset.  Under the rectangular policy the range of that grid
    point is [x[j]]. *)
Theorem reloaded_contour_values {F : FloatOps} {R : FloatRepr F}
    (E : collaborators) (sim : simulator) (ac : aircraft) (spec : GridSpec)
    (folder file_save : string) (fs fs' : gmap string file)
    (fig : figure) (g : grid) (cnt : list nat) (out : list string)
    (fig0 : figure) (show0 : bool) (step : Z) :
  range_step spec = PyInt step →
  payload_range_loop_computation E sim ac spec folder file_save fs = (fs', Ok ()) →
  grid_generation E ac [] spec true = Ok (fig, g, cnt, out) →
  2 ≤ length (g_ranges g) →
  ∃ fig' out' x y z c0,
    payload_range_full E ac fig0 folder file_save show0 fs'
      = Ok (fig' ++ [Contour x y z], out') ∧
    cnt !! 0 = Some c0 ∧
    x = take c0 (g_ranges g) ∧
    length y = length cnt ∧
    length z = length cnt ∧
    ∀ i ci, cnt !! i = Some ci →
      ∃ zrow,
        z !! i = Some zrow ∧
        (∀ j, j < ci →
           ∃ r p fuel,
             g_ranges g !! (sum_list (take i cnt) + j) = Some r ∧
             g_payloads g !! (sum_list (take i cnt) + j) = Some p ∧
             evaluate_mission sim p (r * of_int (10 ^ 3) * lit 1852 3)%F = Ok fuel ∧
             zrow !! j
               = Some (Some (total_fuel fuel
                             / (p * r * lit 1852 3 * of_int (10 ^ 3)))%F) ∧
             (alternative_grid spec = false → x !! j = Some r)) ∧
        (∀ j, ci ≤ j < c0 → zrow !! j = Some None).
Proof.
  intros Hstep Hsweep Hgrid Hpoints.
  destruct (reloaded_contour E sim ac spec folder file_save fs fs' fig g cnt out
              fig0 show0 step Hstep Hsweep Hgrid Hpoints)
    as (fig' & out' & x & y & z & c0 & lo & hi & Hrun & Hc0 & Hx & _ & _ & Hy
        & Hclen & Hzlen & Hz).
  exists fig', out', x, y, z, c0.
  split; [exact Hrun|]. split; [exact Hc0|]. split; [exact Hx|].
  split; [apply np_linspace_length in Hy as [_ Hy]; rewrite Hy, Hclen; reflexivity|].
  split; [exact Hzlen|exact Hz].
Qed.

Lemma reloaded_contour_values_witness :
  ∃ fig' out' x y z c0,
    payload_range_full example_collaborators example_aircraft [] "data"
      "loop_results.txt" false example_swept.1
      = Ok (fig' ++ [Contour x y z], out') ∧
    [5; 4] !! 0 = Some c0 ∧
    x = take c0 (g_ranges example_sweep_grid) ∧
    length y = length [5; 4] ∧
    length z = length [5; 4] ∧
    ∀ i ci, [5; 4] !! i = Some ci →
      ∃ zrow,
        z !! i = Some zrow ∧
        (∀ j, j < ci →
           ∃ r p fuel,
             g_ranges example_sweep_grid !! (sum_list (take i [5; 4]) + j) = Some r ∧
             g_payloads example_sweep_grid !! (sum_list (take i [5; 4]) + j) = Some p ∧
             evaluate_mission example_simulator p
               (r * of_int (10 ^ 3) * lit 1852 3)%F = Ok fuel ∧
             zrow !! j
               = Some (Some (total_fuel fuel
                             / (p * r * lit 1852 3 * of_int (10 ^ 3)))%F) ∧
             (alternative_grid example_sweep_spec = false → x !! j = Some r)) ∧
        (∀ j, ci ≤ j < c0 → zrow !! j = Some None).
Proof.
  assert (Hgrid : grid_generation example_collaborators example_aircraft []
                    example_sweep_spec true
                  = Ok (example_sweep_figure, example_sweep_grid, [5; 4],
                        example_sweep_out))
    by reflexivity.
  assert (Hpoints : 2 ≤ length (g_ranges example_sweep_grid))
    by (apply (Nat.leb_le 2); reflexivity).
  pose proof (reloaded_contour_values example_collaborators example_simulator
                example_aircraft example_sweep_spec "data" "loop_results.txt" ∅
                example_swept.1 example_sweep_figure example_sweep_grid [5; 4]
                example_sweep_out [] false 500%Z) as H.
  specialize (H eq_refl).
  specialize (H example_swept_completed). specialize (H Hgrid Hpoints).
  exact H.
Defined.

(** ** The figures *)

Section Figures.
Context {F : FloatOps}.
Local Open Scope float_scope.

(** The traces [grid_generation] adds to the figure it is given. *)
Lemma grid_generation_figure (E : collaborators) (ac : aircraft) (fig fig' : figure)
    (spec : GridSpec) (show_grid : bool) (g : grid) (cnt : list nat)
    (out : list string) :
  grid_generation E ac fig spec show_grid = Ok (fig', g, cnt, out) →
  fig' = (fig ++ [Scatter (removelast (breguet_leduc_points E ac).1)
                    (removelast (breguet_leduc_points E ac).2) "lines"])
         ++ (if show_grid then [Scatter (g_ranges g) (g_payloads g) "markers"] else []).
Proof.
  unfold grid_generation. destruct (breguet_leduc_points E ac) as [BLr BLp].
  unfold grid_of_envelope. intros H.
  bind_inv H. bind_inv H. bind_inv H. bind_inv H. bind_inv H.
  bind_inv H. destruct x4 as [val mr].
  bind_inv H. destruct x4 as [[gr gp] cnt'].
  injection H as <- <- _ _. simpl.
  destruct show_grid; [reflexivity|]. rewrite app_nil_r. reflexivity.
Qed.
End Figures.

(** X16: designs can be superposed.  [payload_range_grid_plot] keeps
    the traces of the figure it is given, in their order, and adds after them
    the envelope that [payload_range_simple] draws - the points A, B, C and D,
    without the design point - as lines, then the grid points when
    [show_grid] is set. *)
Theorem grid_plot_extends_figure {F : FloatOps} (E : collaborators) (ac : aircraft)
    (fig fig' : figure) (spec : GridSpec) (show_grid : bool) (out : list string) :
  payload_range_grid_plot E ac fig spec show_grid = Ok (fig', out) →
  ∃ x y added,
    payload_range_simple E ac fig = fig ++ [Scatter x y "lines+markers"] ∧
    fig' = fig ++ Scatter x y "lines" :: added ∧
    (breguet_leduc_points E ac).1 = x ++ [sizing_range ac] ∧
    length y = 4 ∧
    (show_grid = false → added = []) ∧
    (show_grid = true → ∃ gx gy, added = [Scatter gx gy "markers"]).
Proof.
  unfold payload_range_grid_plot. intros H.
  bind_inv H. destruct x as [[[fig1 g] cnt] out1]. injection H as <- <-.
  apply grid_generation_figure in Hx. subst fig1.
  unfold payload_range_simple.
  destruct (breguet_leduc_points_five E ac)
    as (ra_b & ra_c & ra_d & mp & pc & pd & ps & ->).
  cbn [fst snd removelast].
  eexists _, _, _. split; [reflexivity|].
  split; [rewrite <- app_assoc; reflexivity|].
  split; [reflexivity|]. split; [reflexivity|].
  split; intros ->; [reflexivity|eexists _, _; reflexivity].
Qed.

Lemma grid_plot_extends_figure_witness :
  ∃ x y added,
    payload_range_simple example_collaborators example_aircraft []
      = [] ++ [Scatter x y "lines+markers"] ∧
    example_sweep_figure = [] ++ Scatter x y "lines" :: added ∧
    (breguet_leduc_points example_collaborators example_aircraft).1
      = x ++ [sizing_range example_aircraft] ∧
    length y = 4 ∧
    (true = false → added = []) ∧
    (true = true → ∃ gx gy, added = [Scatter gx gy "markers"]).
Proof.
  apply (grid_plot_extends_figure example_collaborators example_aircraft []
           example_sweep_figure example_sweep_spec true example_sweep_out).
  reflexivity.
Defined.

(** ** Reloading without a table *)

(** X17: with the grid parameters in place and no table,
    [payload_range_full] is [payload_range_grid_plot] on the parameters read
    back, followed by the message asking to run the sweep first: it returns
    the same figure, or raises what the grid generation raises. *)
Theorem missing_table_shows_grid_plot {F : FloatOps} {R : FloatRepr F}
    (E : collaborators) (ac : aircraft) (fig : figure) (spec : GridSpec)
    (folder file_save : string) (show_grid : bool) (fs : gmap string file) (step : Z) :
  range_step spec = PyInt step →
  fs !! pth_join folder ("grid_" +:+ file_save)
    = Some (TextFile (grid_file_lines file_save spec)) →
  fs !! pth_join folder file_save = None →
  payload_range_full E ac fig folder file_save show_grid fs
  = ('(fig', out) ← payload_range_grid_plot E ac fig spec show_grid;
     Ok (fig', out ++ [no_results_message])).
Proof.
  intros Hstep Hdesc Htable. unfold payload_range_grid_plot.
  destruct (grid_generation E ac fig spec show_grid) as [[[[fig' g] cnt] out]|e] eqn:Hgrid.
  - cbn [mbind result_bind].
    apply (missing_table_is_reported E ac fig fig' spec folder file_save show_grid fs
             g cnt out step Hstep Hdesc Htable Hgrid).
  - unfold payload_range_full.
    rewrite (read_written_grid_file _ _ _ _ _ Hstep Hdesc). cbn [mbind result_bind].
    rewrite Hgrid. reflexivity.
Qed.

Definition example_folder_without_table : gmap string (@file Qfloat) :=
  {[ pth_join "data" ("grid_" +:+ "loop_results.txt")
     := TextFile (grid_file_lines "loop_results.txt" example_sweep_spec) ]}.

Lemma missing_table_shows_grid_plot_witness :
  payload_range_full example_collaborators example_aircraft [] "data"
    "loop_results.txt" true example_folder_without_table
  = ('(fig', out) ← payload_range_grid_plot example_collaborators example_aircraft []
                      example_sweep_spec true;
     Ok (fig', out ++ [no_results_message])).
Proof.
  apply (missing_table_shows_grid_plot example_collaborators example_aircraft []
           example_sweep_spec "data" "loop_results.txt" true
           example_folder_without_table 500%Z).
  - reflexivity.
  - reflexivity.
  - reflexivity.
Defined.

(** ** A truncated file of grid parameters *)

Section TruncatedFile.
Context {F : FloatOps} {R : FloatRepr F}.

Lemma last_field_raises (lines : list string) (k : Z) (e : exn) :
  last_field lines k = Raise e → e = IndexError.
Proof.
  unfold last_field. destruct (getitem lines k) as [line|e'] eqn:Hline.
  - cbn [mbind result_bind]. apply getitem_raises.
  - cbn [mbind result_bind]. intros [= <-]. apply (getitem_raises _ _ _ Hline).
Qed.

Lemma last_field_out_of_range (lines : list string) (k : nat) :
  (length lines ≤ k)%nat → last_field lines (Z.of_nat k) = Raise IndexError.
Proof.
  intros Hk. unfold last_field.
  destruct (getitem lines (Z.of_nat k)) as [line|e] eqn:Hline.
  - apply getitem_nat, lookup_lt_Some in Hline. lia.
  - apply getitem_raises in Hline as ->. reflexivity.
Qed.

Lemma read_int_raises (lines : list string) (k : Z) (e : exn) :
  last_field lines k ≫= py_int = Raise e → e = IndexError ∨ e = ValueError.
Proof.
  destruct (last_field lines k) as [tok|e'] eqn:Htok; cbn [mbind result_bind].
  - unfold py_int. destruct (int_of_string tok); [discriminate|].
    intros [= <-]. right. reflexivity.
  - intros [= <-]. left. apply (last_field_raises _ _ _ Htok).
Qed.

Lemma read_float_raises (lines : list string) (k : Z) (e : exn) :
  last_field lines k ≫= py_float = Raise e → e = IndexError ∨ e = ValueError.
Proof.
  destruct (last_field lines k) as [tok|e'] eqn:Htok; cbn [mbind result_bind].
  - unfold py_float. destruct (float_of_string tok); [discriminate|].
    intros [= <-]. right. reflexivity.
  - intros [= <-]. left. apply (last_field_raises _ _ _ Htok).
Qed.

(** The seven reads of [payload_range_full] need the title line and seven
    more lines. *)
Lemma read_grid_file_truncated (fs : gmap string file) (folder file_save : string)
    (lines : list string) :
  fs !! pth_join folder ("grid_" +:+ file_save) = Some (TextFile lines) →
  (length lines < 8)%nat →
  ∃ e, read_grid_file fs folder file_save = Raise e ∧ (e = IndexError ∨ e = ValueError).
Proof.
  intros Hfs Hlen. unfold read_grid_file, open_readlines. rewrite Hfs.
  cbn [mbind result_bind].
  set (ls := drop 1 lines).
  assert (Hls : (length ls ≤ 6)%nat) by (unfold ls; rewrite length_drop; lia).
  destruct (last_field ls 0 ≫= py_int) as [n|e] eqn:H0;
    [|exists e; split; [reflexivity|apply (read_int_raises _ _ _ H0)]].
  cbn [mbind result_bind].
  destruct (last_field ls 1 ≫= py_int) as [s|e] eqn:H1;
    [|exists e; split; [reflexivity|apply (read_int_raises _ _ _ H1)]].
  cbn [mbind result_bind].
  destruct (last_field ls 2 ≫= py_float) as [u|e] eqn:H2;
    [|exists e; split; [reflexivity|apply (read_float_raises _ _ _ H2)]].
  cbn [mbind result_bind].
  destruct (last_field ls 3 ≫= py_float) as [l|e] eqn:H3;
    [|exists e; split; [reflexivity|apply (read_float_raises _ _ _ H3)]].
  cbn [mbind result_bind].
  destruct (last_field ls 4 ≫= py_float) as [r|e] eqn:H4;
    [|exists e; split; [reflexivity|apply (read_float_raises _ _ _ H4)]].
  cbn [mbind result_bind].
  destruct (last_field ls 5 ≫= py_float) as [lf|e] eqn:H5;
    [|exists e; split; [reflexivity|apply (read_float_raises _ _ _ H5)]].
  cbn [mbind result_bind].
  pose proof (last_field_out_of_range ls 6 Hls) as H6.
  change (Z.of_nat 6) with 6%Z in H6. rewrite H6.
  exists IndexError. auto.
Qed.
End TruncatedFile.

(** X18: a file of grid parameters cut short is refused.  When it holds
    fewer than the title line and the seven parameter lines,
    [payload_range_full] returns no figure: it raises [IndexError] (a missing
    line) or [ValueError] (a last field that is not a number), outside the
    [try], so that nothing is printed. *)
Theorem truncated_grid_file_is_rejected {F : FloatOps} {R : FloatRepr F}
    (E : collaborators) (ac : aircraft) (fig : figure)
    (folder file_save : string) (show_grid : bool) (fs : gmap string file)
    (lines : list string) :
  fs !! pth_join folder ("grid_" +:+ file_save) = Some (TextFile lines) →
  length lines < 8 →
  ∃ e, payload_range_full E ac fig folder file_save show_grid fs = Raise e ∧
       (e = IndexError ∨ e = ValueError).
Proof.
  intros Hfs Hlen.
  destruct (read_grid_file_truncated fs folder file_save lines Hfs Hlen)
    as (e & Hread & He).
  exists e. split; [|exact He].
  unfold payload_range_full. rewrite Hread. reflexivity.
Qed.

(** The parameters file of the worked sweep, without its last line. *)
Definition example_folder_truncated : gmap string (@file Qfloat) :=
  {[ pth_join "data" ("grid_" +:+ "loop_results.txt")
     := TextFile (take 7 (grid_file_lines "loop_results.txt" example_sweep_spec)) ]}.

Lemma truncated_grid_file_is_rejected_witness :
  ∃ e, payload_range_full example_collaborators example_aircraft [] "data"
         "loop_results.txt" true example_folder_truncated = Raise e ∧
       (e = IndexError ∨ e = ValueError).
Proof.
  apply (truncated_grid_file_is_rejected example_collaborators example_aircraft []
           "data" "loop_results.txt" true example_folder_truncated
           (take 7 (grid_file_lines "loop_results.txt" example_sweep_spec))).
  - reflexivity.
  - simpl. lia.
Defined.
(** ** The grid stays inside the envelope *)

Lemma Qmult_le_nonpos (s a b : Q) : (s <= 0)%Q → (a <= b)%Q → (s * b <= s * a)%Q.
Proof. intros Hs Hab. nra. Qed.

Lemma Qdiv_nonpos (a b : Q) : (a <= 0)%Q → (0 < b)%Q → (a / b <= 0)%Q.
Proof. intros Ha Hb. apply Qle_shift_div_r; [exact Hb|]. lra. Qed.

(** With exact arithmetic the samples of [np.linspace] are in increasing
    order when [start <= stop]. *)
Lemma np_linspace_sorted (start stop : Q) (n : Z) (l : list Q) :
  (start <= stop)%Q →
  @np_linspace Qfloat start stop n = Ok l →
  ∀ i j x y, i ≤ j → l !! i = Some x → l !! j = Some y → (x <= y)%Q.
Proof.
  intros Hle Hl i j x y Hij Hx Hy.
  pose proof (np_linspace_le_stop start stop n l Hle Hl) as Hstop.
  revert Hl. unfold np_linspace.
  destruct (Z.ltb_spec n 0) as [|Hn]; [discriminate|].
  destruct (Z.to_nat n) as [|[|k]] eqn:Hk; intros Hl.
  - injection Hl as <-. discriminate.
  - injection Hl as <-. destruct i, j; try discriminate.
    injection Hx as <-. injection Hy as <-. apply Qle_refl.
  - unfold_Qfloat.
    set (f := λ i : nat, (inject_Z (Z.of_nat i) * ((stop - start) / inject_Z (n - 1))
                          + start)%Q) in *.
    assert (Hl' : l = map f (seq 0 (S k)) ++ [stop]) by congruence.
    clear Hl. subst l.
    assert (Hstep : (0 <= (stop - start) / inject_Z (n - 1))%Q).
    { apply Qle_shift_div_l; [|lra].
      change 0%Q with (inject_Z 0). rewrite <- Zlt_Qlt. lia. }
    assert (Hlen : length (map f (seq 0 (S k))) = S k)
      by (rewrite length_map, length_seq; reflexivity).
    assert (Hf : ∀ a c, (map f (seq 0 (S k)) ++ [stop]) !! a = Some c →
                 (a < S k ∧ c = f a) ∨ (a = S k ∧ c = stop)).
    { intros a c Ha. apply lookup_app_Some in Ha as [Ha|[Hge Ha]].
      - left. rewrite list_lookup_fmap in Ha.
        destruct (seq 0 (S k) !! a) as [b|] eqn:Hb; [|discriminate].
        apply lookup_seq in Hb as [-> Hb]. injection Ha as <-. auto.
      - right. rewrite Hlen in Hge, Ha.
        destruct (a - S k) as [|d] eqn:Hd; [|discriminate].
        injection Ha as <-. split; [lia|reflexivity]. }
    destruct (Hf _ _ Hy) as [[Hj ->]|[Hj ->]].
    + destruct (Hf _ _ Hx) as [[Hi ->]|[Hi ->]]; [|lia].
      unfold f.
      assert (Hz : (inject_Z (Z.of_nat i) <= inject_Z (Z.of_nat j))%Q).
      { rewrite <- Zle_Qle. lia. }
      nra.
    + apply (proj1 (Forall_forall _ _) Hstop). apply list_elem_of_lookup. eauto.
Qed.

(** The first sample is [start]. *)
Lemma np_linspace_head (start stop : Q) (n : Z) (l : list Q) (v : Q) :
  @np_linspace Qfloat start stop n = Ok l → l !! 0 = Some v → (v == start)%Q.
Proof.
  unfold np_linspace.
  destruct (Z.ltb_spec n 0) as [|Hn]; [discriminate|].
  destruct (Z.to_nat n) as [|[|k]] eqn:Hk; intros H Hv; injection H as <-.
  - discriminate.
  - injection Hv as <-. reflexivity.
  - simpl in Hv. injection Hv as <-. unfold_Qfloat.
    change (inject_Z (Z.of_nat 0)) with 0%Q. ring.
Qed.

(** The first index [np.where] returns: every element before it fails the
    test and the element at it passes. *)
Lemma np_where_from_first {A} (cond : A → bool) (l : list A) :
  ∀ off k, np_where_from cond l off !! 0 = Some k →
    off ≤ k ∧
    (∀ i x, i < k - off → l !! i = Some x → cond x = false) ∧
    ∃ x, l !! (k - off) = Some x ∧ cond x = true.
Proof.
  induction l as [|a l IH]; intros off k Hk; simpl in Hk; [discriminate|].
  destruct (cond a) eqn:Ha.
  - injection Hk as <-. split; [lia|]. split; [intros i x Hi; lia|].
    exists a. rewrite Nat.sub_diag. auto.
  - apply IH in Hk as (Hoff & Hbefore & x & Hx & Hc).
    split; [lia|]. split.
    + intros i y Hi Hy. destruct i as [|i]; simpl in Hy.
      * injection Hy as <-. exact Ha.
      * apply (Hbefore i y); [lia|exact Hy].
    + exists x. replace (k - off) with (S (k - S off)) by lia. auto.
Qed.

Lemma np_where_first {A} (cond : A → bool) (l : list A) (k : nat) :
  getitem (np_where cond l) 0 = Ok k →
  (∀ i x, i < k → l !! i = Some x → cond x = false) ∧
  ∃ x, l !! k = Some x ∧ cond x = true.
Proof.
  intros Hk. apply (getitem_nat _ 0) in Hk. unfold np_where in Hk.
  apply np_where_from_first in Hk as (_ & Hbefore & Hat).
  rewrite Nat.sub_0_r in Hbefore, Hat. auto.
Qed.

(** The maximum range of band [i], from the payload of the band: below
    the breakpoint on the line from D to C, from the breakpoint on on the line
    from C to B, times the right tolerance. *)
Lemma max_range_lookup (spec : @GridSpec Qfloat) (mp pc ra_b ra_c ra_d : Q)
    (val_payloads max_range : list Q) :
  (lower_limit_box_tolerance spec * mp <= upper_limit_box_tolerance spec * mp)%Q →
  grid_payload_bands spec mp pc ra_b ra_c ra_d = Ok (val_payloads, max_range) →
  ∀ i x, max_range !! i = Some x →
    ∃ v, val_payloads !! i = Some v ∧
         (((v < pc)%Q ∧
           x = (right_limit_box_tolerance spec * ((ra_c - ra_d) / pc * v + ra_d))%Q) ∨
          ((pc <= v)%Q ∧
           x = (right_limit_box_tolerance spec
                * ((ra_b - ra_c) / (mp - pc) * (v - pc) + ra_c))%Q)).
Proof.
  intros Hbox H.
  unfold grid_payload_bands in H.
  bind_inv H. rename x into val, Hx into Hval.
  bind_inv H. rename x into k0, Hx into Hk0.
  injection H as <- <-.
  apply np_where_first in Hk0 as (Hbefore & vk & Hvk & Hck).
  pose proof (np_linspace_sorted _ _ _ _ Hbox Hval) as Hsorted.
  unfold_Qfloat.
  apply Qle_bool_iff in Hck.
  set (f1 := λ v : Q, ((ra_c - ra_d) / pc * v + ra_d)%Q).
  set (f2 := λ v : Q, ((ra_b - ra_c) / (mp - pc) * (v - pc) + ra_c)%Q).
  set (rt := right_limit_box_tolerance spec) in *.
  assert (Hk0len : k0 < length val) by (apply lookup_lt_Some in Hvk; exact Hvk).
  intros i x Hi. rewrite list_lookup_fmap in Hi.
  destruct ((map f1 (slice val 0 k0) ++ map f2 (drop k0 val)) !! i) as [m|] eqn:Hm;
    [|discriminate].
  injection Hi as <-.
  assert (Hl1 : length (map f1 (slice val 0 k0)) = k0).
  { unfold slice. rewrite length_map, length_take, drop_0. lia. }
  apply lookup_app_Some in Hm as [Hm|[Hge Hm]].
  - apply lookup_lt_Some in Hm as Hlt. rewrite Hl1 in Hlt.
    rewrite list_lookup_fmap in Hm. unfold slice in Hm.
    rewrite Nat.sub_0_r, drop_0, lookup_take_lt in Hm by exact Hlt.
    destruct (val !! i) as [v|] eqn:Hv; [|discriminate]. injection Hm as <-.
    exists v. split; [reflexivity|]. left. split; [|reflexivity].
    apply Qle_bool_true_false. apply (Hbefore i v Hlt Hv).
  - rewrite Hl1 in Hge, Hm. rewrite list_lookup_fmap, lookup_drop in Hm.
    replace (k0 + (i - k0)) with i in Hm by lia.
    destruct (val !! i) as [v|] eqn:Hv; [|discriminate]. injection Hm as <-.
    exists v. split; [reflexivity|]. right. split; [|reflexivity].
    eapply Qle_trans; [exact Hck|]. apply (Hsorted k0 i vk v Hge Hvk Hv).
Qed.

(** On an envelope whose ranges grow from B to C to D and whose point C is
    strictly between no payload and the maximum payload, the maximum ranges of
    the bands decrease with the payload. *)
Lemma max_range_decreasing (spec : @GridSpec Qfloat) (mp pc ra_b ra_c ra_d : Q)
    (val_payloads max_range : list Q) :
  (0 < pc)%Q → (pc < mp)%Q → (ra_b <= ra_c)%Q → (ra_c <= ra_d)%Q →
  (lower_limit_box_tolerance spec * mp <= upper_limit_box_tolerance spec * mp)%Q →
  (0 <= right_limit_box_tolerance spec)%Q →
  grid_payload_bands spec mp pc ra_b ra_c ra_d = Ok (val_payloads, max_range) →
  ∀ i j x y, i ≤ j → max_range !! i = Some x → max_range !! j = Some y → (y <= x)%Q.
Proof.
  intros Hpc Hmp Hbc Hcd Hbox Hright H i j x y Hij Hx Hy.
  pose proof (max_range_lookup spec mp pc ra_b ra_c ra_d _ _ Hbox H) as Hmr.
  assert (Hval : @np_linspace Qfloat (lower_limit_box_tolerance spec * mp)%Q
                   (upper_limit_box_tolerance spec * mp)%Q (n_intervals_payloads spec)
                 = Ok val_payloads)
    by apply (grid_payload_bands_length _ _ _ _ _ _ _ _ H).
  pose proof (np_linspace_sorted _ _ _ _ Hbox Hval) as Hsorted.
  set (rt := right_limit_box_tolerance spec) in *.
  assert (Hs1 : ((ra_c - ra_d) / pc <= 0)%Q) by (apply Qdiv_nonpos; lra).
  assert (Hs2 : ((ra_b - ra_c) / (mp - pc) <= 0)%Q) by (apply Qdiv_nonpos; lra).
  assert (Hf1 : ((ra_c - ra_d) / pc * pc + ra_d == ra_c)%Q) by (field; lra).
  destruct (Hmr i x Hx) as (vi & Hvi & Hi).
  destruct (Hmr j y Hy) as (vj & Hvj & Hj).
  pose proof (Hsorted i j vi vj Hij Hvi Hvj) as Hvij.
  destruct Hi as [(Hvipc & ->)|(Hvipc & ->)];
    destruct Hj as [(Hvjpc & ->)|(Hvjpc & ->)].
  - pose proof (Qmult_le_nonpos _ _ _ Hs1 Hvij). nra.
  - pose proof (Qmult_le_nonpos _ vi pc Hs1 ltac:(lra)).
    pose proof (Qmult_le_nonpos _ 0 (vj - pc) Hs2 ltac:(lra)). nra.
  - lra.
  - pose proof (Qmult_le_nonpos _ (vi - pc) (vj - pc) Hs2 ltac:(lra)). nra.
Qed.

(** When no band is above the maximum payload, no maximum range is below
    the range of point B times the right tolerance. *)
Lemma max_range_at_least_B (spec : @GridSpec Qfloat) (mp pc ra_b ra_c ra_d : Q)
    (val_payloads max_range : list Q) :
  (0 < pc)%Q → (pc < mp)%Q → (ra_b <= ra_c)%Q → (ra_c <= ra_d)%Q →
  (lower_limit_box_tolerance spec * mp <= upper_limit_box_tolerance spec * mp)%Q →
  (upper_limit_box_tolerance spec * mp <= mp)%Q →
  (0 <= right_limit_box_tolerance spec)%Q →
  grid_payload_bands spec mp pc ra_b ra_c ra_d = Ok (val_payloads, max_range) →
  ∀ i x, max_range !! i = Some x → (right_limit_box_tolerance spec * ra_b <= x)%Q.
Proof.
  intros Hpc Hmp Hbc Hcd Hbox Hup Hright H i x Hx.
  pose proof (max_range_lookup spec mp pc ra_b ra_c ra_d _ _ Hbox H) as Hmr.
  assert (Hval : @np_linspace Qfloat (lower_limit_box_tolerance spec * mp)%Q
                   (upper_limit_box_tolerance spec * mp)%Q (n_intervals_payloads spec)
                 = Ok val_payloads)
    by apply (grid_payload_bands_length _ _ _ _ _ _ _ _ H).
  pose proof (np_linspace_le_stop _ _ _ _ Hbox Hval) as Hstop.
  set (rt := right_limit_box_tolerance spec) in *.
  assert (Hs1 : ((ra_c - ra_d) / pc <= 0)%Q) by (apply Qdiv_nonpos; lra).
  assert (Hs2 : ((ra_b - ra_c) / (mp - pc) <= 0)%Q) by (apply Qdiv_nonpos; lra).
  assert (Hf1 : ((ra_c - ra_d) / pc * pc + ra_d == ra_c)%Q) by (field; lra).
  assert (Hf2 : ((ra_b - ra_c) / (mp - pc) * (mp - pc) + ra_c == ra_b)%Q)
    by (field; lra).
  destruct (Hmr i x Hx) as (v & Hv & Hcase).
  assert (Hvmp : (v <= mp)%Q).
  { apply list_elem_of_lookup_2 in Hv.
    pose proof (proj1 (Forall_forall _ _) Hstop v Hv) as Hle. simpl in Hle. lra. }
  destruct Hcase as [(Hvpc & ->)|(Hvpc & ->)].
  - pose proof (Qmult_le_nonpos _ v pc Hs1 ltac:(lra)). nra.
  - pose proof (Qmult_le_nonpos _ (v - pc) (mp - pc) Hs2 ltac:(lra)). nra.
Qed.

(** X19: the rectangular grid stays inside the envelope.  With exact
    arithmetic, on an envelope whose ranges grow from B to C to D, none being
    negative, and whose point C is strictly between no payload and the
    maximum payload, with a positive step, bands running upwards between no
    payload and the maximum payload, and a right tolerance between 0 and 1:
    the maximum ranges of the bands decrease with the payload; the maximum
    range of band [i] is [right_limit_box_tolerance] times the range of the
    envelope at the payload of the band (on the line from D to C below the
    payload of point C, on the line from C to B from there on); and every
    point of band [i] has its payload between 0 and the maximum payload and
    its range at most that maximum range, hence at most the range of the
    envelope at its payload. *)
Theorem rectangular_points_inside_envelope
    (ra_a ra_b ra_c ra_d ra_s max_payload payload_b payload_c payload_d payload_s : Q)
    (fig fig' : figure) (spec : GridSpec) (show_grid : bool) (g : grid)
    (cnt : list nat) (out : list string) :
  alternative_grid spec = false →
  (0 < number_value (range_step spec))%Q →
  (0 < payload_c)%Q → (payload_c < max_payload)%Q →
  (0 <= ra_b)%Q → (ra_b <= ra_c)%Q → (ra_c <= ra_d)%Q →
  (0 <= lower_limit_box_tolerance spec * max_payload)%Q →
  (lower_limit_box_tolerance spec * max_payload
     <= upper_limit_box_tolerance spec * max_payload)%Q →
  (upper_limit_box_tolerance spec * max_payload <= max_payload)%Q →
  (0 <= right_limit_box_tolerance spec)%Q →
  (right_limit_box_tolerance spec <= 1)%Q →
  grid_of_envelope [ra_a; ra_b; ra_c; ra_d; ra_s]
    [max_payload; payload_b; payload_c; payload_d; payload_s] fig spec show_grid
    = Ok (fig', g, cnt, out) →
  let envelope (v : Q) : Q :=
    if Qle_bool payload_c v
    then ((ra_b - ra_c) / (max_payload - payload_c) * (v - payload_c) + ra_c)%Q
    else ((ra_c - ra_d) / payload_c * v + ra_d)%Q in
  ∃ val_payloads max_range : list Q,
    grid_payload_bands spec max_payload payload_c ra_b ra_c ra_d
      = Ok (val_payloads, max_range) ∧
    (∀ i j x y, i ≤ j → max_range !! i = Some x → max_range !! j = Some y →
                (y <= x)%Q) ∧
    ∀ i ci j, cnt !! i = Some ci → j < ci →
      ∃ r p v m : Q,
        g_ranges g !! (sum_list (take i cnt) + j) = Some r ∧
        g_payloads g !! (sum_list (take i cnt) + j) = Some p ∧
        val_payloads !! i = Some v ∧ (p == v)%Q ∧
        max_range !! i = Some m ∧
        (m == right_limit_box_tolerance spec * envelope v)%Q ∧
        (0 <= p)%Q ∧ (p <= max_payload)%Q ∧
        (r <= m)%Q ∧ (r <= envelope v)%Q.
Proof.
  intros Halt Hstep Hpc Hmp Hb0 Hbc Hcd Hlow Hbox Hup Hright Hright1 H envelope.
  pose proof (grid_of_envelope_rows _ _ _ _ _ _ _ _ _ H)
    as (mp2 & val2 & rows2 & Hmp2 & Hval2 & _ & Hgp2 & _ & Hcnt2 & Hlen2 & _).
  compute in Hmp2. injection Hmp2 as <-.
  rewrite (@grid_of_envelope_five Qfloat), Halt in H.
  bind_inv H. destruct x as [val mr]. rename Hx into Hbands.
  bind_inv H. destruct x as [[gr gp] cnt']. rename Hx into Hgrid.
  injection H as _ <- <- _.
  pose proof (max_range_decreasing spec _ _ _ _ _ val mr Hpc Hmp Hbc Hcd Hbox Hright
                Hbands) as Hdec.
  pose proof (max_range_lookup spec _ _ _ _ _ val mr Hbox Hbands) as Hmrl.
  pose proof (grid_payload_bands_length _ _ _ _ _ _ _ _ Hbands) as (Hval & Hlval & Hlmr).
  assert (val2 = val) as -> by congruence.
  pose proof (np_linspace_le_stop _ _ _ _ Hbox Hval) as Hstop.
  pose proof (np_linspace_sorted _ _ _ _ Hbox Hval) as Hsorted.
  apply rectangular_grid_rows_explicit in Hgrid
    as (m & base & rows & Hm & Hbase & Hlen & _ & Hrows & -> & ->).
  rewrite number_value_neg in Hbase.
  apply np_arange_Q in Hbase as [_ Hbase].
  change (@num Qfloat) with Q in *.
  set (n := Z.to_nat (n_intervals_payloads spec)) in *.
  exists val, mr. split; [exact Hbands|]. split; [exact Hdec|].
  intros i ci j Hci Hj. simpl g_ranges. simpl g_payloads.
  (* the payload of the point *)
  assert (Hp : ∃ v, val !! i = Some v ∧
                    gp !! (sum_list (take i (map length rows)) + j) = Some (1 * v)%Q).
  { rewrite Hcnt2 in Hci |- *. rewrite list_lookup_fmap in Hci.
    destruct (rows2 !! i) as [row2|] eqn:Hrow2; [|discriminate]. injection Hci as <-.
    destruct (@grid_rows_lookup Qfloat rows2 val i j row2 Hlen2 Hrow2 Hj)
      as (v & r2 & Hv & _ & _ & Hpv).
    exists v. split; [exact Hv|]. simpl in Hgp2. rewrite Hgp2. exact Hpv. }
  destruct Hp as (v & Hv & Hpv).
  rewrite list_lookup_fmap in Hci.
  destruct (rows !! i) as [row|] eqn:Hrow; [|discriminate]. injection Hci as <-.
  assert (Hi : i < n) by (apply lookup_lt_Some in Hrow; lia).
  destruct (lookup_lt_is_Some_2 row j Hj) as [r Hr].
  destruct (lookup_lt_is_Some_2 mr i) as [mi Hmi]; [lia|].
  (* the band: its payload and its maximum range *)
  assert (Hvmp : (v <= max_payload)%Q).
  { apply list_elem_of_lookup_2 in Hv.
    pose proof (proj1 (Forall_forall _ _) Hstop v Hv) as Hle. simpl in Hle. lra. }
  assert (Hv0 : (0 <= v)%Q).
  { destruct (lookup_lt_is_Some_2 val 0) as [v0 Hv0]; [apply lookup_lt_Some in Hv; lia|].
    pose proof (np_linspace_head _ _ _ _ _ Hval Hv0) as Hstart.
    change (@fmul Qfloat) with Qmult in Hstart.
    pose proof (Hsorted 0 i v0 v ltac:(lia) Hv0 Hv) as Hle. lra. }
  assert (Hs1 : ((ra_c - ra_d) / payload_c <= 0)%Q) by (apply Qdiv_nonpos; lra).
  assert (Hs2 : ((ra_b - ra_c) / (max_payload - payload_c) <= 0)%Q)
    by (apply Qdiv_nonpos; lra).
  assert (Hf1 : ((ra_c - ra_d) / payload_c * payload_c + ra_d == ra_c)%Q)
    by (field; lra).
  assert (Hf2 : ((ra_b - ra_c) / (max_payload - payload_c) * (max_payload - payload_c)
                 + ra_c == ra_b)%Q) by (field; lra).
  assert (Henv : (mi == right_limit_box_tolerance spec * envelope v)%Q
                 ∧ (0 <= envelope v)%Q).
  { destruct (Hmrl i mi Hmi) as (v' & Hv' & Hcase).
    rewrite Hv in Hv'. injection Hv' as <-. unfold envelope.
    destruct Hcase as [(Hlt & ->)|(Hle & ->)].
    - rewrite (Qle_bool_false _ _ Hlt). split; [reflexivity|].
      pose proof (Qmult_le_nonpos _ v payload_c Hs1 ltac:(lra)). nra.
    - rewrite (proj2 (Qle_bool_iff _ _) Hle). split; [reflexivity|].
      pose proof (Qmult_le_nonpos _ (v - payload_c) (max_payload - payload_c) Hs2
                    ltac:(lra)). nra. }
  destruct Henv as [Hmenv Henv0].
  assert (Hrm : (r <= mi)%Q).
  { rewrite Hrows in Hrow by exact Hi. injection Hrow as <-.
    rewrite last_lookup, Hlmr in Hm.
    apply lookup_app_Some in Hr as [Hr|[Hge Hr]].
    - (* a sample of the base row *)
      apply (Qle_trans _ m); [|apply (Hdec i (pred n) mi m); [lia|exact Hmi|exact Hm]].
      apply list_elem_of_lookup_2 in Hr. rewrite elem_of_reverse, Hbase in Hr.
      apply list_elem_of_fmap in Hr as (t & -> & _). unfold_Qfloat.
      assert (Ht : (0 <= inject_Z (Z.of_nat t))%Q).
      { change 0%Q with (inject_Z 0). rewrite <- Zle_Qle. lia. }
      nra.
    - (* the maximum range of a band above *)
      apply lookup_take_Some in Hr as [Hr Ht].
      rewrite lookup_drop in Hr.
      apply lookup_lt_Some in Hr as Hlt. rewrite (length_reverse mr) in Hlt.
      rewrite reverse_lookup in Hr by exact Hlt.
      apply (Hdec i (length mr - S (1 + (j - length (reverse base)))) mi r);
        [|exact Hmi|exact Hr].
      lia. }
  exists r, (1 * v)%Q, v, mi.
  split; [rewrite firstn_map; apply (concat_lookup rows i row j r Hrow Hr)|].
  split; [exact Hpv|]. split; [exact Hv|]. split; [ring|].
  split; [exact Hmi|]. split; [exact Hmenv|].
  split; [lra|]. split; [lra|]. split; [exact Hrm|].
  rewrite Hmenv in Hrm. nra.
Qed.

Lemma rectangular_points_inside_envelope_witness :
  alternative_grid example_spec = false ∧
  (0 < number_value (range_step example_spec))%Q ∧
  let envelope (v : Q) : Q :=
    if Qle_bool 10 v
    then ((3000 - 4000) / (20 - 10) * (v - 10) + 4000)%Q
    else ((4000 - 5000) / 10 * v + 5000)%Q in
  ∃ val_payloads max_range : list Q,
    grid_payload_bands example_spec 20%Q 10%Q 3000%Q 4000%Q 5000%Q
      = Ok (val_payloads, max_range) ∧
    (∀ i j x y, i ≤ j → max_range !! i = Some x → max_range !! j = Some y →
                (y <= x)%Q) ∧
    ∀ i ci j, example_counts !! i = Some ci → j < ci →
      ∃ r p v m : Q,
        g_ranges example_grid !! (sum_list (take i example_counts) + j) = Some r ∧
        g_payloads example_grid !! (sum_list (take i example_counts) + j) = Some p ∧
        val_payloads !! i = Some v ∧ (p == v)%Q ∧
        max_range !! i = Some m ∧
        (m == right_limit_box_tolerance example_spec * envelope v)%Q ∧
        (0 <= p)%Q ∧ (p <= 20)%Q ∧
        (r <= m)%Q ∧ (r <= envelope v)%Q.
Proof.
  split; [reflexivity|]. split; [reflexivity|].
  apply (rectangular_points_inside_envelope 0 3000 4000 5000 2500 20 20 10 0 18 []
           example_figure example_spec false example_grid example_counts example_out).
  - reflexivity.
  - reflexivity.
  - reflexivity.
  - reflexivity.
  - vm_compute. discriminate.
  - vm_compute. discriminate.
  - vm_compute. discriminate.
  - vm_compute. discriminate.
  - vm_compute. discriminate.
  - vm_compute. discriminate.
  - vm_compute. discriminate.
  - vm_compute. discriminate.
  - reflexivity.
Defined.

(** ** The design point *)

(** X20: the design point is on the envelope.  With exact arithmetic,
    when the design payload differs from the payload of point C and the
    interpolated range of point B is not negative, the points B, C and the
    design point returned by [breguet_leduc_points] are on one line: point B
    is where the line from C through the design point reaches the maximum
    payload. *)
Theorem design_point_on_envelope (E : @collaborators Qfloat) (ac : @aircraft Qfloat)
    (ra_b ra_c ra_s p_b p_c p_s : Q) :
  (breguet_leduc_points E ac).1 !! 1 = Some ra_b →
  (breguet_leduc_points E ac).1 !! 2 = Some ra_c →
  (breguet_leduc_points E ac).1 !! 4 = Some ra_s →
  (breguet_leduc_points E ac).2 !! 1 = Some p_b →
  (breguet_leduc_points E ac).2 !! 2 = Some p_c →
  (breguet_leduc_points E ac).2 !! 4 = Some p_s →
  ¬ (sizing_payload ac == mtow ac - mfw ac - owe ac)%Q →
  (0 <= ra_b_interpolated ac ra_c (mtow ac - mfw ac - owe ac))%Q →
  ((ra_b - ra_c) * (p_s - p_c) == (ra_s - ra_c) * (p_b - p_c))%Q.
Proof.
  unfold breguet_leduc_points. cbn [fst snd map lookup list_lookup].
  intros Hb Hc Hs Hpb Hpc Hps Hne Hpos.
  injection Hc as <-. injection Hs as <-.
  injection Hpb as <-. injection Hpc as <-. injection Hps as <-.
  match type of Hb with
  | context [if ?c then _ else _] =>
      replace c with false in Hb
        by (symmetry; apply negb_false_iff, Qle_bool_iff; exact Hpos)
  end.
  injection Hb as <-. unfold ra_b_interpolated. unfold_Qfloat.
  field. split; [discriminate|]. intros H. apply Hne. lra.
Qed.

Lemma design_point_on_envelope_witness :
  let pts := breguet_leduc_points example_collaborators example_aircraft in
  let ra (i : nat) := default 0%Q (pts.1 !! i) in
  let pl (i : nat) := default 0%Q (pts.2 !! i) in
  ((ra 1%nat - ra 2%nat) * (pl 4%nat - pl 2%nat)
   == (ra 4%nat - ra 2%nat) * (pl 1%nat - pl 2%nat))%Q.
Proof.
  intros pts ra pl.
  apply (design_point_on_envelope example_collaborators example_aircraft
           (ra 1%nat) (ra 2%nat) (ra 4%nat) (pl 1%nat) (pl 2%nat) (pl 4%nat)).
  - reflexivity.
  - reflexivity.
  - reflexivity.
  - reflexivity.
  - reflexivity.
  - reflexivity.
  - vm_compute. discriminate.
  - vm_compute. discriminate.
Defined.

(** ** A loop that runs to its end *)

(** X21: the loop over the grid points runs to its end.  When the grid is
    generated, the mission inputs are prepared and the mission returns its
    fuels at every grid point, [payload_range_loop_computation] reaches
    [np.savetxt] without raising: no index is out of range under either
    policy, and the grid it is about to save has the ranges and the payloads
    generated and one specific consumption per point, the fuel returned for
    the point divided by [payload * range * 1.852 * 10 ** 3]. *)
Theorem sweep_reaches_savetxt {F : FloatOps}
    (E : collaborators) (sim : simulator) (ac : aircraft) (spec : GridSpec)
    (fig : figure) (g : grid) (cnt : list nat) (out : list string) :
  grid_generation E ac [] spec true = Ok (fig, g, cnt, out) →
  prepare_mission sim = Ok () →
  (∀ i r p, g_ranges g !! i = Some r → g_payloads g !! i = Some p →
     ∃ fuel, evaluate_mission sim p (r * of_int (10 ^ 3) * lit 1852 3)%F = Ok fuel) →
  ∃ g',
    sweep_grid E sim ac spec = Ok g' ∧
    g_ranges g' = g_ranges g ∧
    g_payloads g' = g_payloads g ∧
    length (g_consumption g') = length (g_ranges g) ∧
    ∀ i r, g_ranges g !! i = Some r →
      ∃ p fuel,
        g_payloads g !! i = Some p ∧
        evaluate_mission sim p (r * of_int (10 ^ 3) * lit 1852 3)%F = Ok fuel ∧
        g_consumption g' !! i
          = Some (total_fuel fuel / (p * r * lit 1852 3 * of_int (10 ^ 3)))%F.
Proof.
  intros Hgrid Hprep Hmissions.
  pose proof (grid_generation_payloads_length _ _ _ _ _ _ _ _ _ Hgrid) as Hlen.
  pose proof (grid_generation_consumption_length _ _ _ _ _ _ _ _ _ Hgrid) as Hclen.
  destruct (for_range_total
              (λ _ (t : grid), g_ranges t = g_ranges g ∧ g_payloads t = g_payloads g)
              (sweep_step sim) (length (g_ranges g)) 0 g) as (g1 & Hrun & _).
  - auto.
  - intros i t Hi [Hrt Hpt]. unfold sweep_step. rewrite Hrt, Hpt.
    destruct (lookup_lt_is_Some_2 (g_payloads g) i) as [pi Hpi]; [lia|].
    destruct (lookup_lt_is_Some_2 (g_ranges g) i) as [ri Hri]; [lia|].
    rewrite (proj2 (getitem_nat _ i pi) Hpi), (proj2 (getitem_nat _ i ri) Hri).
    cbn [mbind result_bind].
    destruct (Hmissions i ri pi Hri Hpi) as [fuel ->].
    cbn [mbind result_bind]. eexists. split; [reflexivity|]. auto.
  - destruct (sweep_loop_spec sim g g1 Hclen Hrun) as (Hr & Hp & Hc & _ & Hpoints).
    exists (specific_consumption g1).
    split.
    { unfold sweep_grid. rewrite Hgrid. cbn [mbind result_bind].
      rewrite Hprep. cbn [mbind result_bind]. rewrite Hrun. reflexivity. }
    split; [exact Hr|]. split; [exact Hp|]. split.
    { unfold specific_consumption. cbn [g_consumption g_ranges g_payloads].
      rewrite length_zip_with, length_map, length_zip_with, Hc, Hr, Hp. lia. }
    intros i r Hi.
    destruct (Hpoints i r Hi) as (p & fuel & Hpi & Hfuel & Hci).
    exists p, fuel. split; [exact Hpi|]. split; [exact Hfuel|].
    apply (specific_consumption_lookup g1 i r p (total_fuel fuel)).
    + rewrite Hr. exact Hi.
    + rewrite Hp. exact Hpi.
    + exact Hci.
Qed.

Lemma sweep_reaches_savetxt_witness :
  ∃ g',
    sweep_grid example_collaborators example_simulator example_aircraft
      example_sweep_spec = Ok g' ∧
    g_ranges g' = g_ranges example_sweep_grid ∧
    g_payloads g' = g_payloads example_sweep_grid ∧
    length (g_consumption g') = length (g_ranges example_sweep_grid) ∧
    ∀ i r, g_ranges example_sweep_grid !! i = Some r →
      ∃ p fuel,
        g_payloads example_sweep_grid !! i = Some p ∧
        evaluate_mission example_simulator p (r * of_int (10 ^ 3) * lit 1852 3)%F
          = Ok fuel ∧
        g_consumption g' !! i
          = Some (total_fuel fuel / (p * r * lit 1852 3 * of_int (10 ^ 3)))%F.
Proof.
  apply (sweep_reaches_savetxt example_collaborators example_simulator example_aircraft
           example_sweep_spec example_sweep_figure example_sweep_grid [5; 4]
           example_sweep_out).
  - reflexivity.
  - reflexivity.
  - intros i r p _ _. eexists. reflexivity.
Defined.

(** ** The payload axis of the contour *)

(** Python's [min] keeps its first element when no later one is smaller. *)
Lemma foldl_min_head (a : Q) (l : list Q) :
  Forall (λ x : Q, (a <= x)%Q) l →
  foldl (λ cur x : Q, if (x <? cur)%F then x else cur) a l = a.
Proof.
  induction 1 as [|x l Hx _ IH]; simpl; [reflexivity|].
  apply Qle_bool_iff in Hx. rewrite Hx. simpl. exact IH.
Qed.

(** Python's [max] returns an element that no other one exceeds. *)
Lemma foldl_max_spec (l : list Q) :
  ∀ a : Q,
    foldl (λ cur x : Q, if (cur <? x)%F then x else cur) a l ∈ a :: l ∧
    Forall (λ x : Q, (x <= foldl (λ cur x : Q, if (cur <? x)%F then x else cur) a l)%Q)
      (a :: l).
Proof.
  induction l as [|x l IH]; intros a; cbn [foldl].
  - split; [left|]. constructor; [apply Qle_refl|constructor].
  - change (if @flt Qfloat a x then x else a)
      with (if negb (Qle_bool x a) then x else a).
    destruct (Qle_bool x a) eqn:Hxa; cbn [negb].
    + destruct (IH a) as [Hin Hall]. split.
      * apply elem_of_cons in Hin as [->|Hin]; [left|right; right; exact Hin].
      * apply Forall_cons in Hall as [Ha Hl].
        constructor; [exact Ha|]. constructor; [|exact Hl].
        apply Qle_bool_iff in Hxa. eapply Qle_trans; [exact Hxa|exact Ha].
    + destruct (IH x) as [Hin Hall]. split.
      * right. exact Hin.
      * apply Forall_cons in Hall as [Hx Hl].
        constructor; [|constructor; [exact Hx|exact Hl]].
        apply Qle_bool_true_false in Hxa. eapply Qle_trans; [|exact Hx].
        apply Qlt_le_weak, Hxa.
Qed.

Lemma py_min_head (a lo : Q) (l : list Q) :
  Forall (λ x : Q, (a <= x)%Q) l → @py_min Qfloat (a :: l) = Ok lo → lo = a.
Proof.
  intros Hall H. injection H as <-. exact (foldl_min_head a l Hall).
Qed.

Lemma py_max_spec (l : list Q) (hi : Q) :
  @py_max Qfloat l = Ok hi → hi ∈ l ∧ Forall (λ x : Q, (x <= hi)%Q) l.
Proof.
  destruct l as [|a l]; [discriminate|].
  intros H. injection H as <-. exact (foldl_max_spec l a).
Qed.

Lemma np_linspace_last (start stop : Q) (n : Z) (l : list Q) :
  (2 ≤ n)%Z → @np_linspace Qfloat start stop n = Ok l → last l = Some stop.
Proof.
  intros Hn. unfold np_linspace.
  destruct (Z.ltb_spec n 0) as [|_]; [lia|].
  destruct (Z.to_nat n) as [|[|k]] eqn:Hk; try lia.
  intros H. injection H as <-. rewrite app_comm_cons. apply last_snoc.
Qed.

(** [np.linspace] between equal bounds gives equal samples. *)
Lemma np_linspace_Qeq (lo hi start stop : Q) (n : Z) (y val : list Q) :
  (lo == start)%Q → ((2 ≤ n)%Z → (hi == stop)%Q) →
  @np_linspace Qfloat lo hi n = Ok y →
  @np_linspace Qfloat start stop n = Ok val →
  Forall2 Qeq y val.
Proof.
  intros Hlo Hhi. unfold np_linspace.
  destruct (Z.ltb_spec n 0) as [|Hn]; [discriminate|].
  destruct (Z.to_nat n) as [|[|k]] eqn:Hk; intros H H'; injection H as <-;
    injection H' as <-.
  - constructor.
  - constructor; [exact Hlo|constructor].
  - specialize (Hhi ltac:(lia)). unfold_Qfloat.
    assert (Hf : ∀ i : nat,
      (inject_Z (Z.of_nat i) * ((hi - lo) / inject_Z (n - 1)) + lo
       == inject_Z (Z.of_nat i) * ((stop - start) / inject_Z (n - 1)) + start)%Q).
    { intros i. rewrite Hlo, Hhi. reflexivity. }
    constructor; [apply Hf|].
    apply Forall2_app; [|constructor; [exact Hhi|constructor]].
    apply Forall2_fmap, Forall_Forall2_diag, Forall_forall.
    intros i _. apply Hf.
Qed.

(** X22: the payload axis of the contour.  With exact arithmetic, after
    a completed sweep of two points or more whose lowest and highest bands
    both hold a point, with bands running upwards, the [y] axis
    [np.linspace(min(results[1]), max(results[1]), n)] of the contour is the
    payloads of the bands, in tonnes. *)
Theorem reloaded_contour_payload_axis
    (E : @collaborators Qfloat) (sim : @simulator Qfloat) (ac : @aircraft Qfloat)
    (spec : @GridSpec Qfloat) (folder file_save : string) (fs fs' : gmap string file)
    (fig : figure) (g : grid) (cnt : list nat) (out : list string)
    (fig0 : figure) (show0 : bool) (val_payloads : list Q) (c0 cl : nat) (step : Z) :
  range_step spec = PyInt step →
  payload_range_loop_computation E sim ac spec folder file_save fs = (fs', Ok ()) →
  grid_generation E ac [] spec true = Ok (fig, g, cnt, out) →
  2 ≤ length (g_ranges g) →
  (lower_limit_box_tolerance spec * (max_payload ac / 1000)
     <= upper_limit_box_tolerance spec * (max_payload ac / 1000))%Q →
  np_linspace (lower_limit_box_tolerance spec * (max_payload ac / 1000))%Q
    (upper_limit_box_tolerance spec * (max_payload ac / 1000))%Q
    (n_intervals_payloads spec) = Ok val_payloads →
  head cnt = Some c0 → 0 < c0 →
  last cnt = Some cl → 0 < cl →
  ∃ fig' out' x y z,
    payload_range_full E ac fig0 folder file_save show0 fs'
      = Ok (fig' ++ [Contour x y z], out') ∧
    Forall2 Qeq y val_payloads.
Proof.
  intros Hstep Hsweep Hgrid Hpoints Hbox Hval Hc0 Hc0pos Hcl Hclpos.
  destruct (reloaded_contour E sim ac spec folder file_save fs fs' fig g cnt out
              fig0 show0 step Hstep Hsweep Hgrid Hpoints)
    as (fig' & out' & x & y & z & c0' & lo & hi & Hrun & _ & _ & Hlo & Hhi & Hy
        & Hclen & _ & _).
  exists fig', out', x, y, z. split; [exact Hrun|].
  (* the payload column of the grid *)
  pose proof Hgrid as Hg. unfold grid_generation in Hg.
  destruct (breguet_leduc_points E ac) as [BLr BLp] eqn:HBL.
  assert (HBLp : getitem BLp 0 = Ok (max_payload ac / 1000)%Q).
  { unfold breguet_leduc_points in HBL. injection HBL as _ <-. reflexivity. }
  apply grid_of_envelope_rows in Hg
    as (mp & val & rows & Hmp & Hval' & _ & Hgp & _ & Hcnt & Hrv & Hall & _).
  rewrite HBLp in Hmp. injection Hmp as <-.
  assert (Hvv : val = val_payloads).
  { assert (Heq : Ok val = Ok val_payloads)
      by (etransitivity; [symmetry; exact Hval'|exact Hval]).
    injection Heq as ->. reflexivity. }
  subst val. clear Hval'.
  change (@num Qfloat) with Q in *.
  pose proof (np_linspace_sorted _ _ _ _ Hbox Hval) as Hsorted.
  pose proof (np_linspace_le_stop _ _ _ _ Hbox Hval) as Hstop.
  assert (Hrows : length rows = Z.to_nat (n_intervals_payloads spec)).
  { rewrite <- Hclen, Hcnt, length_map. reflexivity. }
  destruct (@np_linspace_length Qfloat _ _ _ _ Hval) as [_ Hvlen].
  change (@num Qfloat) with Q in *.
  (* the first point, of band 0 *)
  assert (Hrow0 : ∃ row0, rows !! 0 = Some row0 ∧ 0 < length row0).
  { rewrite Hcnt in Hc0. destruct rows as [|row0 rows']; [discriminate|].
    injection Hc0 as <-. eauto. }
  destruct Hrow0 as (row0 & Hrow0 & Hlen0).
  destruct (@grid_rows_lookup Qfloat rows val_payloads 0 0 row0 Hrv Hrow0 Hlen0)
    as (v0 & r0 & Hv0 & _ & _ & Hp0).
  simpl in Hp0. rewrite <- Hgp in Hp0.
  (* the last band *)
  assert (Hrowl : ∃ rowl, rows !! pred (length rows) = Some rowl ∧ 0 < length rowl).
  { rewrite Hcnt, last_lookup, list_lookup_fmap, length_map in Hcl.
    destruct (rows !! pred (length rows)) as [rowl|]; [|discriminate].
    injection Hcl as <-. eauto. }
  destruct Hrowl as (rowl & Hrowl & Hlenl).
  destruct (@grid_rows_lookup Qfloat rows val_payloads (pred (length rows)) 0 rowl Hrv
              Hrowl Hlenl) as (vl & rl & Hvl & _ & _ & Hpl).
  change (@num Qfloat) with Q in *.
  rewrite <- Hgp in Hpl. apply list_elem_of_lookup_2 in Hpl.
  (* every payload of the grid is the payload of a band *)
  assert (Hband : ∀ p, p ∈ g_payloads g →
            ∃ v, v ∈ val_payloads ∧ p = (1 * v)%Q ∧ (v0 <= v)%Q ∧
                 (v <= upper_limit_box_tolerance spec * (max_payload ac / 1000))%Q).
  { intros p Hp. rewrite Hgp in Hp.
    apply (@concat_zip_with_ones Qfloat) in Hp as (v & Hv & ->).
    exists v. split; [exact Hv|]. split; [reflexivity|]. split.
    - apply list_elem_of_lookup in Hv as [k Hk].
      apply (Hsorted 0 k v0 v); [lia|exact Hv0|exact Hk].
    - apply (proj1 (Forall_forall _ _) Hstop v Hv). }
  destruct (g_payloads g) as [|p0 col] eqn:Hcol; [discriminate|].
  injection Hp0 as ->.
  apply (np_linspace_Qeq lo hi
           (lower_limit_box_tolerance spec * (max_payload ac / 1000))%Q
           (upper_limit_box_tolerance spec * (max_payload ac / 1000))%Q
           (n_intervals_payloads spec) y val_payloads); [| |exact Hy|exact Hval].
  - (* the minimum *)
    apply py_min_head in Hlo as ->.
    + rewrite (np_linspace_head _ _ _ _ _ Hval Hv0).
      unfold_Qfloat. change (inject_Z 1) with 1%Q. ring.
    + apply Forall_forall. intros p Hp.
      destruct (Hband p) as (v & _ & -> & Hle & _); [right; exact Hp|].
      unfold_Qfloat. change (inject_Z 1) with 1%Q. lra.
  - (* the maximum *)
    intros Hn. apply py_max_spec in Hhi as [Hin Hmax].
    assert (Hvl' : vl = (upper_limit_box_tolerance spec * (max_payload ac / 1000))%Q).
    { pose proof (np_linspace_last _ _ _ _ Hn Hval) as Hlast.
      rewrite last_lookup in Hlast. rewrite Hrows, <- Hvlen in Hvl.
      rewrite Hvl in Hlast. injection Hlast as ->. reflexivity. }
    apply Qle_antisym.
    + destruct (Hband hi Hin) as (v & _ & -> & _ & Hle). lra.
    + apply (proj1 (Forall_forall _ _) Hmax) in Hpl. rewrite Hvl' in Hpl.
      unfold_Qfloat. change (inject_Z 1) with 1%Q in Hpl. lra.
Qed.

(** The payloads of the two bands of the worked sweep, in tonnes. *)
Definition example_sweep_bands : list Q :=
  Eval vm_compute in
    match @np_linspace Qfloat
            (lower_limit_box_tolerance example_sweep_spec
             * (max_payload example_aircraft / 1000))%Q
            (upper_limit_box_tolerance example_sweep_spec
             * (max_payload example_aircraft / 1000))%Q
            (n_intervals_payloads example_sweep_spec) with
    | Ok l => l
    | Raise _ => []
    end.

Lemma reloaded_contour_payload_axis_witness :
  ∃ fig' out' x y z,
    payload_range_full example_collaborators example_aircraft [] "data"
      "loop_results.txt" false example_swept.1
      = Ok (fig' ++ [Contour x y z], out') ∧
    Forall2 Qeq y example_sweep_bands.
Proof.
  assert (Hgrid : grid_generation example_collaborators example_aircraft []
                    example_sweep_spec true
                  = Ok (example_sweep_figure, example_sweep_grid, [5; 4],
                        example_sweep_out))
    by reflexivity.
  assert (Hpoints : 2 ≤ length (g_ranges example_sweep_grid))
    by (apply (Nat.leb_le 2); reflexivity).
  pose proof (reloaded_contour_payload_axis example_collaborators example_simulator
                example_aircraft example_sweep_spec "data" "loop_results.txt" ∅
                example_swept.1 example_sweep_figure example_sweep_grid [5; 4]
                example_sweep_out [] false example_sweep_bands 5 4 500%Z) as H.
  specialize (H eq_refl).
  specialize (H example_swept_completed). specialize (H Hgrid Hpoints).
  apply H.
  - vm_compute. discriminate.
  - reflexivity.
  - reflexivity.
  - lia.
  - reflexivity.
  - lia.
Defined.

(** ** The denominators of the specific consumption *)

(** X23: the sweep never divides by zero on a rectangular grid.  With
    exact arithmetic, on an envelope with positive ranges growing from B to C
    to D and point C strictly between no payload and the maximum payload, with
    a positive step, a grid box between positive payloads at most the maximum
    payload and a positive right tolerance, every grid point has a positive
    range and a positive payload, so that the divisor
    [payload * range * 1.852 * 10 ** 3] is positive. *)
Theorem rectangular_points_positive
    (ra_a ra_b ra_c ra_d ra_s max_payload payload_b payload_c payload_d payload_s : Q)
    (fig fig' : figure) (spec : GridSpec) (show_grid : bool) (g : grid)
    (cnt : list nat) (out : list string) :
  alternative_grid spec = false →
  (0 < number_value (range_step spec))%Q →
  (0 < payload_c)%Q → (payload_c < max_payload)%Q →
  (0 < ra_b)%Q → (ra_b <= ra_c)%Q → (ra_c <= ra_d)%Q →
  (0 < lower_limit_box_tolerance spec * max_payload)%Q →
  (lower_limit_box_tolerance spec * max_payload
     <= upper_limit_box_tolerance spec * max_payload)%Q →
  (upper_limit_box_tolerance spec * max_payload <= max_payload)%Q →
  (0 < right_limit_box_tolerance spec)%Q →
  grid_of_envelope [ra_a; ra_b; ra_c; ra_d; ra_s]
    [max_payload; payload_b; payload_c; payload_d; payload_s] fig spec show_grid
    = Ok (fig', g, cnt, out) →
  ∀ i r p, g_ranges g !! i = Some r → g_payloads g !! i = Some p →
    (0 < r)%Q ∧ (0 < p)%Q ∧ (0 < p * r * (1852 / 1000) * 1000)%Q.
Proof.
  intros Halt Hstep Hpc Hmp Hrb Hbc Hcd Hlow Hbox Hup Hright H.
  assert (Hpos : Forall (λ r : Q, (0 < r)%Q) (g_ranges g) ∧
                 Forall (λ p : Q, (0 < p)%Q) (g_payloads g)).
  { rewrite (@grid_of_envelope_five Qfloat), Halt in H.
    bind_inv H. destruct x as [val mr]. rename Hx into Hbands.
    bind_inv H. destruct x as [[gr gp] cnt']. rename Hx into Hgrid.
    injection H as _ <- <- _. cbn [g_ranges g_payloads].
    pose proof (max_range_at_least_B spec _ _ _ _ _ val mr Hpc Hmp Hbc Hcd Hbox Hup
                  ltac:(lra) Hbands) as Hmr.
    pose proof (grid_payload_bands_length _ _ _ _ _ _ _ _ Hbands) as (Hval & Hlval & _).
    pose proof (np_linspace_sorted _ _ _ _ Hbox Hval) as Hsorted.
    pose proof (rectangular_grid_rows _ _ _ _ _ _ _ _ Hgrid)
      as (_ & _ & rows' & _ & _ & Hlen' & _ & _ & Hgp & _).
    apply rectangular_grid_rows_explicit in Hgrid
      as (m & base & rows & Hm & Hbase & Hlen & _ & Hrows & -> & ->).
    rewrite number_value_neg in Hbase.
    destruct (arange_down _ _ _ _ Hstep Hbase) as (_ & _ & Habove & _).
    pose proof (grid_min_range_at_least_step spec ra_b) as Hmin.
    change (@num Qfloat) with Q in *.
    split.
    - apply Forall_forall. intros r Hr.
      apply list_elem_of_In, in_concat in Hr as (row & Hrow & Hr).
      apply list_elem_of_In in Hrow, Hr.
      apply list_elem_of_lookup in Hrow as [i Hi].
      apply lookup_lt_Some in Hi as Hlt. rewrite Hrows in Hi by lia.
      injection Hi as <-.
      apply elem_of_app in Hr as [Hr|Hr].
      + specialize (Habove r Hr). lra.
      + apply elem_of_take in Hr as (t & Ht & _). rewrite lookup_drop in Ht.
        apply list_elem_of_lookup_2 in Ht. rewrite elem_of_reverse in Ht.
        apply list_elem_of_lookup in Ht as [k Hk].
        specialize (Hmr k r Hk). nra.
    - rewrite Hgp. apply Forall_forall. intros p Hp.
      apply (@concat_zip_with_ones Qfloat) in Hp as (v & Hv & ->).
      apply list_elem_of_lookup in Hv as [k Hk].
      rewrite lookup_take_Some in Hk. destruct Hk as [Hk _].
      destruct (lookup_lt_is_Some_2 val 0) as [v0 Hv0].
      { apply lookup_lt_Some in Hk. change (@num Qfloat) with Q in *. lia. }
      pose proof (Hsorted 0 k v0 v ltac:(lia) Hv0 Hk) as Hle.
      pose proof (np_linspace_head _ _ _ _ _ Hval Hv0) as Hhead.
      unfold_Qfloat. change (inject_Z 1) with 1%Q. lra. }
  destruct Hpos as [Hr Hp]. intros i r p Hi Hpi.
  apply list_elem_of_lookup_2 in Hi, Hpi.
  pose proof (proj1 (Forall_forall _ _) Hr r Hi) as Hr0.
  pose proof (proj1 (Forall_forall _ _) Hp p Hpi) as Hp0.
  cbv beta in Hr0, Hp0.
  split; [exact Hr0|]. split; [exact Hp0|].
  assert (Hpr : (0 < p * r)%Q) by nra.
  assert (Heq : (p * r * (1852 / 1000) * 1000 == 1852 * (p * r))%Q) by field.
  rewrite Heq. lra.
Qed.

Lemma rectangular_points_positive_witness :
  alternative_grid example_spec = false ∧
  (0 < number_value (range_step example_spec))%Q ∧
  ∀ i r p, g_ranges example_grid !! i = Some r → g_payloads example_grid !! i = Some p →
    (0 < r)%Q ∧ (0 < p)%Q ∧ (0 < p * r * (1852 / 1000) * 1000)%Q.
Proof.
  split; [reflexivity|]. split; [reflexivity|].
  apply (rectangular_points_positive 0 3000 4000 5000 2500 20 20 10 0 18 []
           example_figure example_spec false example_grid example_counts example_out).
  - reflexivity.
  - reflexivity.
  - reflexivity.
  - reflexivity.
  - reflexivity.
  - vm_compute. discriminate.
  - vm_compute. discriminate.
  - reflexivity.
  - vm_compute. discriminate.
  - vm_compute. discriminate.
  - reflexivity.
  - reflexivity.
Defined.
